(** * pdf_quality_botV2: the page degradation pipeline

    A shallow embedding of [src/pdf_quality_botV2.py]: the transformation
    chain of [PDFCorruptor] (blur, skew, noise, the sums of the noise in
    binary64), the page loop of [PDFCorruptor.process_pdf], in a task that
    runs to the end and in one that is cancelled, the rate-limited
    [progress_callback] of
    [process_pdf_file] and the clamping of [handle_text_input]; then the
    processing history of [Database], the handler [process_pdf_file] around
    the pipeline and the upload handler [handle_pdf].

    Calls into PyMuPDF, Pillow, OpenCV, NumPy and the chat transport are
    fields of a record of library operations; every statement below holds
    for all of them. *)

From Stdlib Require Import ZArith QArith Qpower List Lia Lqa Bool.
From Stdlib Require Import Floats.SpecFloat.
From stdpp Require Import gmap strings.

Import ListNotations.
Local Open Scope Z_scope.

(** ** Python values and exceptions *)

Module Py.

Inductive exn :=
| FileNotFoundError
| FileDataError
| IndexError
| ValueError
| ZeroDivisionError
| OverflowError
| MemoryError
| RuntimeError (msg : string).

Inductive result (A : Type) :=
| Ok (a : A)
| Raise (e : exn).
Arguments Ok {A} a.
Arguments Raise {A} e.

Definition rbind {A B} (r : result A) (k : A -> result B) : result B :=
match r with
| Ok a => k a
| Raise e => Raise e
end.

Definition is_ok {A} (r : result A) : bool :=
match r with Ok _ => true | Raise _ => false end.

(** [max(lo, min(hi, value))] on Python integers. *)
Definition clamp (lo hi value : Z) : Z := Z.max lo (Z.min hi value).

(** *** binary64 arithmetic, as [float] has it *)

Definition prec : Z := 53.
Definition emax : Z := 1024.

Definition float := spec_float.

(** An integer as an exact operand (mantissa times two to the zero). *)
Definition exact_int (z : Z) : float :=
match z with
| Z0 => S754_zero false
| Zpos p => S754_finite false p 0
| Zneg p => S754_finite true p 0
end.

(** [float(z)]: the nearest binary64 value. *)
Definition float_of_int (z : Z) : float := binary_normalize prec emax z 0 false.

(** [a / b] on integers: the exact quotient rounded once to binary64. *)
Definition int_truediv (a b : Z) : result float :=
if b =? 0 then Raise ZeroDivisionError
else Ok (SFdiv prec emax (exact_int a) (exact_int b)).

(** [x * n] for a float [x] and an integer [n]. *)
Definition float_mul_int (x : float) (n : Z) : float :=
SFmul prec emax x (float_of_int n).

(** [int(x)]: truncation toward zero. *)
Definition int_of_float (x : float) : result Z :=
match x with
| S754_zero _ => Ok 0
| S754_finite s m e => Ok (cond_Zopp s (Z.shiftl (Zpos m) e))
| S754_infinity _ => Raise OverflowError
| S754_nan => Raise ValueError
end.

(** A zero, or a finite number whose mantissa is at most [2 ^ 53] and whose
  exponent is at most [bound]. *)
Definition tame (bound : Z) (x : float) : Prop :=
match x with
| S754_zero _ => True
| S754_finite _ m e => Zpos m <= 2 ^ 53 /\ e <= bound
| _ => False
end.

End Py.
Export Py.

Declare Scope result_scope.
Delimit Scope result_scope with result.
Notation "x <- r ;; k" := (rbind r (fun x => k))
  (at level 100, r at next level, right associativity) : result_scope.

Definition one_float : float := S754_finite false 4503599627370496 (-52).

(** ** Images and the transformation chain *)

Definition bytes := list Byte.byte.

(** A PIL image in mode RGB; [data] is what [np.array(image)] holds, one
    unsigned 8-bit number per channel. *)
Record Image := {
  width : Z;
  height : Z;
  data : list Z
}.

(** A finite binary64 number [m * 2 ^ e], given by [(m, e)]: an element of
    the array that [np.random.normal] returns. *)
Definition Draw : Type := Z * Z.

(** The number a draw stands for. *)
Definition draw_value (d : Draw) : Q := inject_Z (fst d) * 2 ^ snd d.

(** [c + y] in binary64, for a channel [c] (an integer, held exactly by the
    [float32] array) and a draw [y]: the exact sum rounded once to the
    nearest binary64 number, ties to even, as the addition of [float] is. *)
Definition channel_plus_draw (c : Z) (y : Draw) : float :=
  let ez := Z.min 0 (snd y) in
  binary_normalize prec emax (c * 2 ^ (0 - ez) + fst y * 2 ^ (snd y - ez)) ez false.

(** What a rounding to binary64 returns: a zero, an infinity, or a finite
    number whose mantissa fits in 53 bits. *)
Definition rounded (x : float) : Prop :=
  match x with
  | S754_finite _ m _ => Zpos m < 2 ^ 53
  | S754_nan => False
  | _ => True
  end.

(** [np.clip(x, a_min, a_max)] on a float and two integer bounds. *)
Definition np_clip (x : float) (a_min a_max : Z) : float :=
  if SFltb x (float_of_int a_min) then float_of_int a_min
  else if SFltb (float_of_int a_max) x then float_of_int a_max
  else x.

(** Truncation toward zero of a finite float. The conversion of an infinity
    or a NaN to an integer is undefined; 0 stands for it here, and
    [add_noise] never converts one. *)
Definition float_trunc (x : float) : Z :=
  match x with
  | S754_finite s m e => cond_Zopp s (Z.shiftl (Zpos m) e)
  | _ => 0
  end.

(** [astype(np.uint8)]: the fractional part is dropped and the integer is
    kept modulo 256. *)
Definition astype_uint8 (x : float) : Z := float_trunc x mod 256.

Inductive PageContent :=
| Vector (stream : bytes)
| Blank
| FullImage (rect : Z * Z * Z * Z) (stream : bytes).

Record Page := {
  page_width : Z;
  page_height : Z;
  content : PageContent
}.

Record Pixmap := {
  pix_width : Z;
  pix_height : Z;
  samples : bytes
}.

(** What a path of the storage holds: a PDF document or other bytes. *)
Inductive Blob :=
| PdfFile (file_pages : list Page)
| Garbage (raw : bytes).

(** The library calls of the pipeline. PyMuPDF: [get_pixmap], [insert_image],
    [doc_save], and with [doc_save_partial] what a save that raises has left
    at the path by then ([None]: the path is as it was; [Some b]: a file
    [b], written in part or emptied); Pillow: [Image_frombytes],
    [GaussianBlur], [jpeg_save];
    OpenCV: [warpAffine] (with the rotation matrix of [getRotationMatrix2D]
    about [center], scale 1.0, reflected border); NumPy: [random_normal],
    whose first argument numbers the call and whose result gives the draw of
    each channel, a finite binary64 number. *)
Record Library := {
  get_pixmap : Page -> float -> result Pixmap;
  insert_image : Z * Z * Z * Z -> bytes -> result unit;
  doc_save : list Page -> string -> result unit;
  doc_save_partial : list Page -> string -> option Blob;
  Image_frombytes : Z -> Z -> bytes -> result Image;
  GaussianBlur : Z -> Image -> result Image;
  jpeg_save : Image -> Z -> result bytes;
  warpAffine : Z * Z -> Z -> Image -> result Image;
  random_normal : nat -> Z -> nat -> result (nat -> Draw)
}.

(** A progress callback owns a state of type [St]; it may raise. *)
Definition Callback (St : Type) : Type := Z -> Z -> Z -> St -> result unit * St.

Record PDFCorruptor (St : Type) := {
  blur_amount : Z;
  skew_amount : Z;
  noise_amount : Z;
  quality : Z;
  dpi : Z;
  progress_callback : option (Callback St)
}.
Arguments blur_amount {St} _.
Arguments skew_amount {St} _.
Arguments noise_amount {St} _.
Arguments quality {St} _.
Arguments dpi {St} _.
Arguments progress_callback {St} _.

Section Chain.
Context {St : Type}.
Variable lib : Library.
Variable self : PDFCorruptor St.

Definition add_blur (image : Image) : result Image :=
  if blur_amount self =? 0 then Ok image
  else
    let blur_radius := Z.max 1 (blur_amount self) in
    GaussianBlur lib blur_radius image.

Definition add_skew (image : Image) : result Image :=
  if skew_amount self =? 0 then Ok image
  else
    let h := height image in
    let w := width image in
    let angle := skew_amount self in
    let center := (w / 2, h / 2) in
    warpAffine lib center angle image.

(** [call] numbers the draw taken from the generator. The [float32] array
    of the channels plus the [float64] array of the draws is a [float64]
    array: each sum is made in binary64. *)
Definition add_noise (call : nat) (image : Image) : result Image :=
  if noise_amount self =? 0 then Ok image
  else
    (noise <- random_normal lib call (noise_amount self) (length (data image)) ;;
     let noisy :=
       imap (fun i c => astype_uint8 (np_clip (channel_plus_draw c (noise i)) 0 255))
            (data image) in
     Ok {| width := width image; height := height image; data := noisy |})%result.

Definition process_page (call : nat) (image : Image) : result Image :=
  (image <- add_blur image ;;
   image <- add_skew image ;;
   image <- add_noise call image ;;
   Ok image)%result.
End Chain.

(** ** Documents, storage and the state of a run *)

Record Document := {
  pages : list Page;
  is_closed : bool
}.

Record ProgressEvent := {
  percentComplete : Z;
  currentPage : Z;
  totalPages : Z
}.

(** [files] is the storage behind the paths; [pdf_doc] and [output_doc] are
    the two local handles of [process_pdf] ([None] while unbound);
    [reporter] is the state owned by the callback; [invocations] records
    every call of the callback and [yields] counts [asyncio.sleep(0)]. *)
Record World (St : Type) := {
  files : gmap string Blob;
  pdf_doc : option Document;
  output_doc : option Document;
  reporter : St;
  invocations : list ProgressEvent;
  yields : nat
}.
Arguments files {St} _.
Arguments pdf_doc {St} _.
Arguments output_doc {St} _.
Arguments reporter {St} _.
Arguments invocations {St} _.
Arguments yields {St} _.

Definition M (St A : Type) : Type := World St -> result A * World St.

Section Monad.
Context {St : Type}.

Definition ret {A} (a : A) : M St A := fun w => (Ok a, w).

Definition bind {A B} (m : M St A) (k : A -> M St B) : M St B :=
  fun w =>
    match m w with
    | (Ok a, w') => k a w'
    | (Raise e, w') => (Raise e, w')
    end.

Definition lift {A} (r : result A) : M St A := fun w => (r, w).

(** [try: body except ...: handler]. *)
Definition try_except {A} (body : M St A) (handler : exn -> M St A) : M St A :=
  fun w =>
    match body w with
    | (Ok a, w') => (Ok a, w')
    | (Raise e, w') => handler e w'
    end.

(** [for i in range: body i]. *)
Fixpoint for_each (range : list nat) (body : nat -> M St unit) : M St unit :=
  match range with
  | [] => ret tt
  | i :: rest => bind (body i) (fun _ => for_each rest body)
  end.

Definition set_pdf_doc (d : option Document) (w : World St) : World St :=
  {| files := files w; pdf_doc := d; output_doc := output_doc w;
     reporter := reporter w; invocations := invocations w; yields := yields w |}.

Definition set_output_doc (d : option Document) (w : World St) : World St :=
  {| files := files w; pdf_doc := pdf_doc w; output_doc := d;
     reporter := reporter w; invocations := invocations w; yields := yields w |}.

Definition set_files (f : gmap string Blob) (w : World St) : World St :=
  {| files := f; pdf_doc := pdf_doc w; output_doc := output_doc w;
     reporter := reporter w; invocations := invocations w; yields := yields w |}.

(** [fitz.open(path)]. *)
Definition fitz_open (path : string) : M St unit :=
  fun w =>
    match files w !! path with
    | Some (PdfFile ps) =>
        (Ok tt, set_pdf_doc (Some {| pages := ps; is_closed := false |}) w)
    | Some (Garbage _) => (Raise FileDataError, w)
    | None => (Raise FileNotFoundError, w)
    end.

(** [fitz.open()]: a new, empty document. *)
Definition fitz_open_new : M St unit :=
  fun w => (Ok tt, set_output_doc (Some {| pages := []; is_closed := false |}) w).

Definition unbound {A} : result A := Raise (RuntimeError "unbound local").
Definition closed {A} : result A := Raise ValueError.

(** [len(pdf_doc)]. *)
Definition len_pdf_doc : M St nat :=
  fun w =>
    match pdf_doc w with
    | Some d => if is_closed d then (closed, w) else (Ok (length (pages d)), w)
    | None => (unbound, w)
    end.

(** [pdf_doc[page_num]]. *)
Definition pdf_doc_getitem (page_num : nat) : M St Page :=
  fun w =>
    match pdf_doc w with
    | Some d =>
        if is_closed d then (closed, w)
        else match pages d !! page_num with
             | Some p => (Ok p, w)
             | None => (Raise IndexError, w)
             end
    | None => (unbound, w)
    end.

(** [output_doc.new_page(width=..., height=...)]. *)
Definition new_page (w_ h_ : Z) : M St unit :=
  fun w =>
    match output_doc w with
    | Some d =>
        if is_closed d then (closed, w)
        else
          let p := {| page_width := w_; page_height := h_; content := Blank |} in
          (Ok tt, set_output_doc
                    (Some {| pages := pages d ++ [p]; is_closed := false |}) w)
    | None => (unbound, w)
    end.

Definition with_image (rect : Z * Z * Z * Z) (stream : bytes) (p : Page) : Page :=
  {| page_width := page_width p; page_height := page_height p;
     content := FullImage rect stream |}.

(** [new_page.insert_image(rect, stream=...)] on the page just added. *)
Definition insert_image_new_page (lib : Library) (rect : Z * Z * Z * Z)
    (stream : bytes) : M St unit :=
  fun w =>
    match output_doc w with
    | Some d =>
        match insert_image lib rect stream with
        | Ok _ =>
            let ps := alter (with_image rect stream) (pred (length (pages d))) (pages d) in
            (Ok tt, set_output_doc (Some {| pages := ps; is_closed := is_closed d |}) w)
        | Raise e => (Raise e, w)
        end
    | None => (unbound, w)
    end.

(** The storage after a save that raised: whatever the library had written
    to the path by then is there. *)
Definition after_failed_save (lib : Library) (qs : list Page) (output_path : string)
    (fs : gmap string Blob) : gmap string Blob :=
  match doc_save_partial lib qs output_path with
  | Some b => <[output_path := b]> fs
  | None => fs
  end.

(** [output_doc.save(output_path, garbage=4, deflate=True, clean=True)]. *)
Definition save (lib : Library) (output_path : string) : M St unit :=
  fun w =>
    match output_doc w with
    | Some d =>
        if is_closed d then (closed, w)
        else match doc_save lib (pages d) output_path with
             | Ok _ => (Ok tt, set_files (<[output_path := PdfFile (pages d)]> (files w)) w)
             | Raise e =>
                 (Raise e, set_files (after_failed_save lib (pages d) output_path (files w)) w)
             end
    | None => (unbound, w)
    end.

Definition close_doc (d : Document) : Document :=
  {| pages := pages d; is_closed := true |}.

Definition close_pdf_doc : M St unit :=
  fun w =>
    match pdf_doc w with
    | Some d => (Ok tt, set_pdf_doc (Some (close_doc d)) w)
    | None => (unbound, w)
    end.

Definition close_output_doc : M St unit :=
  fun w =>
    match output_doc w with
    | Some d => (Ok tt, set_output_doc (Some (close_doc d)) w)
    | None => (unbound, w)
    end.

(** [await self.progress_callback(progress, current, total)]. *)
Definition await_callback (cb : Callback St) (progress current total : Z) : M St unit :=
  fun w =>
    let '(r, s') := cb progress current total (reporter w) in
    (r, {| files := files w; pdf_doc := pdf_doc w; output_doc := output_doc w;
           reporter := s';
           invocations := invocations w ++
             [{| percentComplete := progress; currentPage := current;
                 totalPages := total |}];
           yields := yields w |}).

(** [await asyncio.sleep(0)] in a task that is not cancelled while it is
    suspended there; [Cancellable.asyncio_sleep_0] below is the same await
    in a task that can be. *)
Definition asyncio_sleep_0 : M St unit :=
  fun w =>
    (Ok tt, {| files := files w; pdf_doc := pdf_doc w; output_doc := output_doc w;
               reporter := reporter w; invocations := invocations w;
               yields := S (yields w) |}).
End Monad.

Declare Scope run_scope.
Delimit Scope run_scope with run.
Notation "x <- m ;; k" := (bind m (fun x => k))
  (at level 100, m at next level, right associativity) : run_scope.
Notation "m ;; k" := (bind m (fun _ => k))
  (at level 100, right associativity) : run_scope.

(** ** [PDFCorruptor.process_pdf] *)

Section Pipeline.
Context {St : Type}.
Variable lib : Library.
Variable self : PDFCorruptor St.

(** [int((page_num + 1) / total_pages * 100)]. *)
Definition progress_percent (page_num total_pages : Z) : result Z :=
  (q <- int_truediv (page_num + 1) total_pages ;;
   int_of_float (float_mul_int q 100))%result.

(** [zoom = self.dpi / 72.0]. *)
Definition zoom : float :=
  SFdiv prec emax (float_of_int (dpi self)) (float_of_int 72).

Definition report_progress (page_num total_pages : nat) : M St unit :=
  match progress_callback self with
  | Some cb =>
      (progress <- lift (progress_percent (Z.of_nat page_num) (Z.of_nat total_pages)) ;;
       try_except
         (await_callback cb progress (Z.of_nat page_num + 1) (Z.of_nat total_pages))
         (fun _ => ret tt))%run
  | None => ret tt
  end.

(** The body of the page loop. *)
Definition page_cycle (total_pages page_num : nat) : M St unit :=
  (page <- pdf_doc_getitem page_num ;;
   pix <- lift (get_pixmap lib page zoom) ;;
   image <- lift (Image_frombytes lib (pix_width pix) (pix_height pix) (samples pix)) ;;
   processed_image <- lift (process_page lib self page_num image) ;;
   img_bytes <- lift (jpeg_save lib processed_image (quality self)) ;;
   new_page (pix_width pix) (pix_height pix) ;;
   insert_image_new_page lib (0, 0, pix_width pix, pix_height pix) img_bytes ;;
   report_progress page_num total_pages ;;
   asyncio_sleep_0)%run.

Definition process_pdf (pdf_path output_path : string) : M St (bool * Z) :=
  try_except
    (fitz_open pdf_path ;;
     fitz_open_new ;;
     total_pages <- len_pdf_doc ;;
     for_each (seq 0 total_pages) (page_cycle total_pages) ;;
     save lib output_path ;;
     pages_count <- len_pdf_doc ;;
     close_pdf_doc ;;
     close_output_doc ;;
     ret (true, Z.of_nat pages_count))%run
    (fun _ => ret (false, 0)).

(** The library calls of one page cycle, composed: the page a source page
    turns into, or the error of the first call that raises. *)
Definition page_stages (page_num : nat) (page : Page) : result Page :=
  (pix <- get_pixmap lib page zoom ;;
   image <- Image_frombytes lib (pix_width pix) (pix_height pix) (samples pix) ;;
   processed_image <- process_page lib self page_num image ;;
   img_bytes <- jpeg_save lib processed_image (quality self) ;;
   _ <- insert_image lib (0, 0, pix_width pix, pix_height pix) img_bytes ;;
   Ok {| page_width := pix_width pix; page_height := pix_height pix;
         content := FullImage (0, 0, pix_width pix, pix_height pix) img_bytes |})%result.

(** Every page of [ps], numbered from [k], goes through its stages. *)
Fixpoint all_stages (k : nat) (ps : list Page) : result (list Page) :=
  match ps with
  | [] => Ok []
  | p :: rest =>
      (q <- page_stages k p ;;
       qs <- all_stages (S k) rest ;;
       Ok (q :: qs))%result
  end.
End Pipeline.

(** How many pages, numbered from [k], go through their stages before the
    first one that fails. *)
Fixpoint done_before {St} (lib : Library) (self : PDFCorruptor St) (k : nat)
    (ps : list Page) : nat :=
  match ps with
  | [] => 0%nat
  | p :: rest =>
      match page_stages lib self k p with
      | Ok _ => S (done_before lib self (S k) rest)
      | Raise _ => 0%nat
      end
  end.

(** A callback fed a list of events, one call after the other; what the
    calls return is dropped, as [report_progress] does. *)
Fixpoint feed {St} (cb : Callback St) (events : list ProgressEvent) (s : St) : St :=
  match events with
  | [] => s
  | ev :: rest =>
      feed cb rest (snd (cb (percentComplete ev) (currentPage ev) (totalPages ev) s))
  end.

Definition feed_opt {St} (cb : option (Callback St)) (events : list ProgressEvent)
    (s : St) : St :=
  match cb with
  | Some cb => feed cb events s
  | None => s
  end.

(** A page is full-bleed when its one image covers the whole page. *)
Definition full_bleed (p : Page) : Prop :=
  exists stream,
    content p = FullImage (0, 0, page_width p, page_height p) stream.

Definition handle_closed (d : option Document) : Prop :=
  match d with
  | Some doc => is_closed doc = true
  | None => False
  end.

Definition handle_open (d : option Document) : Prop :=
  match d with
  | Some doc => is_closed doc = false
  | None => False
  end.

(** The ways a run of [process_pdf] meets an error: the source does not
    open, a page fails in one of its stages, or the final save fails. *)
Inductive stage_error {St} (lib : Library) (self : PDFCorruptor St)
    (pdf_path output_path : string) (w : World St) : Prop :=
| open_error :
    (forall ps, files w !! pdf_path <> Some (PdfFile ps)) ->
    stage_error lib self pdf_path output_path w
| page_error (ps : list Page) (e : exn) :
    files w !! pdf_path = Some (PdfFile ps) ->
    all_stages lib self 0 ps = Raise e ->
    stage_error lib self pdf_path output_path w
| finalize_error (ps qs : list Page) (e : exn) :
    files w !! pdf_path = Some (PdfFile ps) ->
    all_stages lib self 0 ps = Ok qs ->
    doc_save lib qs output_path = Raise e ->
    stage_error lib self pdf_path output_path w.

(** A world before [process_pdf] runs. *)
Definition initial_world {St} (fs : gmap string Blob) (s : St) : World St :=
  {| files := fs; pdf_doc := None; output_doc := None; reporter := s;
     invocations := []; yields := 0%nat |}.

(** ** The rate-limited [progress_callback] of [process_pdf_file] *)

Module Reporter.

(** What one [edit_text] shows: the filled and the empty cells of the bar,
    the percentage and the page counter. *)
Record Message := {
  filled_cells : Z;
  empty_cells : Z;
  shown_percent : Z;
  shown_page : Z;
  shown_total : Z
}.

(** [last_update_time] is the one-element list the closure shares;
    [reads] counts the readings of the clock, one per invocation;
    [attempts] logs every call of [edit_text] under the number of its
    invocation and [shown] those of them that did not raise. *)
Record State := {
  last_update_time : Q;
  reads : nat;
  attempts : list (nat * Message);
  shown : list (nat * Message)
}.

Definition initial : State :=
  {| last_update_time := 0; reads := 0; attempts := []; shown := [] |}.

Definition Qltb (x y : Q) : bool :=
  match (x ?= y)%Q with Lt => true | _ => false end.

Section Callback.
(** [time_time n] is what the [n]-th call of [time.time()] returns. *)
Variable time_time : nat -> Q.
Variable edit_text : Message -> result unit.

Definition progress_callback : Callback State :=
  fun progress current_page total_pages st =>
    let current_time := time_time (reads st) in
    if Qltb (current_time - last_update_time st) 2 && (progress <? 100) then
      (Ok tt, {| last_update_time := last_update_time st; reads := S (reads st);
                 attempts := attempts st; shown := shown st |})
    else
      let bar_length := 20 in
      match (q <- int_truediv (bar_length * progress) 100 ;; int_of_float q)%result with
      | Raise e =>
          (Raise e, {| last_update_time := current_time; reads := S (reads st);
                       attempts := attempts st; shown := shown st |})
      | Ok filled =>
          let msg := {| filled_cells := filled; empty_cells := bar_length - filled;
                        shown_percent := progress; shown_page := current_page;
                        shown_total := total_pages |} in
          let entry := (reads st, msg) in
          (* try: await progress_msg.edit_text(...) except: pass *)
          (Ok tt, {| last_update_time := current_time; reads := S (reads st);
                     attempts := attempts st ++ [entry];
                     shown := if is_ok (edit_text msg) then shown st ++ [entry]
                              else shown st |})
      end.

(** The state after one invocation. *)
Definition call (ev : ProgressEvent) (st : State) : State :=
  snd (progress_callback (percentComplete ev) (currentPage ev) (totalPages ev) st).

(** The callback invoked once per event, in order. *)
Fixpoint invoke_all (events : list ProgressEvent) (st : State) : State :=
  match events with
  | [] => st
  | ev :: rest => invoke_all rest (call ev st)
  end.

(** Every logged attempt belongs to a past invocation that is no later
    than the last update. *)
Definition logged (st : State) : Prop :=
  forall i msg, In (i, msg) (attempts st) ->
    (i < reads st)%nat /\ (time_time i <= last_update_time st)%Q.
End Callback.

Definition attempted (n : nat) (st : State) : Prop :=
  exists msg, In (n, msg) (attempts st).

Definition visible (n : nat) (st : State) : Prop :=
  exists msg, In (n, msg) (shown st).

(** [int(bar_length * progress / 100)] agrees with the integer quotient
    [progress / 5]; a check that runs. *)
Definition bar_agrees (progress : Z) : bool :=
  match (q <- int_truediv (20 * progress) 100 ;; int_of_float q)%result with
  | Ok filled => filled =? progress / 5
  | Raise _ => false
  end.

End Reporter.

(** ** The settings store and [handle_text_input] *)

Module Settings.

Record Row := {
  blur : Z;
  skew : Z;
  noise : Z;
  quality : Z;
  dpi : Z;
  filename_prefix : string
}.

Definition DEFAULT_BLUR : Z := 1.
Definition DEFAULT_SKEW : Z := 0.
Definition DEFAULT_NOISE : Z := 2.
Definition DEFAULT_QUALITY : Z := 50.
Definition DEFAULT_DPI : Z := 150.

Definition defaults : Row :=
  {| blur := DEFAULT_BLUR; skew := DEFAULT_SKEW; noise := DEFAULT_NOISE;
     quality := DEFAULT_QUALITY; dpi := DEFAULT_DPI;
     filename_prefix := "corrupted_" |}.

(** Table [user_settings], keyed by [user_id]. *)
Definition Database := gmap Z Row.

(** [Database.get_settings]: the row, created with the defaults when the
    user has none. *)
Definition get_settings (user_id : Z) (db : gmap Z Row) : Row * gmap Z Row :=
  match db !! user_id with
  | Some row => (row, db)
  | None => (defaults, <[user_id := defaults]> db)
  end.

(** One keyword argument of [Database.update_settings]. *)
Inductive Update :=
| set_int (key : string) (value : Z)
| set_prefix (value : string).

Definition apply_update (u : Update) (row : Row) : Row :=
  match u with
  | set_int key value =>
      if String.eqb key "blur" then
        {| blur := value; skew := skew row; noise := noise row;
           quality := quality row; dpi := dpi row;
           filename_prefix := filename_prefix row |}
      else if String.eqb key "skew" then
        {| blur := blur row; skew := value; noise := noise row;
           quality := quality row; dpi := dpi row;
           filename_prefix := filename_prefix row |}
      else if String.eqb key "noise" then
        {| blur := blur row; skew := skew row; noise := value;
           quality := quality row; dpi := dpi row;
           filename_prefix := filename_prefix row |}
      else if String.eqb key "quality" then
        {| blur := blur row; skew := skew row; noise := noise row;
           quality := value; dpi := dpi row;
           filename_prefix := filename_prefix row |}
      else if String.eqb key "dpi" then
        {| blur := blur row; skew := skew row; noise := noise row;
           quality := quality row; dpi := value;
           filename_prefix := filename_prefix row |}
      else row
  | set_prefix value =>
      {| blur := blur row; skew := skew row; noise := noise row;
         quality := quality row; dpi := dpi row; filename_prefix := value |}
  end.

(** [Database.update_settings]: [UPDATE user_settings SET ... WHERE
    user_id = ?] changes the row of the user when there is one. *)
Definition update_settings (user_id : Z) (u : Update) (db : gmap Z Row) : gmap Z Row :=
  alter (apply_update u) user_id db.

(** A field of a row by the name of its column. *)
Definition column (key : string) (row : Row) : option Z :=
  if String.eqb key "blur" then Some (blur row)
  else if String.eqb key "skew" then Some (skew row)
  else if String.eqb key "noise" then Some (noise row)
  else if String.eqb key "quality" then Some (quality row)
  else if String.eqb key "dpi" then Some (dpi row)
  else None.

Inductive Reply :=
| prefix_set (prefix : string)
| value_set (key : string) (value : Z)
| bad_value
| settings_menu (row : Row).

Section Handler.
(** The built-in [int] on a string and [str.strip]. *)
Variable int : string -> result Z.
Variable strip : string -> string.

(** [handle_text_input]: the replies sent, the new [adjusting] entry of
    the user data and the new table. *)
Definition handle_text_input (user_id : Z) (text : string)
    (adjusting : option string) (db : gmap Z Row)
  : list Reply * option string * gmap Z Row :=
  match adjusting with
  | None => ([], adjusting, db)
  | Some EmptyString => ([], adjusting, db)
  | Some key =>
      let done (replies : list Reply) (db : gmap Z Row) :=
        let '(settings, db) := get_settings user_id db in
        (replies ++ [settings_menu settings], None, db) in
      if String.eqb key "filename" then
        let prefix := strip text in
        let prefix := if String.eqb prefix "0" then EmptyString else prefix in
        done [prefix_set prefix] (update_settings user_id (set_prefix prefix) db)
      else
        match int text with
        | Raise _ => ([bad_value], adjusting, db)
        | Ok value =>
            if String.eqb key "blur" then
              let value := Z.max 0 (Z.min 20 value) in
              done [value_set key value] (update_settings user_id (set_int "blur" value) db)
            else if String.eqb key "skew" then
              let value := Z.max (-45) (Z.min 45 value) in
              done [value_set key value] (update_settings user_id (set_int "skew" value) db)
            else if String.eqb key "noise" then
              let value := Z.max 0 (Z.min 50 value) in
              done [value_set key value] (update_settings user_id (set_int "noise" value) db)
            else if String.eqb key "quality" then
              let value := Z.max 10 (Z.min 100 value) in
              done [value_set key value] (update_settings user_id (set_int "quality" value) db)
            else if String.eqb key "dpi" then
              let value := Z.max 72 (Z.min 300 value) in
              done [value_set key value] (update_settings user_id (set_int "dpi" value) db)
            else done [] db
        end
  end.
End Handler.

(** The ranges the prompts of [adjust_parameter] announce. *)
Definition documented_range (key : string) : option (Z * Z) :=
  if String.eqb key "blur" then Some (0, 20)
  else if String.eqb key "skew" then Some (-45, 45)
  else if String.eqb key "noise" then Some (0, 50)
  else if String.eqb key "quality" then Some (10, 100)
  else if String.eqb key "dpi" then Some (72, 300)
  else None.

(** The five numeric settings of a row lie in their ranges. *)
Definition in_ranges (row : Row) : Prop :=
  0 <= blur row <= 20 /\ -45 <= skew row <= 45 /\ 0 <= noise row <= 50 /\
  10 <= quality row <= 100 /\ 72 <= dpi row <= 300.

(** What [handle_text_input] does to the table: nothing, or one update of
    the user's row followed by the [get_settings] of the menu. *)
Inductive step (user_id : Z) (adjusting : option string) (db : gmap Z Row)
  : gmap Z Row -> Prop :=
| step_none : step user_id adjusting db db
| step_menu : step user_id adjusting db (snd (get_settings user_id db))
| step_prefix (value : string) :
    adjusting = Some "filename" ->
    step user_id adjusting db
      (snd (get_settings user_id (update_settings user_id (set_prefix value) db)))
| step_int (key : string) (lo hi value : Z) :
    adjusting = Some key ->
    documented_range key = Some (lo, hi) ->
    lo <= value <= hi ->
    step user_id adjusting db
      (snd (get_settings user_id (update_settings user_id (set_int key value) db))).

End Settings.

(** ** What a run leaves behind, page by page *)

Section Effects.
Context {St : Type}.
Variable self : PDFCorruptor St.

Definition percent_at (total_pages page_num : nat) : Z :=
  match progress_percent (Z.of_nat page_num) (Z.of_nat total_pages) with
  | Ok p => p
  | Raise _ => 0
  end.

Definition event_at (total_pages page_num : nat) : ProgressEvent :=
  {| percentComplete := percent_at total_pages page_num;
     currentPage := Z.of_nat page_num + 1;
     totalPages := Z.of_nat total_pages |}.

(** The output document with one more page. *)
Definition appended (q : Page) (w : World St) : World St :=
  match output_doc w with
  | Some d => set_output_doc (Some {| pages := pages d ++ [q]; is_closed := is_closed d |}) w
  | None => w
  end.

(** The callback, when there is one, called for page [page_num]. *)
Definition notified (total_pages page_num : nat) (w : World St) : World St :=
  match progress_callback self with
  | Some cb =>
      {| files := files w; pdf_doc := pdf_doc w; output_doc := output_doc w;
         reporter := snd (cb (percent_at total_pages page_num)
                             (Z.of_nat page_num + 1) (Z.of_nat total_pages)
                             (reporter w));
         invocations := invocations w ++ [event_at total_pages page_num];
         yields := yields w |}
  | None => w
  end.

Definition yielded (w : World St) : World St :=
  {| files := files w; pdf_doc := pdf_doc w; output_doc := output_doc w;
     reporter := reporter w; invocations := invocations w;
     yields := S (yields w) |}.

Definition after_cycle (total_pages page_num : nat) (q : Page) (w : World St) : World St :=
  yielded (notified total_pages page_num (appended q w)).

Fixpoint after_cycles (total_pages page_num : nat) (qs : list Page) (w : World St)
  : World St :=
  match qs with
  | [] => w
  | q :: rest =>
      after_cycles total_pages (S page_num) rest (after_cycle total_pages page_num q w)
  end.

(** The events a callback sees over pages [page_num], [page_num + 1], ... *)
Definition events_from (total_pages page_num count : nat) : list ProgressEvent :=
  match progress_callback self with
  | Some _ => map (event_at total_pages) (seq page_num count)
  | None => []
  end.

(** Both handles bound and still open, on the given documents. *)
Definition opened (ps out : list Page) (w : World St) : Prop :=
  pdf_doc w = Some {| pages := ps; is_closed := false |} /\
  output_doc w = Some {| pages := out; is_closed := false |}.
End Effects.

(** ** Cancellation of the task that runs [process_pdf]

    A task can be cancelled while it is suspended in an [await]; the
    cancellation is raised there as [asyncio.CancelledError], which derives
    from [BaseException] and not from [Exception]. [process_pdf] awaits in
    two places. A cancellation raised while the callback is awaited is
    caught by the bare [except:] around that call with everything else the
    callback raises, so [report_progress] covers it. A cancellation raised
    by [asyncio.sleep(0)] passes the [except Exception] of [process_pdf] and
    leaves the function. [process_pdf] above is the run of a task that is
    not cancelled at a [sleep]; here is the run of one that can be. *)

Module Cancellable.

Inductive outcome (A : Type) :=
| Returned (a : A)
| Raised (e : exn)
| Cancelled.
Arguments Returned {A} a.
Arguments Raised {A} e.
Arguments Cancelled {A}.

Definition C (St A : Type) : Type := World St -> outcome A * World St.

Section Run.
Context {St : Type}.

Definition ret {A} (a : A) : C St A := fun w => (Returned a, w).

Definition bind {A B} (m : C St A) (k : A -> C St B) : C St B :=
  fun w =>
    match m w with
    | (Returned a, w') => k a w'
    | (Raised e, w') => (Raised e, w')
    | (Cancelled, w') => (Cancelled, w')
    end.

(** A step that cannot be cancelled: it returns or raises an [Exception]. *)
Definition run {A} (m : M St A) : C St A :=
  fun w =>
    match m w with
    | (Ok a, w') => (Returned a, w')
    | (Raise e, w') => (Raised e, w')
    end.

(** [try: body except Exception as e: handler]. *)
Definition try_except_Exception {A} (body : C St A) (handler : exn -> C St A) : C St A :=
  fun w =>
    match body w with
    | (Returned a, w') => (Returned a, w')
    | (Raised e, w') => handler e w'
    | (Cancelled, w') => (Cancelled, w')
    end.

Fixpoint for_each (range : list nat) (body : nat -> C St unit) : C St unit :=
  match range with
  | [] => ret tt
  | i :: rest => bind (body i) (fun _ => for_each rest body)
  end.

(** [cancel k] tells whether the task has been cancelled when it resumes
    from the [asyncio.sleep(0)] that comes after [k] earlier ones. *)
Variable cancel : nat -> bool.

(** [await asyncio.sleep(0)]. *)
Definition asyncio_sleep_0 : C St unit :=
  fun w => (if cancel (yields w) then Cancelled else Returned tt, yielded w).
End Run.

Declare Scope cancellable_scope.
Delimit Scope cancellable_scope with cancellable.
Notation "x <- m ;; k" := (bind m (fun x => k))
  (at level 100, m at next level, right associativity) : cancellable_scope.
Notation "m ;; k" := (bind m (fun _ => k))
  (at level 100, right associativity) : cancellable_scope.

Section Pipeline.
Context {St : Type}.
Variable lib : Library.
Variable self : PDFCorruptor St.
Variable cancel : nat -> bool.

Definition page_cycle (total_pages page_num : nat) : C St unit :=
  (page <- run (pdf_doc_getitem page_num) ;;
   pix <- run (lift (get_pixmap lib page (zoom self))) ;;
   image <- run (lift (Image_frombytes lib (pix_width pix) (pix_height pix) (samples pix))) ;;
   processed_image <- run (lift (process_page lib self page_num image)) ;;
   img_bytes <- run (lift (jpeg_save lib processed_image (quality self))) ;;
   run (new_page (pix_width pix) (pix_height pix)) ;;
   run (insert_image_new_page lib (0, 0, pix_width pix, pix_height pix) img_bytes) ;;
   run (report_progress self page_num total_pages) ;;
   asyncio_sleep_0 cancel)%cancellable.

Definition process_pdf (pdf_path output_path : string) : C St (bool * Z) :=
  try_except_Exception
    (run (fitz_open pdf_path) ;;
     run fitz_open_new ;;
     total_pages <- run len_pdf_doc ;;
     for_each (seq 0 total_pages) (page_cycle total_pages) ;;
     run (save lib output_path) ;;
     pages_count <- run len_pdf_doc ;;
     run close_pdf_doc ;;
     run close_output_doc ;;
     ret (true, Z.of_nat pages_count))%cancellable
    (fun _ => ret (false, 0)).
End Pipeline.
End Cancellable.

(** ** Concrete libraries, documents and callbacks *)

Module Demo.

Definition a4 : Page :=
  {| page_width := 595; page_height := 842; content := Vector [] |}.

Definition pixels : Image := {| width := 1; height := 1; data := [0; 128; 255] |}.

(** Draws far outside the channel range, of both signs: [2 ^ 1030], which
    is beyond every binary64 number, and [- 14285.75]. *)
Definition wild_draws (i : nat) : Draw :=
  if Nat.even i then (1, 1030) else (-57143, -2).

Definition lib : Library :=
  {| get_pixmap := fun p _ =>
       Ok {| pix_width := page_width p; pix_height := page_height p; samples := [] |};
     insert_image := fun _ _ => Ok tt;
     doc_save := fun _ _ => Ok tt;
     doc_save_partial := fun _ _ => None;
     Image_frombytes := fun w h _ => Ok {| width := w; height := h; data := [0; 128; 255] |};
     GaussianBlur := fun _ image => Ok image;
     jpeg_save := fun _ _ => Ok [];
     warpAffine := fun _ _ image => Ok image;
     random_normal := fun _ _ _ => Ok wild_draws |}.

(** A library whose draws all equal one half. *)
Definition lib_quiet : Library :=
  {| get_pixmap := get_pixmap lib;
     insert_image := insert_image lib;
     doc_save := doc_save lib;
     doc_save_partial := doc_save_partial lib;
     Image_frombytes := Image_frombytes lib;
     GaussianBlur := GaussianBlur lib;
     jpeg_save := jpeg_save lib;
     warpAffine := warpAffine lib;
     random_normal := fun _ _ _ => Ok (fun _ => (1, -1)) |}.

(** A library whose [get_pixmap] raises. *)
Definition lib_no_render : Library :=
  {| get_pixmap := fun _ _ => Raise (RuntimeError "cannot render page");
     insert_image := insert_image lib;
     doc_save := doc_save lib;
     doc_save_partial := doc_save_partial lib;
     Image_frombytes := Image_frombytes lib;
     GaussianBlur := GaussianBlur lib;
     jpeg_save := jpeg_save lib;
     warpAffine := warpAffine lib;
     random_normal := random_normal lib |}.

(** A library whose [save] raises. *)
Definition lib_no_save : Library :=
  {| get_pixmap := get_pixmap lib;
     insert_image := insert_image lib;
     doc_save := fun _ _ => Raise (RuntimeError "cannot write file");
     doc_save_partial := doc_save_partial lib;
     Image_frombytes := Image_frombytes lib;
     GaussianBlur := GaussianBlur lib;
     jpeg_save := jpeg_save lib;
     warpAffine := warpAffine lib;
     random_normal := random_normal lib |}.

(** A library whose [save] raises after it has begun to write. *)
Definition lib_partial_save : Library :=
  {| get_pixmap := get_pixmap lib;
     insert_image := insert_image lib;
     doc_save := fun _ _ => Raise (RuntimeError "disk full");
     doc_save_partial := fun _ _ => Some (Garbage [Byte.x25; Byte.x50; Byte.x44; Byte.x46]);
     Image_frombytes := Image_frombytes lib;
     GaussianBlur := GaussianBlur lib;
     jpeg_save := jpeg_save lib;
     warpAffine := warpAffine lib;
     random_normal := random_normal lib |}.

(** A library whose [save] refuses a document without pages. *)
Definition lib_no_empty_save : Library :=
  {| get_pixmap := get_pixmap lib;
     insert_image := insert_image lib;
     doc_save := fun ps _ =>
       match ps with
       | [] => Raise ValueError
       | _ => Ok tt
       end;
     doc_save_partial := doc_save_partial lib;
     Image_frombytes := Image_frombytes lib;
     GaussianBlur := GaussianBlur lib;
     jpeg_save := jpeg_save lib;
     warpAffine := warpAffine lib;
     random_normal := random_normal lib |}.

Definition storage : gmap string Blob :=
  <["one.pdf" := PdfFile [a4]]>
    (<["three.pdf" := PdfFile [a4; a4; a4]]>
       (<["five.pdf" := PdfFile [a4; a4; a4; a4; a4]]>
          (<["empty.pdf" := PdfFile []]>
             (<["junk.pdf" := Garbage []]>
                (<["out.pdf" := Garbage []]> ∅))))).

(** A callback that raises on every invocation. *)
Definition throwing : Callback unit :=
  fun _ _ _ s => (Raise (RuntimeError "reporter failed"), s).

(** A callback that counts its invocations. *)
Definition counting : Callback nat :=
  fun _ _ _ n => (Ok tt, S n).

Definition corruptor {St} (cb : option (Callback St)) : PDFCorruptor St :=
  {| blur_amount := 5; skew_amount := 10; noise_amount := 20; quality := 40;
     dpi := 100; progress_callback := cb |}.

Definition plain {St} (cb : option (Callback St)) : PDFCorruptor St :=
  {| blur_amount := 0; skew_amount := 0; noise_amount := 0; quality := 50;
     dpi := 150; progress_callback := cb |}.

(** A page that cannot be rendered by [lib_picky]. *)
Definition broken : Page :=
  {| page_width := 0; page_height := 0; content := Vector [] |}.

(** A library whose [get_pixmap] raises on a page without width. *)
Definition lib_picky : Library :=
  {| get_pixmap := fun p z =>
       if page_width p =? 0 then Raise (RuntimeError "cannot render page")
       else get_pixmap lib p z;
     insert_image := insert_image lib;
     doc_save := doc_save lib;
     doc_save_partial := doc_save_partial lib;
     Image_frombytes := Image_frombytes lib;
     GaussianBlur := GaussianBlur lib;
     jpeg_save := jpeg_save lib;
     warpAffine := warpAffine lib;
     random_normal := random_normal lib |}.

Definition storage_with_broken : gmap string Blob :=
  <["broken.pdf" := PdfFile [a4; a4; broken; a4]]> storage.

End Demo.

(** ** The processing history and [get_user_stats] *)

Module History.

(** A row of table [processing_history]; the [id] column is the position in
    the list, rows being kept in the order of insertion. *)
Record Entry := {
  user_id : Z;
  original_filename : string;
  output_filename : string;
  original_size : Z;
  output_size : Z;
  pages_count : Z;
  blur : Z;
  skew : Z;
  noise : Z;
  quality : Z;
  dpi : Z;
  created_at : string
}.

Record Stats := {
  total_files : Z;
  total_pages : Z;
  avg_size : Z;
  last_processed : option string
}.

(** [Database.save_history]: one [INSERT]; [now] is the value the database
    gives [CURRENT_TIMESTAMP]. *)
Definition save_history (now : string) (user : Z) (original output : string)
    (original_size output_size pages_count blur skew noise quality dpi : Z)
    (ledger : list Entry) : list Entry :=
  ledger ++
  [{| user_id := user; original_filename := original; output_filename := output;
      original_size := original_size; output_size := output_size;
      pages_count := pages_count; blur := blur; skew := skew; noise := noise;
      quality := quality; dpi := dpi; created_at := now |}].

(** The rows [WHERE user_id = ?] selects. *)
Definition rows_of (user : Z) (ledger : list Entry) : list Entry :=
  List.filter (fun e => user_id e =? user) ledger.

(** [SUM(pages_count)]: [NULL] over no rows. *)
Definition sql_sum (rows : list Entry) : option Z :=
  match rows with
  | [] => None
  | _ => Some (fold_right (fun e acc => pages_count e + acc) 0 rows)
  end.

Section Stats.
(** [AVG(output_size)] and [MAX(created_at)] over at least one row, as the
    database computes them. *)
Variable sql_avg : list Z -> float.
Variable sql_max : list string -> string.

(** [x or 0] on an integer or [None]. *)
Definition or_zero (x : option Z) : Z :=
  match x with
  | Some v => v
  | None => 0
  end.

(** Truthiness of a float: zero is false. *)
Definition float_truthy (x : float) : bool :=
  match x with
  | S754_zero _ => false
  | _ => true
  end.

(** [Database.get_user_stats]. *)
Definition get_user_stats (user : Z) (ledger : list Entry) : result Stats :=
  let rows := rows_of user ledger in
  let count := Z.of_nat (length rows) in
  let sum := sql_sum rows in
  let avg := match rows with
             | [] => None
             | _ => Some (sql_avg (map output_size rows))
             end in
  let last := match rows with
              | [] => None
              | _ => Some (sql_max (map created_at rows))
              end in
  (avg_size <- match avg with
               | Some a => if float_truthy a then int_of_float a else Ok 0
               | None => Ok 0
               end ;;
   Ok {| total_files := count;
         total_pages := or_zero sum;
         avg_size := avg_size;
         last_processed := last |})%result.
End Stats.

End History.

(** ** More of Python's arithmetic, for the handlers *)

(** [a / b] on integers in full: [OverflowError] when the rounded quotient
    is too large for a float. *)
Definition int_truediv_checked (a b : Z) : result float :=
  (q <- int_truediv a b ;;
   match q with
   | S754_infinity _ => Raise OverflowError
   | _ => Ok q
   end)%result.

(** [x / n] for a float [x] and a non-zero integer literal [n]. *)
Definition float_div_int (x : float) (n : Z) : float :=
  SFdiv prec emax x (float_of_int n).

(** [x > n] for a float [x] and an integer literal [n]. *)
Definition float_gt_int (x : float) (n : Z) : bool :=
  match SFcompare x (float_of_int n) with
  | Some Gt => true
  | _ => false
  end.

(** [size / 1024 / 1024]. *)
Definition megabytes (size : Z) : result float :=
  (kb <- int_truediv_checked size 1024 ;;
   Ok (float_div_int kb 1024))%result.

(** [s.endswith(suffix)]. *)
Definition endswith (s suffix : string) : bool :=
  let n := String.length s in
  let m := String.length suffix in
  if (m <=? n)%nat then String.eqb (String.substring (n - m) m s) suffix else false.

(** ** [process_pdf_file]: the caller of the pipeline *)

Module Bot.

(** What is written into the progress message or sent after it. *)
Inductive Text :=
| progress_text (msg : Reporter.Message)
| uploading_text
| failed_text
| error_text (e : exn).

(** [(1 - output_size / original_size) * 100], or the integer 0 when the
    original size is not positive. *)
Inductive Ratio :=
| ratio_float (x : float)
| ratio_zero.

(** What the caption shows: both sizes in megabytes, whether the ratio is
    positive, its absolute value, the page count and the settings. *)
Record Caption := {
  cap_original_mb : float;
  cap_output_mb : float;
  cap_shrunk : bool;
  cap_ratio : Ratio;
  cap_pages : Z;
  cap_settings : Settings.Row
}.

Inductive ChatAction :=
| edited (t : Text)
| replied_document (contents : Blob) (filename : string) (caption : Caption)
| deleted.

(** The calls on [progress_msg], [tempfile.mkstemp], [os.path.getsize] and
    the clocks. [mkstemp] names the path it creates given the storage. *)
Record Transport := {
  edit_text : Text -> result unit;
  reply_document : Blob -> string -> Caption -> result unit;
  delete : result unit;
  mkstemp : gmap string Blob -> string;
  getsize : Blob -> Z;
  time_time : nat -> Q;
  current_timestamp : string
}.

(** The entries of [context.user_data] that [process_pdf_file] reads. *)
Record UserData := {
  pdf_path : string;
  filename : option string;
  file_size : option Z
}.

Record State := {
  storage : gmap string Blob;
  table : gmap Z Settings.Row;
  ledger : list History.Entry;
  chat : list ChatAction;
  progress : Reporter.State
}.

Definition with_chat (a : ChatAction) (s : State) : State :=
  {| storage := storage s; table := table s; ledger := ledger s;
     chat := chat s ++ [a]; progress := progress s |}.

Definition with_storage (fs : gmap string Blob) (s : State) : State :=
  {| storage := fs; table := table s; ledger := ledger s;
     chat := chat s; progress := progress s |}.

(** [if os.path.exists(path): os.unlink(path)]. *)
Definition unlink_if_exists (path : string) (s : State) : State :=
  match storage s !! path with
  | Some _ => with_storage (base.delete path (storage s)) s
  | None => s
  end.

Section Caller.
Variable lib : Library.
Variable T : Transport.

(** [PDFCorruptor(blur=settings['blur'], ..., progress_callback=...)]. *)
Definition corruptor_of (settings : Settings.Row) : PDFCorruptor Reporter.State :=
  {| blur_amount := Settings.blur settings;
     skew_amount := Settings.skew settings;
     noise_amount := Settings.noise settings;
     quality := Settings.quality settings;
     dpi := Settings.dpi settings;
     progress_callback :=
       Some (Reporter.progress_callback (time_time T)
               (fun msg => edit_text T (progress_text msg))) |}.

(** [(1 - output_size / original_size) * 100 if original_size > 0 else 0]. *)
Definition compression_ratio (output_size original_size : Z) : result Ratio :=
  if 0 <? original_size then
    (q <- int_truediv_checked output_size original_size ;;
     Ok (ratio_float
           (float_mul_int (SFsub prec emax (float_of_int 1) q) 100)))%result
  else Ok ratio_zero.

(** [compression_ratio > 0] and [abs(compression_ratio)]. *)
Definition ratio_positive (r : Ratio) : bool :=
  match r with
  | ratio_float x => float_gt_int x 0
  | ratio_zero => false
  end.

Definition ratio_abs (r : Ratio) : Ratio :=
  match r with
  | ratio_float x => ratio_float (SFabs x)
  | ratio_zero => ratio_zero
  end.

(** The ratio and the values the caption formats, in the order in which
    they are computed. *)
Definition caption_of (original_size output_size pages_count : Z)
    (settings : Settings.Row) : result Caption :=
  (ratio <- compression_ratio output_size original_size ;;
   original_mb <- megabytes original_size ;;
   output_mb <- megabytes output_size ;;
   Ok {| cap_original_mb := original_mb;
         cap_output_mb := output_mb;
         cap_shrunk := ratio_positive ratio;
         cap_ratio := ratio_abs ratio;
         cap_pages := pages_count;
         cap_settings := settings |})%result.

(** The body of the [try] block once the pipeline has returned. *)
Definition deliver (user_id : Z) (ud : UserData) (settings : Settings.Row)
    (output_path : string) (success : bool) (pages_count : Z) (s : State)
  : result unit * State :=
  let original_filename := default "document.pdf" (filename ud) in
  let original_size := default 0 (file_size ud) in
  let cleanup (s : State) : result unit * State :=
    (Ok tt, unlink_if_exists (pdf_path ud) (unlink_if_exists output_path s)) in
  if success then
    match storage s !! output_path with
    | None => (Raise FileNotFoundError, s)
    | Some contents =>
        let output_size := getsize T contents in
        let output_filename :=
          (Settings.filename_prefix settings ++ original_filename)%string in
        let announce : result unit * State :=
          if 10 * 1024 * 1024 <? output_size then
            (edit_text T uploading_text, with_chat (edited uploading_text) s)
          else (Ok tt, s) in
        match announce with
        | (Raise e, s) => (Raise e, s)
        | (Ok _, s) =>
            match caption_of original_size output_size pages_count settings with
            | Raise e => (Raise e, s)
            | Ok caption =>
                let s := with_chat (replied_document contents output_filename caption) s in
                match reply_document T contents output_filename caption with
                | Raise e => (Raise e, s)
                | Ok _ =>
                    let s := with_chat deleted s in
                    match delete T with
                    | Raise e => (Raise e, s)
                    | Ok _ =>
                        cleanup
                          {| storage := storage s; table := table s;
                             ledger :=
                               History.save_history (current_timestamp T) user_id
                                 original_filename output_filename original_size
                                 output_size pages_count (Settings.blur settings)
                                 (Settings.skew settings) (Settings.noise settings)
                                 (Settings.quality settings) (Settings.dpi settings)
                                 (ledger s);
                             chat := chat s; progress := progress s |}
                    end
                end
            end
        end
    end
  else
    let s := with_chat (edited failed_text) s in
    match edit_text T failed_text with
    | Raise e => (Raise e, s)
    | Ok _ => cleanup s
    end.

(** [process_pdf_file]: what the handler returns (an error of the last
    [edit_text] escapes it) and the state it leaves. *)
Definition process_pdf_file (user_id : Z) (ud : UserData) (s : State)
  : result unit * State :=
  let attempt : result unit * State :=
    let '(settings, table') := Settings.get_settings user_id (table s) in
    let corrupted := corruptor_of settings in
    let output_path := mkstemp T (storage s) in
    let fs := <[output_path := Garbage []]> (storage s) in
    let '(r, w) := process_pdf lib corrupted (pdf_path ud) output_path
                     (initial_world fs Reporter.initial) in
    let s := {| storage := files w; table := table'; ledger := ledger s;
                chat := chat s; progress := reporter w |} in
    match r with
    | Raise e => (Raise e, s)
    | Ok (success, pages_count) =>
        deliver user_id ud settings output_path success pages_count s
    end in
  match attempt with
  | (Ok u, s) => (Ok u, s)
  | (Raise e, s) =>
      (edit_text T (error_text e), with_chat (edited (error_text e)) s)
  end.
End Caller.

(** A transport on which no call on [progress_msg] fails. *)
Definition reliable (T : Transport) : Prop :=
  (forall t, edit_text T t = Ok tt) /\
  (forall contents name caption, reply_document T contents name caption = Ok tt) /\
  delete T = Ok tt.

(** A size in bytes that a file can have. *)
Definition plausible_size (size : Z) : Prop := 0 <= size < 2 ^ 63.

(** The settings, the output path and the entries of the user data of a
    call. *)
Definition settings_of (user_id : Z) (s : State) : Settings.Row :=
  fst (Settings.get_settings user_id (table s)).

Definition output_path_of (T : Transport) (s : State) : string :=
  mkstemp T (storage s).

Definition original_filename_of (ud : UserData) : string :=
  default "document.pdf" (filename ud).

Definition original_size_of (ud : UserData) : Z :=
  default 0 (file_size ud).

End Bot.

(** ** [handle_pdf]: the upload of a document *)

Module Upload.

Definition MAX_FILE_SIZE_MB : Z := 50.

(** [update.message.document]. *)
Record Document := {
  file_name : string;
  file_size : Z
}.

(** The entries of [context.user_data] that [handle_pdf] writes; [None]
    is a missing key. *)
Record UserData := {
  ud_pdf_path : option string;
  ud_filename : option string;
  ud_file_size : option Z
}.

(** What [update.message.reply_text] is called with. *)
Inductive Notice :=
| not_a_pdf
| too_big (file_size_mb : float)
| downloading (file_size_mb : float)
| download_timed_out
| download_failed (e : exn)
| settings_menu (settings : Settings.Row) (filename : string) (file_size_mb : float).

Inductive Sent :=
| replied (n : Notice)
| status_deleted.

(** How [asyncio.wait_for(file.download_as_bytearray(), ...)] ends. *)
Inductive Download :=
| downloaded (contents : Blob)
| timed_out
| failed (e : exn).

(** The calls on the update and the file system; [NamedTemporaryFile]
    names the file it creates given the storage. *)
Record Transport := {
  get_file : result unit;
  lower : string -> string;
  reply_text : Notice -> result unit;
  delete : result unit;
  NamedTemporaryFile : gmap string Blob -> result string;
  download_as_bytearray : Download
}.

Record State := {
  storage : gmap string Blob;
  table : gmap Z Settings.Row;
  user_data : UserData;
  sent : list Sent
}.

Definition with_sent (a : Sent) (s : State) : State :=
  {| storage := storage s; table := table s; user_data := user_data s;
     sent := sent s ++ [a] |}.

Definition with_storage (fs : gmap string Blob) (s : State) : State :=
  {| storage := fs; table := table s; user_data := user_data s; sent := sent s |}.

Definition with_table (t : gmap Z Settings.Row) (s : State) : State :=
  {| storage := storage s; table := t; user_data := user_data s; sent := sent s |}.

Definition with_user_data (ud : UserData) (s : State) : State :=
  {| storage := storage s; table := table s; user_data := ud; sent := sent s |}.

(** How the [try] block ends. *)
Inductive Outcome :=
| finished
| timeout
| raised (e : exn).

Section Handler.
Variable T : Transport.

Definition say (n : Notice) (s : State) : result unit * State :=
  (reply_text T n, with_sent (replied n) s).

(** [if status_msg: await status_msg.delete()]. *)
Definition delete_status (status_msg : bool) (s : State) : result unit * State :=
  if status_msg then (delete T, with_sent status_deleted s) else (Ok tt, s).

(** [show_settings_menu] for an update that is a message. *)
Definition show_settings_menu (settings : Settings.Row) (s : State) : result unit * State :=
  match megabytes (default 0 (ud_file_size (user_data s))) with
  | Raise e => (Raise e, s)
  | Ok file_size_mb =>
      say (settings_menu settings (default "document.pdf" (ud_filename (user_data s)))
             file_size_mb) s
  end.

(** The [try] block: the temporary file exists, empty, from the moment it
    is opened, and [delete=False] keeps it whatever happens next. *)
Definition try_block (status_msg : bool) (user_id : Z) (s : State) : Outcome * State :=
  match NamedTemporaryFile T (storage s) with
  | Raise e => (raised e, s)
  | Ok name =>
      let s := with_storage (<[name := Garbage []]> (storage s)) s in
      match download_as_bytearray T with
      | timed_out => (timeout, s)
      | failed e => (raised e, s)
      | downloaded pdf_bytes =>
          let s := with_storage (<[name := pdf_bytes]> (storage s)) s in
          let s := with_user_data
                     {| ud_pdf_path := Some name;
                        ud_filename := ud_filename (user_data s);
                        ud_file_size := ud_file_size (user_data s) |} s in
          match delete_status status_msg s with
          | (Raise e, s) => (raised e, s)
          | (Ok _, s) =>
              let '(settings, table') := Settings.get_settings user_id (table s) in
              match show_settings_menu settings (with_table table' s) with
              | (Raise e, s) => (raised e, s)
              | (Ok _, s) => (finished, s)
              end
          end
      end
  end.

(** Either [except] branch. *)
Definition on_error (status_msg : bool) (n : Notice) (s : State) : result unit * State :=
  match delete_status status_msg s with
  | (Raise e, s) => (Raise e, s)
  | (Ok _, s) => say n s
  end.

(** [handle_pdf] from the point where both checks have passed;
    [status_msg] tells whether [file_size_mb > 10]. *)
Definition after_checks (status_msg : bool) (user_id : Z) (document : Document)
    (file_size_mb : float) (s : State) : result unit * State :=
  let s := with_user_data
             {| ud_pdf_path := ud_pdf_path (user_data s);
                ud_filename := Some (file_name document);
                ud_file_size := Some (file_size document) |} s in
  match (if status_msg then say (downloading file_size_mb) s else (Ok tt, s)) with
  | (Raise e, s) => (Raise e, s)
  | (Ok _, s) =>
      match try_block status_msg user_id s with
      | (finished, s) => (Ok tt, s)
      | (timeout, s) => on_error status_msg download_timed_out s
      | (raised e, s) => on_error status_msg (download_failed e) s
      end
  end.

Definition handle_pdf (user_id : Z) (document : Document) (s : State)
  : result unit * State :=
  match get_file T with
  | Raise e => (Raise e, s)
  | Ok _ =>
      if negb (endswith (lower T (file_name document)) ".pdf") then say not_a_pdf s
      else
        match megabytes (file_size document) with
        | Raise e => (Raise e, s)
        | Ok file_size_mb =>
            if float_gt_int file_size_mb MAX_FILE_SIZE_MB then say (too_big file_size_mb) s
            else after_checks (float_gt_int file_size_mb 10) user_id document file_size_mb s
        end
  end.
End Handler.

(** The user data as [process_pdf_file] reads it, once an upload is
    there. *)
Definition for_processing (ud : UserData) : option Bot.UserData :=
  match ud_pdf_path ud with
  | Some path =>
      Some {| Bot.pdf_path := path; Bot.filename := ud_filename ud;
              Bot.file_size := ud_file_size ud |}
  | None => None
  end.

End Upload.

(** ** Concrete transports, documents and sessions *)

Module DemoBot.

(** What the pipeline makes of [Demo.a4] with [Demo.lib]. *)
Definition scanned : Page :=
  {| page_width := 595; page_height := 842;
     content := FullImage (0, 0, 595, 842) [] |}.

(** Twenty million bytes a page, up to a terabyte. *)
Definition size_of (b : Blob) : Z :=
  match b with
  | PdfFile ps => Z.min 1000000000000 (20000000 * Z.of_nat (length ps))
  | Garbage raw => Z.min 1000000000000 (Z.of_nat (length raw))
  end.

Definition transport : Bot.Transport :=
  {| Bot.edit_text := fun _ => Ok tt;
     Bot.reply_document := fun _ _ _ => Ok tt;
     Bot.delete := Ok tt;
     Bot.mkstemp := fun _ => "tmp0.pdf";
     Bot.getsize := size_of;
     Bot.time_time := fun n => inject_Z (Z.of_nat n);
     Bot.current_timestamp := "2026-01-01 00:00:00" |}.

(** A transport whose [reply_document] raises. *)
Definition transport_no_upload : Bot.Transport :=
  {| Bot.edit_text := Bot.edit_text transport;
     Bot.reply_document := fun _ _ _ => Raise (RuntimeError "timed out");
     Bot.delete := Bot.delete transport;
     Bot.mkstemp := Bot.mkstemp transport;
     Bot.getsize := Bot.getsize transport;
     Bot.time_time := Bot.time_time transport;
     Bot.current_timestamp := Bot.current_timestamp transport |}.

Definition user_data (path : string) : Bot.UserData :=
  {| Bot.pdf_path := path; Bot.filename := Some "scan.pdf"; Bot.file_size := Some 4096 |}.

Definition state : Bot.State :=
  {| Bot.storage := Demo.storage; Bot.table := ∅; Bot.ledger := []; Bot.chat := [];
     Bot.progress := Reporter.initial |}.

(** [str.lower] on ASCII letters. *)
Definition lower_char (c : Ascii.ascii) : Ascii.ascii :=
  let n := Ascii.nat_of_ascii c in
  if ((65 <=? n) && (n <=? 90))%nat then Ascii.ascii_of_nat (n + 32) else c.

Fixpoint lower (s : string) : string :=
  match s with
  | EmptyString => EmptyString
  | String c rest => String (lower_char c) (lower rest)
  end.

Definition upload : Upload.Transport :=
  {| Upload.get_file := Ok tt;
     Upload.lower := lower;
     Upload.reply_text := fun _ => Ok tt;
     Upload.delete := Ok tt;
     Upload.NamedTemporaryFile := fun _ => Ok "upload0.pdf";
     Upload.download_as_bytearray := Upload.downloaded (PdfFile [Demo.a4; Demo.a4; Demo.a4]) |}.

(** A transport whose download times out. *)
Definition upload_slow : Upload.Transport :=
  {| Upload.get_file := Upload.get_file upload;
     Upload.lower := Upload.lower upload;
     Upload.reply_text := Upload.reply_text upload;
     Upload.delete := Upload.delete upload;
     Upload.NamedTemporaryFile := Upload.NamedTemporaryFile upload;
     Upload.download_as_bytearray := Upload.timed_out |}.

Definition document (size : Z) : Upload.Document :=
  {| Upload.file_name := "Scan.PDF"; Upload.file_size := size |}.

(** A session in which an earlier upload is still recorded. *)
Definition session : Upload.State :=
  {| Upload.storage := Demo.storage; Upload.table := ∅;
     Upload.user_data :=
       {| Upload.ud_pdf_path := Some "one.pdf"; Upload.ud_filename := Some "one.pdf";
          Upload.ud_file_size := Some 1024 |};
     Upload.sent := [] |}.

End DemoBot.

(** * Properties *)

(** ** binary64: division of an integer by itself, and rounding bounds *)

Example truediv_29_100 :
  rbind (int_truediv 29 100) (fun q => int_of_float (float_mul_int q 100)) = Ok 28.
Proof. vm_compute. reflexivity. Qed.

Example truediv_1_3 :
  rbind (int_truediv 1 3) (fun q => int_of_float (float_mul_int q 100)) = Ok 33.
Proof. vm_compute. reflexivity. Qed.

Lemma div_eucl_shift_self (p : positive) (k : Z) :
  0 <= k -> Z.div_eucl (Z.shiftl (Zpos p) k) (Zpos p) = (2 ^ k, 0).
Proof.
  intros Hk. rewrite Z.shiftl_mul_pow2 by exact Hk.
  pose proof (Z_div_mod (Zpos p * 2 ^ k) (Zpos p) eq_refl) as H.
  destruct (Z.div_eucl (Zpos p * 2 ^ k) (Zpos p)) as [q r].
  destruct H as [Heq Hr].
  assert (Hq : q = 2 ^ k) by nia.
  subst q. f_equal. lia.
Qed.

Lemma new_location_zero (n : Z) : new_location n 0 = loc_Exact.
Proof.
  unfold new_location, new_location_even, new_location_odd.
  destruct (Z.even n); reflexivity.
Qed.

Lemma int_truediv_self (p : positive) : int_truediv (Zpos p) (Zpos p) = Ok one_float.
Proof.
  unfold int_truediv. simpl Z.eqb. cbv iota.
  unfold exact_int, SFdiv, SFdiv_core_binary.
  replace (Zdigits2 (Zpos p) + 0 - (Zdigits2 (Zpos p) + 0)) with 0 by lia.
  change (Z.min (fexp prec emax 0) (0 - 0)) with (-53).
  change (0 - 0 - -53) with 53.
  cbv iota.
  rewrite (div_eucl_shift_self p 53) by lia.
  rewrite new_location_zero.
  vm_compute. reflexivity.
Qed.

Lemma digits2_pos_bounds (p : positive) :
  2 ^ (Zpos (digits2_pos p) - 1) <= Zpos p < 2 ^ Zpos (digits2_pos p).
Proof.
  induction p as [p IH | p IH | ]; cbn [digits2_pos].
  - rewrite Pos2Z.inj_succ.
    replace (Z.succ (Zpos (digits2_pos p)) - 1) with (Z.succ (Zpos (digits2_pos p) - 1)) by lia.
    rewrite !Z.pow_succ_r by lia. lia.
  - rewrite Pos2Z.inj_succ.
    replace (Z.succ (Zpos (digits2_pos p)) - 1) with (Z.succ (Zpos (digits2_pos p) - 1)) by lia.
    rewrite !Z.pow_succ_r by lia. lia.
  - cbn. lia.
Qed.

Lemma Zdigits2_le (m k : Z) : 0 <= m -> 0 <= k -> m < 2 ^ k -> Zdigits2 m <= k.
Proof.
  intros Hm Hk Hlt. destruct m as [| p | p]; cbn [Zdigits2]; try lia.
  destruct (digits2_pos_bounds p) as [Hlo _].
  destruct (Z.le_gt_cases (Zpos (digits2_pos p)) k) as [H | H]; [exact H |].
  assert (2 ^ k <= 2 ^ (Zpos (digits2_pos p) - 1)) by (apply Z.pow_le_mono_r; lia).
  lia.
Qed.

Lemma Zdigits2_nonneg (m : Z) : 0 <= Zdigits2 m.
Proof. destruct m; cbn; lia. Qed.

Lemma Zdigits2_lt_pow (m : Z) : 0 <= m -> m < 2 ^ Zdigits2 m.
Proof.
  intros Hm. destruct m as [| p | p]; cbn [Zdigits2]; try lia.
  apply digits2_pos_bounds.
Qed.

(** One step of [shr] halves the mantissa. *)
Lemma shr_1_m (mrs : shr_record) :
  0 <= shr_m mrs -> shr_m (shr_1 mrs) = shr_m mrs / 2.
Proof.
  destruct mrs as [m r s]. cbn [shr_m]. intros Hm.
  destruct m as [| [p | p |] | p]; cbn [shr_1 shr_m]; try lia.
  - reflexivity.
  - apply Z.div_unique with (r := 1); lia.
  - apply Z.div_unique with (r := 0); lia.
  - reflexivity.
Qed.

Lemma pow2_xI (n : positive) : 2 ^ Zpos n~1 = 2 * 2 ^ Zpos n * 2 ^ Zpos n.
Proof.
  rewrite (Pos2Z.inj_xI n).
  replace (2 * Zpos n + 1) with (Z.succ (Zpos n + Zpos n)) by lia.
  rewrite Z.pow_succ_r, Z.pow_add_r by lia. ring.
Qed.

Lemma pow2_xO (n : positive) : 2 ^ Zpos n~0 = 2 ^ Zpos n * 2 ^ Zpos n.
Proof.
  rewrite (Pos2Z.inj_xO n).
  replace (2 * Zpos n) with (Zpos n + Zpos n) by lia.
  rewrite Z.pow_add_r by lia. reflexivity.
Qed.

Lemma iter_shr_1_m (n : positive) :
  forall mrs, 0 <= shr_m mrs ->
    shr_m (SpecFloat.iter_pos shr_1 n mrs) = shr_m mrs / 2 ^ Zpos n.
Proof.
  induction n as [n IH | n IH |]; intros mrs Hm; cbn [SpecFloat.iter_pos].
  - assert (Hp : 0 < 2 ^ Zpos n) by (apply Z.pow_pos_nonneg; lia).
    assert (H1 : 0 <= shr_m (shr_1 mrs)).
    { rewrite shr_1_m by exact Hm. apply Z.div_pos; lia. }
    assert (H2 : 0 <= shr_m (SpecFloat.iter_pos shr_1 n (shr_1 mrs))).
    { rewrite IH by exact H1. apply Z.div_pos; lia. }
    rewrite IH by exact H2. rewrite IH by exact H1. rewrite shr_1_m by exact Hm.
    rewrite pow2_xI.
    rewrite Z.div_div by lia. rewrite Z.div_div by nia.
    f_equal. ring.
  - assert (Hp : 0 < 2 ^ Zpos n) by (apply Z.pow_pos_nonneg; lia).
    assert (H2 : 0 <= shr_m (SpecFloat.iter_pos shr_1 n mrs)).
    { rewrite IH by exact Hm. apply Z.div_pos; lia. }
    rewrite IH by exact H2. rewrite IH by exact Hm.
    rewrite pow2_xO.
    rewrite Z.div_div by lia.
    reflexivity.
  - rewrite shr_1_m by exact Hm. rewrite Z.pow_1_r. reflexivity.
Qed.

Lemma fexp_binary64 (e : Z) : fexp prec emax e = Z.max (e - 53) (-1074).
Proof. reflexivity. Qed.

(** After [shr_fexp] the mantissa fits in 53 bits and the exponent is the
    larger of the old one and the canonical one. *)
Lemma shr_fexp_spec (m e : Z) (l : location) :
  0 <= m ->
  exists mrs e',
    shr_fexp prec emax m e l = (mrs, e') /\
    0 <= shr_m mrs < 2 ^ 53 /\
    shr_m mrs <= m /\
    e' = Z.max e (fexp prec emax (Zdigits2 m + e)).
Proof.
  intros Hm. unfold shr_fexp, shr. rewrite fexp_binary64.
  pose proof (Zdigits2_lt_pow m Hm) as Hd.
  pose proof (Zdigits2_nonneg m) as Hd0.
  assert (Hrec : shr_m (shr_record_of_loc m l) = m)
    by (destruct l as [| []]; reflexivity).
  destruct (Z.max (Zdigits2 m + e - 53) (-1074) - e) as [| n | n] eqn:Hn.
  - eexists _, _. split; [reflexivity |]. rewrite Hrec.
    assert (2 ^ Zdigits2 m <= 2 ^ 53) by (apply Z.pow_le_mono_r; lia).
    lia.
  - eexists _, _. split; [reflexivity |].
    rewrite iter_shr_1_m by (rewrite Hrec; exact Hm). rewrite Hrec.
    assert (Hp : 0 < 2 ^ Zpos n) by (apply Z.pow_pos_nonneg; lia).
    assert (Hle : 2 ^ Zdigits2 m <= 2 ^ Zpos n * 2 ^ 53).
    { rewrite <- Z.pow_add_r by lia. apply Z.pow_le_mono_r; lia. }
    repeat split.
    + apply Z.div_pos; lia.
    + apply Z.div_lt_upper_bound; lia.
    + apply Z.div_le_upper_bound; nia.
    + lia.
  - eexists _, _. split; [reflexivity |]. rewrite Hrec.
    assert (2 ^ Zdigits2 m <= 2 ^ 53) by (apply Z.pow_le_mono_r; lia).
    lia.
Qed.

Lemma round_nearest_even_bounds (m : Z) (l : location) :
  m <= round_nearest_even m l <= m + 1.
Proof.
  destruct l as [| []]; cbn [round_nearest_even]; try lia.
  destruct (Z.even m); lia.
Qed.

(** A rounding that stays below the overflow threshold is [tame]. *)

Lemma binary_round_aux_tame (sx : bool) (mx ex : Z) (lx : location) :
  0 <= mx -> ex <= 970 -> Zdigits2 mx + ex <= 1023 ->
  tame (Z.max ex (fexp prec emax (Zdigits2 mx + ex)) + 1)
       (binary_round_aux prec emax sx mx ex lx).
Proof.
  intros Hm He Hd. unfold binary_round_aux.
  destruct (shr_fexp_spec mx ex lx Hm) as (mrs1 & e1 & -> & Hm1 & _ & He1).
  pose proof (round_nearest_even_bounds (shr_m mrs1) (loc_of_shr_record mrs1)) as Hr.
  set (m1 := round_nearest_even (shr_m mrs1) (loc_of_shr_record mrs1)) in *.
  assert (Hm1' : 0 <= m1) by lia.
  destruct (shr_fexp_spec m1 e1 loc_Exact Hm1') as (mrs2 & e2 & -> & Hm2 & Hle2 & He2).
  assert (Hd1 : Zdigits2 m1 <= 54).
  { apply Zdigits2_le; lia. }
  rewrite fexp_binary64 in He1, He2 |- *.
  destruct (shr_m mrs2) as [| p | p] eqn:Hp; cbn [tame]; try exact I; try lia.
  assert (Hfin : (e2 <=? emax - prec) = true) by (apply Z.leb_le; unfold emax, prec; lia).
  rewrite Hfin. cbn [tame]. lia.
Qed.

Lemma tame_mono (b b' : Z) (x : float) : b <= b' -> tame b x -> tame b' x.
Proof. destruct x; cbn [tame]; intros; lia || tauto. Qed.

Lemma int_of_float_tame (b : Z) (x : float) :
  tame b x -> exists v, int_of_float x = Ok v.
Proof. destruct x; cbn [tame int_of_float]; intros H; try contradiction; eauto. Qed.

(** [a / b] with [0 < a <= b] neither overflows nor is undefined. *)
Lemma int_truediv_tame (a b : positive) :
  Zpos a <= Zpos b ->
  exists q, int_truediv (Zpos a) (Zpos b) = Ok q /\ tame 1 q.
Proof.
  intros Hab. unfold int_truediv. simpl Z.eqb. cbv iota.
  eexists. split; [reflexivity |].
  unfold exact_int, SFdiv, SFdiv_core_binary.
  rewrite fexp_binary64.
  set (e' := Z.min (Z.max (Zdigits2 (Zpos a) + 0 - (Zdigits2 (Zpos b) + 0) - 53) (-1074)) (0 - 0)).
  assert (He' : -1074 <= e' <= 0) by (unfold e'; lia).
  set (m' := match 0 - 0 - e' with
             | 0 => Zpos a
             | Zpos _ => Z.shiftl (Zpos a) (0 - 0 - e')
             | Zneg _ => 0
             end).
  assert (Hm' : m' = Zpos a * 2 ^ (- e')).
  { unfold m'. destruct (0 - 0 - e') as [| s | s] eqn:Hs; try lia.
    - replace (- e') with 0 by lia. cbn. lia.
    - rewrite Z.shiftl_mul_pow2 by lia. f_equal. f_equal. lia. }
  pose proof (Z_div_mod m' (Zpos b) eq_refl) as Hdiv.
  destruct (Z.div_eucl m' (Zpos b)) as [q r]. destruct Hdiv as [Heq Hr].
  assert (Hpow : 0 < 2 ^ (- e')) by (apply Z.pow_pos_nonneg; lia).
  assert (Hq : 0 <= q <= 2 ^ (- e')) by nia.
  assert (Hdq : Zdigits2 q <= 1 - e').
  { apply Zdigits2_le; try lia.
    replace (1 - e') with (Z.succ (- e')) by lia. rewrite Z.pow_succ_r by lia. lia. }
  pose proof (Zdigits2_nonneg q) as Hd0.
  eapply tame_mono; [| apply binary_round_aux_tame; lia].
  rewrite fexp_binary64. lia.
Qed.

Lemma float_of_int_100 : float_of_int 100 = S754_finite false 7036874417766400 (-46).
Proof. vm_compute. reflexivity. Qed.

Lemma float_mul_100_tame (x : float) :
  tame 1 x -> tame 971 (float_mul_int x 100).
Proof.
  unfold float_mul_int. rewrite float_of_int_100.
  destruct x as [s | s | | s m e]; cbn [tame SFmul]; try contradiction; [exact (fun _ => I) |].
  intros [Hm He].
  assert (Hprod : 0 <= Zpos (m * 7036874417766400) < 2 ^ 106).
  { rewrite Pos2Z.inj_mul. change (2 ^ 106) with (2 ^ 53 * 2 ^ 53).
    assert (7036874417766400 < 2 ^ 53) by (cbn; lia). nia. }
  assert (Hd : Zdigits2 (Zpos (m * 7036874417766400)) <= 106)
    by (apply Zdigits2_le; lia).
  eapply tame_mono; [| apply binary_round_aux_tame; lia].
  rewrite fexp_binary64. lia.
Qed.


(** ** binary64: what a rounding returns *)

Lemma Zdigits2_unique (m k : Z) :
  0 < m -> 2 ^ (k - 1) <= m < 2 ^ k -> Zdigits2 m = k.
Proof.
  intros Hm [Hlo Hhi]. destruct m as [| p | p]; try lia. cbn [Zdigits2].
  destruct (digits2_pos_bounds p) as [Hlo' Hhi'].
  set (d := Zpos (digits2_pos p)) in *.
  assert (Hk : 0 < k).
  { destruct (Z.lt_trichotomy k 0) as [Hneg | [H0 | Hpos]]; [| | exact Hpos].
    - rewrite Z.pow_neg_r in Hhi by exact Hneg. lia.
    - subst k. cbn in Hhi. lia. }
  destruct (Z.lt_trichotomy d k) as [Hlt | [Heq | Hgt]]; [| exact Heq |].
  - assert (2 ^ d <= 2 ^ (k - 1)) by (apply Z.pow_le_mono_r; lia). lia.
  - assert (2 ^ k <= 2 ^ (d - 1)) by (apply Z.pow_le_mono_r; lia). lia.
Qed.

Lemma Zdigits2_mul_pow2 (p : positive) (k : Z) :
  0 <= k -> Zdigits2 (Zpos p * 2 ^ k) = Zpos (digits2_pos p) + k.
Proof.
  intros Hk. destruct (digits2_pos_bounds p) as [Hlo Hhi].
  assert (Hp : 0 < 2 ^ k) by (apply Z.pow_pos_nonneg; lia).
  apply Zdigits2_unique; [lia |].
  replace (Zpos (digits2_pos p) + k - 1) with (Zpos (digits2_pos p) - 1 + k) by lia.
  rewrite !Z.pow_add_r by lia. nia.
Qed.

(** [shl_align] lowers the exponent to the smaller of the two and keeps the
    value. *)
Lemma shl_align_spec (mx : positive) (ex ex' : Z) :
  exists mz,
    shl_align mx ex ex' = (mz, Z.min ex ex') /\
    Zpos mz = Zpos mx * 2 ^ (ex - Z.min ex ex').
Proof.
  unfold shl_align. destruct (ex' - ex) as [| d | d] eqn:Hd.
  - exists mx. replace (Z.min ex ex') with ex by lia.
    rewrite Z.sub_diag. split; [reflexivity | cbn; lia].
  - exists mx. replace (Z.min ex ex') with ex by lia.
    rewrite Z.sub_diag. split; [reflexivity | cbn; lia].
  - exists (Pos.iter xO mx d). replace (Z.min ex ex') with ex' by lia.
    split; [reflexivity |].
    change (Pos.iter xO mx d) with (shift_pos d mx).
    rewrite shift_pos_correct. change (Z.pow_pos 2 d) with (2 ^ Zpos d).
    replace (ex - ex') with (Zpos d) by lia. lia.
Qed.

(** [shr] by [n] places divides the mantissa by [2 ^ n]. *)
Lemma shr_spec (m e n : Z) (l : location) :
  0 <= m ->
  exists mrs,
    shr (shr_record_of_loc m l) e n = (mrs, e + Z.max 0 n) /\
    shr_m mrs = m / 2 ^ Z.max 0 n.
Proof.
  intros Hm.
  assert (Hrec : shr_m (shr_record_of_loc m l) = m) by (destruct l as [| []]; reflexivity).
  unfold shr. destruct n as [| p | p].
  - eexists. split; [rewrite Z.add_0_r; reflexivity |]. cbn. rewrite Z.div_1_r. exact Hrec.
  - eexists. split; [reflexivity |].
    rewrite iter_shr_1_m by (rewrite Hrec; exact Hm). rewrite Hrec. reflexivity.
  - eexists. split; [rewrite Z.add_0_r; reflexivity |]. cbn. rewrite Z.div_1_r. exact Hrec.
Qed.

(** The last steps of a rounding, on a mantissa that fits in 53 bits or is
    [2 ^ 53]. *)
Lemma binary_round_last (sx : bool) (m e : Z) :
  0 <= m <= 2 ^ 53 -> -1074 <= e ->
  (let '(mrs, e') := shr_fexp prec emax m e loc_Exact in
   match shr_m mrs with
   | 0 => S754_zero sx
   | Zpos p => if e' <=? emax - prec then S754_finite sx p e' else S754_infinity sx
   | Zneg _ => S754_nan
   end)
  = if m =? 0 then S754_zero sx
    else if m <? 2 ^ 53 then
      if e <=? 971 then S754_finite sx (Z.to_pos m) e else S754_infinity sx
    else
      if e + 1 <=? 971 then S754_finite sx 4503599627370496 (e + 1) else S754_infinity sx.
Proof.
  intros [H0 Hle] He. unfold shr_fexp. rewrite fexp_binary64.
  destruct (Z.eqb_spec m 0) as [-> | Hne].
  - cbn [Zdigits2]. destruct (Z.max (0 + e - 53) (-1074) - e) as [| n | n] eqn:Hn; try lia;
      reflexivity.
  - destruct (Z.ltb_spec m (2 ^ 53)) as [Hlt | Hge].
    + assert (Hd : Zdigits2 m <= 53) by (apply Zdigits2_le; lia).
      pose proof (Zdigits2_nonneg m) as Hd0.
      destruct (Z.max (Zdigits2 m + e - 53) (-1074) - e) as [| n | n] eqn:Hn; try lia;
        cbn [shr shr_record_of_loc shr_m];
        (destruct m as [| p | p]; try lia); reflexivity.
    + assert (m = 2 ^ 53) by lia. subst m.
      change (Zdigits2 (2 ^ 53)) with 54.
      replace (Z.max (54 + e - 53) (-1074) - e) with 1 by lia.
      reflexivity.
Qed.

(** A rounding of [M * 2 ^ E]: the exponent is the canonical one, the
    mantissa is the quotient by the unit in the last place or its successor;
    a mantissa that reaches [2 ^ 53] is carried into the exponent. *)
Lemma binary_round_spec (sx : bool) (M : positive) (E : Z) :
  let e0 := fexp prec emax (Zpos (digits2_pos M) + E) in
  let b := Z.min E e0 in
  let m1 := (Zpos M * 2 ^ (E - b)) / 2 ^ (e0 - b) in
  exists m' : Z,
    m1 <= m' <= m1 + 1 /\
    m' <= 2 ^ 53 /\
    binary_round prec emax sx M E
    = if m' =? 0 then S754_zero sx
      else if m' <? 2 ^ 53 then
        if e0 <=? 971 then S754_finite sx (Z.to_pos m') e0 else S754_infinity sx
      else
        if e0 + 1 <=? 971 then S754_finite sx 4503599627370496 (e0 + 1)
        else S754_infinity sx.
Proof.
  cbv zeta. rewrite fexp_binary64.
  set (D := Zpos (digits2_pos M) + E).
  set (e0 := Z.max (D - 53) (-1074)).
  set (b := Z.min E e0).
  destruct (digits2_pos_bounds M) as [HMlo HMhi].
  unfold binary_round. rewrite fexp_binary64. fold D. fold e0.
  destruct (shl_align_spec M E e0) as (mz & -> & Hmz). fold b in Hmz |- *.
  assert (Hdz : Zdigits2 (Zpos mz) + b = D).
  { rewrite Hmz, Zdigits2_mul_pow2 by lia. unfold D. lia. }
  unfold binary_round_aux, shr_fexp at 1. rewrite fexp_binary64, Hdz. fold e0.
  destruct (shr_spec (Zpos mz) b (e0 - b) loc_Exact) as (mrs & -> & Hmrs); [lia |].
  replace (Z.max 0 (e0 - b)) with (e0 - b) in * by lia.
  replace (b + (e0 - b)) with e0 by lia.
  rewrite Hmz in Hmrs.
  set (m1 := Zpos M * 2 ^ (E - b) / 2 ^ (e0 - b)) in *.
  pose proof (round_nearest_even_bounds (shr_m mrs) (loc_of_shr_record mrs)) as Hr.
  set (m' := round_nearest_even (shr_m mrs) (loc_of_shr_record mrs)) in *.
  rewrite Hmrs in Hr.
  assert (Hpb : 0 < 2 ^ (e0 - b)) by (apply Z.pow_pos_nonneg; lia).
  assert (Hm1 : 0 <= m1 < 2 ^ 53).
  { unfold m1. split; [apply Z.div_pos; [| lia]; apply Z.mul_nonneg_nonneg;
                        [lia | apply Z.pow_nonneg; lia] |].
    apply Z.div_lt_upper_bound; [lia |].
    assert (Hlt : Zpos M * 2 ^ (E - b) < 2 ^ (D - b)).
    { replace (D - b) with (Zpos (digits2_pos M) + (E - b)) by (unfold D; lia).
      rewrite Z.pow_add_r by lia.
      assert (0 < 2 ^ (E - b)) by (apply Z.pow_pos_nonneg; lia). nia. }
    eapply Z.lt_le_trans; [exact Hlt |].
    rewrite <- Z.pow_add_r by lia. apply Z.pow_le_mono_r; lia. }
  exists m'. split; [exact Hr |]. split; [lia |].
  apply (binary_round_last sx m' e0); unfold e0; lia.
Qed.

(** The same for [binary_normalize] on an integer. *)
Lemma binary_normalize_spec (T E : Z) :
  T <> 0 ->
  let e0 := fexp prec emax (Zdigits2 T + E) in
  let b := Z.min E e0 in
  let m1 := (Z.abs T * 2 ^ (E - b)) / 2 ^ (e0 - b) in
  exists m' : Z,
    m1 <= m' <= m1 + 1 /\
    m' <= 2 ^ 53 /\
    binary_normalize prec emax T E false
    = if m' =? 0 then S754_zero (T <? 0)
      else if m' <? 2 ^ 53 then
        if e0 <=? 971 then S754_finite (T <? 0) (Z.to_pos m') e0
        else S754_infinity (T <? 0)
      else
        if e0 + 1 <=? 971 then S754_finite (T <? 0) 4503599627370496 (e0 + 1)
        else S754_infinity (T <? 0).
Proof.
  intros HT. destruct T as [| p | p]; [congruence | |]; cbn [binary_normalize Zdigits2 Z.abs].
  - apply (binary_round_spec false p E).
  - apply (binary_round_spec true p E).
Qed.

(** ** The clip to [0, 255] and the conversion to 8 bits *)

Lemma float_of_int_0 : float_of_int 0 = S754_zero false.
Proof. reflexivity. Qed.

Lemma float_of_int_255 : float_of_int 255 = S754_finite false 8972014882652160 (-45).
Proof. vm_compute. reflexivity. Qed.

Lemma channel_plus_draw_rounded (c : Z) (y : Draw) : rounded (channel_plus_draw c y).
Proof.
  unfold channel_plus_draw.
  set (T := c * 2 ^ (0 - Z.min 0 (snd y)) + fst y * 2 ^ (snd y - Z.min 0 (snd y))).
  destruct (Z.eq_dec T 0) as [-> | HT]; [exact I |].
  destruct (binary_normalize_spec T (Z.min 0 (snd y)) HT) as (m' & [Hlo _] & Hle & ->).
  assert (H0 : 0 <= m').
  { eapply Z.le_trans; [| exact Hlo]. apply Z.div_pos.
    - apply Z.mul_nonneg_nonneg; [lia | apply Z.pow_nonneg; lia].
    - apply Z.pow_pos_nonneg; [lia |]. lia. }
  destruct (Z.eqb_spec m' 0) as [_ | Hne]; [exact I |].
  destruct (Z.ltb_spec m' (2 ^ 53)) as [Hlt | _].
  - destruct (_ <=? 971); [| exact I]. cbn [rounded]. rewrite Z2Pos.id; lia.
  - destruct (_ <=? 971); [| exact I]. cbn [rounded]. reflexivity.
Qed.

Lemma float_trunc_255 : float_trunc (S754_finite false 8972014882652160 (-45)) = 255.
Proof. vm_compute. reflexivity. Qed.

Lemma pow2_45 : 2 ^ (- -45) = 35184372088832.
Proof. vm_compute. reflexivity. Qed.

Lemma shiftl_m45 (p : positive) : Z.shiftl (Zpos p) (-45) = Zpos p / 35184372088832.
Proof. rewrite Z.shiftl_div_pow2 by lia. rewrite pow2_45. reflexivity. Qed.

(** The clip of a positive finite number, truncated: by the exponent. *)
Lemma SFltb_pos_pos (c p : positive) (ec e : Z) :
  SFltb (S754_finite false c ec) (S754_finite false p e)
  = match ec ?= e with Lt => true | Gt => false | Eq => Zpos c <? Zpos p end.
Proof.
  unfold SFltb, SFcompare, Z.ltb. cbn [Z.compare]. unfold Pos.compare.
  destruct (ec ?= e); [| reflexivity | reflexivity].
  destruct (Pos.compare_cont Eq c p); reflexivity.
Qed.

Lemma SFleb_pos_pos (c p : positive) (ec e : Z) :
  SFleb (S754_finite false c ec) (S754_finite false p e)
  = match ec ?= e with Lt => true | Gt => false | Eq => Zpos c <=? Zpos p end.
Proof.
  unfold SFleb, SFcompare, Z.leb. cbn [Z.compare]. unfold Pos.compare.
  destruct (ec ?= e); [| reflexivity | reflexivity].
  destruct (Pos.compare_cont Eq c p); reflexivity.
Qed.

Lemma SFltb_pos_zero (p : positive) (e : Z) :
  SFltb (S754_finite false p e) (S754_zero false) = false.
Proof. reflexivity. Qed.

Lemma SFleb_zero_pos (p : positive) (e : Z) :
  SFleb (S754_zero false) (S754_finite false p e) = true.
Proof. reflexivity. Qed.

Lemma np_clip_pos (p : positive) (e : Z) :
  np_clip (S754_finite false p e) 0 255
  = if match -45 ?= e with Lt => true | Gt => false | Eq => 8972014882652160 <? Zpos p end
    then float_of_int 255 else S754_finite false p e.
Proof.
  unfold np_clip. rewrite float_of_int_0, float_of_int_255.
  rewrite SFltb_pos_zero, SFltb_pos_pos. reflexivity.
Qed.

Lemma clip_trunc_pos_high (p : positive) (e : Z) :
  -45 < e ->
  np_clip (S754_finite false p e) 0 255 = float_of_int 255.
Proof.
  intros He. rewrite np_clip_pos.
  replace (-45 ?= e) with Lt by (symmetry; apply Z.compare_lt_iff; exact He).
  reflexivity.
Qed.

Lemma clip_trunc_pos_low (p : positive) (e : Z) :
  e < -45 ->
  np_clip (S754_finite false p e) 0 255 = S754_finite false p e.
Proof.
  intros He. rewrite np_clip_pos.
  replace (-45 ?= e) with Gt by (symmetry; apply Z.compare_gt_iff; exact He).
  reflexivity.
Qed.

Lemma clip_trunc_pos_mid (p : positive) :
  np_clip (S754_finite false p (-45)) 0 255
  = if 8972014882652160 <? Zpos p then float_of_int 255 else S754_finite false p (-45).
Proof.
  rewrite np_clip_pos, Z.compare_refl. reflexivity.
Qed.

Lemma SFleb_255_mid (p : positive) :
  Zpos p <= 8972014882652160 ->
  SFleb (S754_finite false p (-45)) (float_of_int 255) = true.
Proof.
  intros H. rewrite float_of_int_255, SFleb_pos_pos, Z.compare_refl.
  apply Z.leb_le. exact H.
Qed.

Lemma SFleb_255_low (p : positive) (e : Z) :
  e < -45 -> SFleb (S754_finite false p e) (float_of_int 255) = true.
Proof.
  intros He. rewrite float_of_int_255, SFleb_pos_pos.
  replace (e ?= -45) with Lt by (symmetry; apply Z.compare_lt_iff; exact He).
  reflexivity.
Qed.

Lemma float_trunc_pos (p : positive) (e : Z) :
  e <= 0 -> float_trunc (S754_finite false p e) = Zpos p / 2 ^ (- e).
Proof.
  intros He. unfold float_trunc, cond_Zopp. apply Z.shiftl_div_pow2. exact He.
Qed.

Lemma clip_trunc_pos (p : positive) (e : Z) :
  Zpos p < 2 ^ 53 ->
  let y := np_clip (S754_finite false p e) 0 255 in
  float_trunc y = (if -45 <? e then 255 else Z.min 255 (Zpos p / 2 ^ (- e))) /\
  SFleb (float_of_int 0) y = true /\ SFleb y (float_of_int 255) = true.
Proof.
  intros Hp. cbv zeta.
  destruct (Z.lt_trichotomy (-45) e) as [Hlt | [Heq | Hgt]].
  - rewrite clip_trunc_pos_high by exact Hlt.
    replace (-45 <? e) with true by (symmetry; apply Z.ltb_lt; exact Hlt).
    rewrite float_of_int_255, float_trunc_255.
    split; [reflexivity |]. split; vm_compute; reflexivity.
  - subst e. rewrite clip_trunc_pos_mid, Z.ltb_irrefl, pow2_45.
    destruct (Z.ltb_spec 8972014882652160 (Zpos p)) as [H | H].
    + rewrite float_of_int_255, float_trunc_255.
      split; [| split; vm_compute; reflexivity].
      assert (255 <= Zpos p / 35184372088832); [| lia].
      apply (Z.div_le_lower_bound (Zpos p) 35184372088832 255); lia.
    + rewrite float_trunc_pos, pow2_45 by lia.
      assert (Hle : Zpos p / 35184372088832 <= 255)
        by (apply (Z.div_le_upper_bound (Zpos p) 35184372088832 255); lia).
      split; [lia |]. split; [reflexivity |]. apply SFleb_255_mid. exact H.
  - rewrite clip_trunc_pos_low by exact Hgt.
    replace (-45 <? e) with false by (symmetry; apply Z.ltb_ge; lia).
    rewrite float_trunc_pos by lia.
    split; [| split; [reflexivity | apply SFleb_255_low; exact Hgt]].
    assert (Zpos p / 2 ^ (- e) < 128); [| lia].
    apply Z.div_lt_upper_bound; [apply Z.pow_pos_nonneg; lia |].
    assert (H46 : 2 ^ 46 <= 2 ^ (- e)) by (apply Z.pow_le_mono_r; lia).
    assert (H53 : 2 ^ 53 = 2 ^ 46 * 128) by (vm_compute; reflexivity).
    rewrite H53 in Hp. lia.
Qed.

(** Whatever a rounding returns, its clip is a number from 0 to 255, and so
    is the integer left when the fraction is dropped. *)
Lemma np_clip_rounded (x : float) :
  rounded x ->
  let y := np_clip x 0 255 in
  SFleb (float_of_int 0) y = true /\ SFleb y (float_of_int 255) = true /\
  0 <= float_trunc y <= 255.
Proof.
  intros Hx. destruct x as [s | s | | s m e]; cbn [rounded] in Hx.
  - destruct s; vm_compute; repeat split; discriminate.
  - destruct s; vm_compute; repeat split; discriminate.
  - contradiction.
  - destruct s.
    + unfold np_clip, SFltb. cbn [SFcompare float_of_int binary_normalize].
      vm_compute. repeat split; discriminate.
    + destruct (clip_trunc_pos m e Hx) as (Ht & H0 & H255).
      split; [exact H0 |]. split; [exact H255 |]. rewrite Ht.
      destruct (Z.ltb_spec (-45) e) as [He | He]; [lia |].
      assert (0 <= Zpos m / 2 ^ (- e)); [| lia].
      apply Z.div_pos; [lia | apply Z.pow_pos_nonneg; lia].
Qed.

Lemma astype_uint8_clipped (x : float) :
  rounded x ->
  astype_uint8 (np_clip x 0 255) = float_trunc (np_clip x 0 255) /\
  0 <= astype_uint8 (np_clip x 0 255) <= 255.
Proof.
  intros Hx. destruct (np_clip_rounded x Hx) as (_ & _ & H).
  unfold astype_uint8. rewrite Z.mod_small by lia. split; [reflexivity | exact H].
Qed.

(** ** The sum of a channel and a draw, clipped and truncated *)

Lemma Zdigits2_ge_pow (m : Z) : 0 < m -> 2 ^ (Zdigits2 m - 1) <= m.
Proof.
  intros Hm. destruct m as [| p | p]; cbn [Zdigits2]; try lia.
  apply digits2_pos_bounds.
Qed.

Lemma pow2_52_lt : 4503599627370496 < 2 ^ 53.
Proof. vm_compute. reflexivity. Qed.

Lemma pow2_53_double : 2 ^ 53 = 2 * 4503599627370496.
Proof. vm_compute. reflexivity. Qed.

Lemma pow2_53_44 : 2 ^ 53 = 512 * 2 ^ 44.
Proof. vm_compute. reflexivity. Qed.

Lemma np_clip_zero (s : bool) : float_trunc (np_clip (S754_zero s) 0 255) = 0.
Proof. destruct s; vm_compute; reflexivity. Qed.

Lemma np_clip_infinity : np_clip (S754_infinity false) 0 255 = float_of_int 255.
Proof. vm_compute. reflexivity. Qed.

Lemma np_clip_negative (x : float) :
  match x with
  | S754_finite true _ _ | S754_infinity true => True
  | _ => False
  end ->
  float_trunc (np_clip x 0 255) = 0.
Proof.
  destruct x as [s | s | | s m e]; try contradiction; destruct s; try contradiction;
    intros _; reflexivity.
Qed.

Lemma float_trunc_of_255 : float_trunc (float_of_int 255) = 255.
Proof. rewrite float_of_int_255. apply float_trunc_255. Qed.

(** The mantissa before rounding, [T * 2 ^ (E - e0)] rounded down, between
    two multiples of a power of two. *)
Lemma truncated_lower (T E e0 v : Z) :
  0 < T -> E <= 0 -> e0 <= 0 -> 0 <= v ->
  v * 2 ^ (- E) <= T ->
  v * 2 ^ (- e0) <= (T * 2 ^ (E - Z.min E e0)) / 2 ^ (e0 - Z.min E e0).
Proof.
  intros HT HE He0 Hv Hlo.
  destruct (Z.le_gt_cases E e0) as [Hle | Hgt].
  - rewrite Z.min_l by exact Hle. rewrite Z.sub_diag, Z.mul_1_r.
    assert (HB : 0 < 2 ^ (e0 - E)) by (apply Z.pow_pos_nonneg; lia).
    apply Z.div_le_lower_bound; [exact HB |].
    replace (- E) with (- e0 + (e0 - E)) in Hlo by lia.
    rewrite Z.pow_add_r in Hlo by lia. lia.
  - rewrite Z.min_r by lia. rewrite Z.sub_diag, Z.div_1_r.
    assert (HD : 0 < 2 ^ (E - e0)) by (apply Z.pow_pos_nonneg; lia).
    replace (- e0) with (- E + (E - e0)) by lia.
    rewrite Z.pow_add_r by lia. nia.
Qed.

Lemma truncated_upper (T E e0 w : Z) :
  0 < T -> E <= 0 -> e0 <= -1 -> 0 <= w ->
  2 * T <= w * 2 ^ (- E) ->
  (T * 2 ^ (E - Z.min E e0)) / 2 ^ (e0 - Z.min E e0) <= w * 2 ^ (- e0 - 1).
Proof.
  intros HT HE He0 Hw Hhi.
  assert (HA : 2 ^ (- e0) = 2 * 2 ^ (- e0 - 1)).
  { replace (- e0) with (Z.succ (- e0 - 1)) at 1 by lia. apply Z.pow_succ_r. lia. }
  assert (HA' : 0 < 2 ^ (- e0 - 1)) by (apply Z.pow_pos_nonneg; lia).
  destruct (Z.le_gt_cases E e0) as [Hle | Hgt].
  - rewrite Z.min_l by exact Hle. rewrite Z.sub_diag, Z.mul_1_r.
    assert (HB : 0 < 2 ^ (e0 - E)) by (apply Z.pow_pos_nonneg; lia).
    apply Z.div_le_upper_bound; [exact HB |].
    replace (- E) with (- e0 + (e0 - E)) in Hhi by lia.
    rewrite Z.pow_add_r, HA in Hhi by lia. nia.
  - rewrite Z.min_r by lia. rewrite Z.sub_diag, Z.div_1_r.
    assert (HD : 0 < 2 ^ (E - e0)) by (apply Z.pow_pos_nonneg; lia).
    assert (HK : 2 ^ (- E) * 2 ^ (E - e0) = 2 * 2 ^ (- e0 - 1)).
    { rewrite <- Z.pow_add_r by lia. rewrite <- HA. f_equal. lia. }
    nia.
Qed.

Lemma truncated_positive (T E e0 : Z) :
  0 < T -> e0 <= Z.max (Zdigits2 T + E - 53) E ->
  1 <= (T * 2 ^ (E - Z.min E e0)) / 2 ^ (e0 - Z.min E e0).
Proof.
  intros HT He0.
  destruct (Z.le_gt_cases E e0) as [Hle | Hgt].
  - rewrite Z.min_l by exact Hle. rewrite Z.sub_diag, Z.mul_1_r.
    assert (HB : 0 < 2 ^ (e0 - E)) by (apply Z.pow_pos_nonneg; lia).
    apply Z.div_le_lower_bound; [exact HB |]. rewrite Z.mul_1_r.
    pose proof (Zdigits2_ge_pow T HT) as Hd.
    destruct (Z.eq_dec e0 E) as [-> | Hne]; [rewrite Z.sub_diag; cbn; lia |].
    eapply Z.le_trans; [| exact Hd]. apply Z.pow_le_mono_r; lia.
  - rewrite Z.min_r by lia. rewrite Z.sub_diag, Z.div_1_r.
    assert (HD : 0 < 2 ^ (E - e0)) by (apply Z.pow_pos_nonneg; lia). nia.
Qed.

(** A positive finite number at or below exponent [-45]: what is left of it
    after the clip and the truncation, by its mantissa. *)
Lemma clip_trunc_between (m e v : Z) :
  0 < m < 2 ^ 53 -> e <= -45 -> 0 <= v <= 255 ->
  v * 2 ^ (- e) <= m ->
  (v = 255 \/ m < (v + 1) * 2 ^ (- e)) ->
  float_trunc (np_clip (S754_finite false (Z.to_pos m) e) 0 255) = v.
Proof.
  intros Hm He Hv Hlo Hhi.
  assert (Hp : Zpos (Z.to_pos m) < 2 ^ 53) by (rewrite Z2Pos.id; lia).
  destruct (clip_trunc_pos (Z.to_pos m) e Hp) as (-> & _ & _).
  rewrite Z2Pos.id by lia.
  replace (-45 <? e) with false by (symmetry; apply Z.ltb_ge; exact He).
  assert (HA : 0 < 2 ^ (- e)) by (apply Z.pow_pos_nonneg; lia).
  assert (Hge : v <= m / 2 ^ (- e)) by (apply Z.div_le_lower_bound; [exact HA | lia]).
  destruct Hhi as [-> | Hhi]; [lia |].
  assert (Hlt : m / 2 ^ (- e) < v + 1) by (apply Z.div_lt_upper_bound; [exact HA | lia]).
  lia.
Qed.

(** The rounding of [T * 2 ^ E], clipped and truncated, is [v] when
    [T * 2 ^ E] lies from [v] to [v + 1/2], and 255 when it is 255 or more. *)
Lemma clip_normalize_pos (T E v : Z) :
  0 < T -> E <= 0 -> 0 <= v <= 255 ->
  v * 2 ^ (- E) <= T ->
  (v = 255 \/ 2 * T <= (2 * v + 1) * 2 ^ (- E)) ->
  float_trunc (np_clip (binary_normalize prec emax T E false) 0 255) = v.
Proof.
  intros HT HE Hv Hlo Hhi.
  assert (HT0 : T <> 0) by lia.
  pose proof (binary_normalize_spec T E HT0) as H. cbv zeta in H.
  rewrite fexp_binary64 in H.
  replace (T <? 0) with false in H by (symmetry; apply Z.ltb_ge; lia).
  rewrite (Z.abs_eq T) in H by lia.
  set (e0 := Z.max (Zdigits2 T + E - 53) (-1074)) in *.
  destruct H as (m' & [Hm1 Hm2] & Hle & ->).
  destruct (Z.le_gt_cases e0 (-45)) as [He | He].
  - assert (Hlo' : v * 2 ^ (- e0) <= m').
    { eapply Z.le_trans; [| exact Hm1]. apply truncated_lower; lia. }
    assert (HA0 : 0 < 2 ^ (- e0)) by (apply Z.pow_pos_nonneg; lia).
    destruct (Z.eqb_spec m' 0) as [H0 | Hne].
    { rewrite np_clip_zero. nia. }
    assert (Hpos : 1 <= m') by nia.
    assert (HA : 2 ^ (- e0) = 2 * 2 ^ (- e0 - 1)).
    { replace (- e0) with (Z.succ (- e0 - 1)) at 1 by lia. apply Z.pow_succ_r. lia. }
    assert (HA' : 2 ^ 44 <= 2 ^ (- e0 - 1)) by (apply Z.pow_le_mono_r; lia).
    assert (H44 : 2 <= 2 ^ 44) by (vm_compute; discriminate).
    assert (Hhi' : v = 255 \/ m' < (v + 1) * 2 ^ (- e0)).
    { destruct Hhi as [-> | Hhi]; [left; reflexivity | right].
      assert (m' <= (2 * v + 1) * 2 ^ (- e0 - 1) + 1).
      { eapply Z.le_trans; [exact Hm2 |]. apply Z.add_le_mono_r.
        apply truncated_upper; lia. }
      rewrite HA. nia. }
    replace (e0 <=? 971) with true by (symmetry; apply Z.leb_le; lia).
    replace (e0 + 1 <=? 971) with true by (symmetry; apply Z.leb_le; lia).
    destruct (Z.ltb_spec m' (2 ^ 53)) as [Hlt | Hge].
    + apply clip_trunc_between; try assumption. lia.
    + assert (Hm' : m' = 2 ^ 53) by lia.
      destruct (Z.eq_dec e0 (-45)) as [H45 | H45].
      * rewrite clip_trunc_pos_high by lia. rewrite float_trunc_of_255.
        destruct Hhi' as [-> | Hhi']; [reflexivity | exfalso].
        rewrite H45 in Hhi'. rewrite pow2_45 in Hhi'. rewrite Hm' in Hhi'.
        assert (H53 : 2 ^ 53 = 256 * 35184372088832) by (vm_compute; reflexivity).
        rewrite H53 in Hhi'. nia.
      * change 4503599627370496%positive with (Z.to_pos 4503599627370496).
        assert (HA1 : 0 < 2 ^ (- (e0 + 1))) by (apply Z.pow_pos_nonneg; lia).
        assert (HA2 : 2 ^ (- e0) = 2 * 2 ^ (- (e0 + 1))).
        { rewrite HA. do 2 f_equal. lia. }
        rewrite Hm', pow2_53_double, HA2 in Hlo', Hhi'.
        apply clip_trunc_between.
        -- split; [lia | exact pow2_52_lt].
        -- lia.
        -- exact Hv.
        -- nia.
        -- destruct Hhi' as [-> | Hhi']; [left; reflexivity | right]. nia.
  - assert (Hv255 : v = 255).
    { destruct Hhi as [-> | Hhi]; [reflexivity | exfalso].
      assert (HK : 0 < 2 ^ (- E)) by (apply Z.pow_pos_nonneg; lia).
      assert (Hlt : T < 2 ^ (8 - E)).
      { replace (8 - E) with (8 + - E) by lia. rewrite Z.pow_add_r by lia.
        change (2 ^ 8) with 256. nia. }
      pose proof (Zdigits2_le T (8 - E)) as Hd. unfold e0 in He. lia. }
    subst v.
    assert (Hpos : 1 <= m').
    { eapply Z.le_trans; [| exact Hm1]. apply truncated_positive; [exact HT |].
      unfold e0 in *. lia. }
    destruct (Z.eqb_spec m' 0) as [H0 | _]; [lia |].
    destruct (m' <? 2 ^ 53).
    + destruct (e0 <=? 971).
      * rewrite clip_trunc_pos_high by lia. apply float_trunc_of_255.
      * rewrite np_clip_infinity. apply float_trunc_of_255.
    + destruct (e0 + 1 <=? 971).
      * rewrite clip_trunc_pos_high by lia. apply float_trunc_of_255.
      * rewrite np_clip_infinity. apply float_trunc_of_255.
Qed.

(** The rounding of a number that is not positive is clipped to 0. *)
Lemma clip_normalize_nonpos (T E : Z) :
  T <= 0 -> float_trunc (np_clip (binary_normalize prec emax T E false) 0 255) = 0.
Proof.
  intros HT. destruct (Z.eq_dec T 0) as [-> | HT0]; [reflexivity |].
  destruct (binary_normalize_spec T E HT0) as (m' & _ & _ & ->).
  replace (T <? 0) with true by (symmetry; apply Z.ltb_lt; lia).
  destruct (m' =? 0); [apply np_clip_zero |].
  destruct (m' <? 2 ^ 53); [destruct (_ <=? 971) | destruct (_ <=? 971)];
    apply np_clip_negative; exact I.
Qed.

(** The exact sum of a channel and a draw against the integer that
    [channel_plus_draw] rounds. *)
Lemma sum_scaled (c : Z) (y : Draw) :
  let ez := Z.min 0 (snd y) in
  (inject_Z (c * 2 ^ (0 - ez) + fst y * 2 ^ (snd y - ez))
   == (inject_Z c + draw_value y) * inject_Z (2 ^ (- ez)))%Q.
Proof.
  cbv zeta. unfold draw_value. set (ez := Z.min 0 (snd y)).
  assert (Hez : ez <= 0 /\ ez <= snd y) by (unfold ez; lia).
  rewrite inject_Z_plus, !inject_Z_mult.
  rewrite !Zpower_Qpower by lia.
  replace (0 - ez) with (- ez) by lia.
  replace (snd y - ez) with (snd y + - ez) by lia.
  rewrite Qpower_plus by discriminate.
  change (inject_Z 2) with 2%Q. ring.
Qed.

Lemma scale_positive (ez : Z) : ez <= 0 -> (0 < inject_Z (2 ^ (- ez)))%Q.
Proof.
  intros H. change 0%Q with (inject_Z 0). rewrite <- Zlt_Qlt.
  apply Z.pow_pos_nonneg; lia.
Qed.

Lemma sum_nonpos (c : Z) (y : Draw) :
  (inject_Z c + draw_value y <= 0)%Q ->
  c * 2 ^ (0 - Z.min 0 (snd y)) + fst y * 2 ^ (snd y - Z.min 0 (snd y)) <= 0.
Proof.
  intros H. rewrite Zle_Qle. rewrite (sum_scaled c y).
  change (inject_Z 0) with 0%Q.
  rewrite <- (Qmult_0_l (inject_Z (2 ^ (- Z.min 0 (snd y))))).
  apply Qmult_le_compat_r; [exact H |].
  apply Qlt_le_weak, scale_positive. lia.
Qed.

Lemma sum_at_least (c v : Z) (y : Draw) :
  (inject_Z v <= inject_Z c + draw_value y)%Q ->
  v * 2 ^ (- Z.min 0 (snd y))
  <= c * 2 ^ (0 - Z.min 0 (snd y)) + fst y * 2 ^ (snd y - Z.min 0 (snd y)).
Proof.
  intros H. rewrite Zle_Qle. rewrite (sum_scaled c y), inject_Z_mult.
  apply Qmult_le_compat_r; [exact H |].
  apply Qlt_le_weak, scale_positive. lia.
Qed.

Lemma sum_at_most_half (c v : Z) (y : Draw) :
  (inject_Z c + draw_value y <= inject_Z v + (1 # 2))%Q ->
  2 * (c * 2 ^ (0 - Z.min 0 (snd y)) + fst y * 2 ^ (snd y - Z.min 0 (snd y)))
  <= (2 * v + 1) * 2 ^ (- Z.min 0 (snd y)).
Proof.
  intros H. rewrite Zle_Qle. rewrite !inject_Z_mult, (sum_scaled c y), inject_Z_plus, inject_Z_mult.
  set (P := inject_Z (2 ^ (- Z.min 0 (snd y)))).
  assert (HP : (0 <= P)%Q) by (apply Qlt_le_weak, scale_positive; lia).
  assert (E1 : (inject_Z 2 * ((inject_Z c + draw_value y) * P)
                == (inject_Z c + draw_value y) * (inject_Z 2 * P))%Q) by ring.
  assert (E2 : ((inject_Z 2 * inject_Z v + inject_Z 1) * P
                == (inject_Z v + (1 # 2)) * (inject_Z 2 * P))%Q)
    by (change (inject_Z 2) with 2%Q; change (inject_Z 1) with 1%Q; field).
  rewrite E1, E2.
  apply Qmult_le_compat_r; [exact H |].
  apply Qmult_le_0_compat; [discriminate | exact HP].
Qed.

(** A channel and a draw whose exact sum is 0 or less give 0. *)
Lemma noisy_channel_low (c : Z) (y : Draw) :
  (inject_Z c + draw_value y <= 0)%Q ->
  astype_uint8 (np_clip (channel_plus_draw c y) 0 255) = 0.
Proof.
  intros H. unfold astype_uint8, channel_plus_draw. cbv zeta.
  rewrite clip_normalize_nonpos by (apply sum_nonpos; exact H). reflexivity.
Qed.

(** A channel and a draw whose exact sum is 255 or more give 255. *)
Lemma noisy_channel_high (c : Z) (y : Draw) :
  (255 <= inject_Z c + draw_value y)%Q ->
  astype_uint8 (np_clip (channel_plus_draw c y) 0 255) = 255.
Proof.
  intros H. unfold astype_uint8, channel_plus_draw. cbv zeta.
  pose proof (sum_at_least c 255 y H) as Hlo.
  assert (HK : 0 < 2 ^ (- Z.min 0 (snd y))) by (apply Z.pow_pos_nonneg; lia).
  rewrite (clip_normalize_pos _ _ 255); [reflexivity | lia | lia | lia | exact Hlo | left; reflexivity].
Qed.

(** A channel from 0 to 255 and a draw from 0 to one half give the channel
    back. *)
Lemma noisy_channel_kept (c : Z) (y : Draw) :
  0 <= c <= 255 ->
  (0 <= draw_value y <= 1 # 2)%Q ->
  astype_uint8 (np_clip (channel_plus_draw c y) 0 255) = c.
Proof.
  intros Hc [Hy0 Hy1]. unfold astype_uint8, channel_plus_draw. cbv zeta.
  assert (Hlo : (inject_Z c <= inject_Z c + draw_value y)%Q).
  { rewrite <- (Qplus_0_r (inject_Z c)) at 1. apply Qplus_le_r. exact Hy0. }
  assert (Hhi : (inject_Z c + draw_value y <= inject_Z c + (1 # 2))%Q).
  { apply Qplus_le_r. exact Hy1. }
  apply (sum_at_least c c y) in Hlo. apply (sum_at_most_half c c y) in Hhi.
  assert (HK : 0 < 2 ^ (- Z.min 0 (snd y))) by (apply Z.pow_pos_nonneg; lia).
  set (T := c * 2 ^ (0 - Z.min 0 (snd y)) + fst y * 2 ^ (snd y - Z.min 0 (snd y))) in *.
  destruct (Z.eq_dec T 0) as [HT | HT].
  - rewrite HT in *. assert (c = 0) by nia. subst c. reflexivity.
  - rewrite (clip_normalize_pos T _ c); [apply Z.mod_small; lia | nia | lia | exact Hc | exact Hlo | right; exact Hhi].
Qed.

(** ** The percentage of the progress event *)

Lemma progress_percent_total (k n : nat) :
  (k < n)%nat ->
  exists p, progress_percent (Z.of_nat k) (Z.of_nat n) = Ok p.
Proof.
  intros Hkn. unfold progress_percent.
  destruct n as [| n]; [lia |].
  replace (Z.of_nat k + 1) with (Zpos (Pos.of_succ_nat k)) by lia.
  replace (Z.of_nat (S n)) with (Zpos (Pos.of_succ_nat n)) by lia.
  destruct (int_truediv_tame (Pos.of_succ_nat k) (Pos.of_succ_nat n)) as (q & -> & Hq);
    [lia |].
  cbn [rbind].
  eapply int_of_float_tame. apply float_mul_100_tame. exact Hq.
Qed.

Lemma progress_percent_last (n : nat) :
  progress_percent (Z.of_nat n) (Z.of_nat (S n)) = Ok 100.
Proof.
  unfold progress_percent.
  replace (Z.of_nat n + 1) with (Zpos (Pos.of_succ_nat n)) by lia.
  replace (Z.of_nat (S n)) with (Zpos (Pos.of_succ_nat n)) by lia.
  rewrite int_truediv_self. vm_compute. reflexivity.
Qed.

Lemma percent_at_spec (n k : nat) :
  (k < n)%nat ->
  progress_percent (Z.of_nat k) (Z.of_nat n) = Ok (percent_at n k).
Proof.
  intros H. unfold percent_at.
  destruct (progress_percent_total k n H) as [p ->]. reflexivity.
Qed.

Lemma percent_at_last (n : nat) : percent_at (S n) n = 100.
Proof. unfold percent_at. rewrite progress_percent_last. reflexivity. Qed.

(** ** One page cycle and the page loop *)

Section Run.
Context {St : Type}.
Variable lib : Library.
Variable self : PDFCorruptor St.

Lemma report_progress_spec (N k : nat) (w : World St) :
  (k < N)%nat ->
  report_progress self k N w = (Ok tt, notified self N k w).
Proof.
  intros Hk. unfold report_progress, notified.
  destruct (progress_callback self) as [cb |]; [| reflexivity].
  unfold bind, lift. rewrite (percent_at_spec N k Hk).
  unfold try_except, await_callback, ret, event_at.
  destruct (cb (percent_at N k) (Z.of_nat k + 1) (Z.of_nat N) (reporter w)) as [[[] | e] s'];
    reflexivity.
Qed.

Lemma page_cycle_spec (N k : nat) (w : World St) (ps out : list Page) (p : Page) :
  opened ps out w -> ps !! k = Some p -> (k < N)%nat ->
  match page_stages lib self k p with
  | Ok q => page_cycle lib self N k w = (Ok tt, after_cycle self N k q w)
  | Raise e =>
      exists w', page_cycle lib self N k w = (Raise e, w') /\
                 files w' = files w /\
                 (exists out', opened ps out' w')
  end.
Proof.
  intros [Hpdf Hout] Hp Hk.
  unfold page_stages, page_cycle, bind, lift, pdf_doc_getitem.
  rewrite Hpdf. cbn [is_closed pages]. rewrite Hp.
  destruct (get_pixmap lib p (zoom self)) as [pix | e]; cbn [rbind];
    [| exists w; repeat split; eauto; exists out; split; assumption].
  destruct (Image_frombytes lib (pix_width pix) (pix_height pix) (samples pix))
    as [image | e]; cbn [rbind];
    [| exists w; repeat split; eauto; exists out; split; assumption].
  destruct (process_page lib self k image) as [processed | e]; cbn [rbind];
    [| exists w; repeat split; eauto; exists out; split; assumption].
  destruct (jpeg_save lib processed (quality self)) as [img_bytes | e]; cbn [rbind];
    [| exists w; repeat split; eauto; exists out; split; assumption].
  unfold new_page. rewrite Hout. cbn [is_closed pages].
  unfold insert_image_new_page. cbn [output_doc set_output_doc pages is_closed].
  destruct (insert_image lib (0, 0, pix_width pix, pix_height pix) img_bytes) as [[] | e];
    cbn [rbind].
  - rewrite length_app. cbn [length].
    replace (Init.Nat.pred (length out + 1)) with (length out + 0)%nat by lia.
    rewrite alter_app_r. cbn [alter list_alter with_image page_width page_height].
    rewrite report_progress_spec by exact Hk.
    unfold asyncio_sleep_0, after_cycle, yielded, appended.
    rewrite Hout. cbn [pages is_closed]. reflexivity.
  - eexists. split; [reflexivity |]. split; [reflexivity |].
    eexists. split; cbn [pdf_doc output_doc set_output_doc]; [exact Hpdf | reflexivity].
Qed.

Lemma after_cycle_files (N k : nat) (q : Page) (w : World St) :
  files (after_cycle self N k q w) = files w.
Proof.
  unfold after_cycle, yielded, notified, appended.
  destruct (progress_callback self), (output_doc w); reflexivity.
Qed.

Lemma after_cycle_opened (N k : nat) (q : Page) (w : World St) (ps out : list Page) :
  opened ps out w -> opened ps (out ++ [q]) (after_cycle self N k q w).
Proof.
  intros [Hpdf Hout]. unfold opened, after_cycle, yielded, notified, appended.
  rewrite Hout. destruct (progress_callback self); cbn; rewrite Hpdf; split; reflexivity.
Qed.

Lemma after_cycle_invocations (N k : nat) (q : Page) (w : World St) :
  invocations (after_cycle self N k q w) = invocations w ++ events_from self N k 1.
Proof.
  unfold after_cycle, yielded, notified, appended, events_from.
  destruct (progress_callback self), (output_doc w); cbn;
    rewrite ?app_nil_r; reflexivity.
Qed.

Lemma after_cycle_yields (N k : nat) (q : Page) (w : World St) :
  yields (after_cycle self N k q w) = S (yields w).
Proof.
  unfold after_cycle, yielded, notified, appended.
  destruct (progress_callback self), (output_doc w); reflexivity.
Qed.

Lemma events_from_S (N k n : nat) :
  events_from self N k (S n) = events_from self N k 1 ++ events_from self N (S k) n.
Proof. unfold events_from. destruct (progress_callback self); reflexivity. Qed.

Lemma after_cycles_files (N : nat) (qs : list Page) :
  forall k w, files (after_cycles self N k qs w) = files w.
Proof.
  induction qs as [| q qs IH]; intros k w; cbn [after_cycles]; [reflexivity |].
  rewrite IH. apply after_cycle_files.
Qed.

Lemma after_cycles_opened (N : nat) (ps qs : list Page) :
  forall k w out, opened ps out w -> opened ps (out ++ qs) (after_cycles self N k qs w).
Proof.
  induction qs as [| q qs IH]; intros k w out Hw; cbn [after_cycles].
  - rewrite app_nil_r. exact Hw.
  - replace (out ++ q :: qs) with ((out ++ [q]) ++ qs) by (rewrite <- app_assoc; reflexivity).
    apply IH. apply after_cycle_opened. exact Hw.
Qed.

Lemma after_cycles_invocations (N : nat) (qs : list Page) :
  forall k w,
    invocations (after_cycles self N k qs w)
    = invocations w ++ events_from self N k (length qs).
Proof.
  induction qs as [| q qs IH]; intros k w; cbn [after_cycles length].
  - unfold events_from. destruct (progress_callback self); cbn; rewrite app_nil_r; reflexivity.
  - rewrite IH, after_cycle_invocations, (events_from_S N k (length qs)), app_assoc.
    reflexivity.
Qed.

Lemma after_cycles_yields (N : nat) (qs : list Page) :
  forall k w, yields (after_cycles self N k qs w) = (yields w + length qs)%nat.
Proof.
  induction qs as [| q qs IH]; intros k w; cbn [after_cycles length]; [lia |].
  rewrite IH, after_cycle_yields. lia.
Qed.

Lemma all_stages_length (rest : list Page) :
  forall k qs, all_stages lib self k rest = Ok qs -> length qs = length rest.
Proof.
  induction rest as [| p rest IH]; intros k qs H; cbn [all_stages] in H.
  - injection H as <-. reflexivity.
  - destruct (page_stages lib self k p) as [q | e]; cbn [rbind] in H; [| discriminate].
    destruct (all_stages lib self (S k) rest) as [qs' | e] eqn:Hrest; cbn [rbind] in H;
      [| discriminate].
    injection H as <-. cbn [length]. f_equal. eapply IH. exact Hrest.
Qed.

(** Every page made by the stages carries one image over its whole area. *)
Lemma page_stages_full_bleed (k : nat) (p q : Page) :
  page_stages lib self k p = Ok q -> full_bleed q.
Proof.
  unfold page_stages. intros H.
  destruct (get_pixmap lib p (zoom self)) as [pix | e]; cbn [rbind] in H; [| discriminate].
  destruct (Image_frombytes lib (pix_width pix) (pix_height pix) (samples pix))
    as [image | e]; cbn [rbind] in H; [| discriminate].
  destruct (process_page lib self k image) as [processed | e]; cbn [rbind] in H;
    [| discriminate].
  destruct (jpeg_save lib processed (quality self)) as [img_bytes | e]; cbn [rbind] in H;
    [| discriminate].
  destruct (insert_image lib (0, 0, pix_width pix, pix_height pix) img_bytes) as [[] | e];
    cbn [rbind] in H; [| discriminate].
  injection H as <-. exists img_bytes. reflexivity.
Qed.

Lemma all_stages_full_bleed (rest : list Page) :
  forall k qs, all_stages lib self k rest = Ok qs -> Forall full_bleed qs.
Proof.
  induction rest as [| p rest IH]; intros k qs H; cbn [all_stages] in H.
  - injection H as <-. constructor.
  - destruct (page_stages lib self k p) as [q | e] eqn:Hq; cbn [rbind] in H; [| discriminate].
    destruct (all_stages lib self (S k) rest) as [qs' | e] eqn:Hrest; cbn [rbind] in H;
      [| discriminate].
    injection H as <-. constructor; [eapply page_stages_full_bleed; exact Hq |].
    eapply IH. exact Hrest.
Qed.

(** The page loop: it ends normally exactly when every page goes through
    its stages, and a page that fails stops it with the storage untouched
    and both handles still open. *)
Lemma page_loop_spec (N : nat) (ps : list Page) (rest : list Page) :
  forall k w out,
    opened ps out w -> drop k ps = rest -> (k + length rest <= N)%nat ->
    match all_stages lib self k rest with
    | Ok qs =>
        for_each (seq k (length rest)) (page_cycle lib self N) w
        = (Ok tt, after_cycles self N k qs w)
    | Raise e =>
        exists w', for_each (seq k (length rest)) (page_cycle lib self N) w = (Raise e, w') /\
                   files w' = files w /\
                   (exists out', opened ps out' w')
    end.
Proof.
  induction rest as [| p rest IH]; intros k w out Hw Hdrop Hlen;
    cbn [all_stages length seq for_each].
  - reflexivity.
  - assert (Hp : ps !! k = Some p).
    { rewrite <- (Nat.add_0_r k), <- lookup_drop, Hdrop. reflexivity. }
    assert (Hrest : drop (S k) ps = rest).
    { replace (S k) with (k + 1)%nat by lia. rewrite <- drop_drop, Hdrop. reflexivity. }
    cbn [length] in Hlen.
    pose proof (page_cycle_spec N k w ps out p Hw Hp ltac:(lia)) as Hcycle.
    destruct (page_stages lib self k p) as [q | e]; cbn [rbind].
    + pose proof (IH (S k) (after_cycle self N k q w) (out ++ [q])
                    (after_cycle_opened N k q w ps out Hw) Hrest ltac:(lia)) as Hnext.
      destruct (all_stages lib self (S k) rest) as [qs | e]; cbn [rbind after_cycles].
      * unfold bind. rewrite Hcycle. exact Hnext.
      * destruct Hnext as (w' & Hn & Hfiles & Hopen).
        exists w'. split; [unfold bind; rewrite Hcycle; exact Hn |].
        split; [| exact Hopen].
        rewrite Hfiles. apply after_cycle_files.
    + destruct Hcycle as (w' & Hc & Hfiles & Hopen).
      exists w'. split; [unfold bind; rewrite Hc; reflexivity |]. auto.
Qed.

(** *** The whole of [process_pdf] *)

Lemma process_pdf_open_failure (pdf_path output_path : string) (w : World St) :
  (forall ps, files w !! pdf_path <> Some (PdfFile ps)) ->
  process_pdf lib self pdf_path output_path w = (Ok (false, 0), w).
Proof.
  intros Hno. unfold process_pdf, try_except, bind, fitz_open.
  destruct (files w !! pdf_path) as [[ps | raw] |]; try reflexivity.
  exfalso. apply (Hno ps). reflexivity.
Qed.

(** The world once both documents are open. *)
Lemma after_open (ps : list Page) (w : World St) :
  opened ps []
    (set_output_doc (Some {| pages := []; is_closed := false |})
       (set_pdf_doc (Some {| pages := ps; is_closed := false |}) w)).
Proof. split; reflexivity. Qed.

Lemma process_pdf_stage_failure (pdf_path output_path : string) (w : World St)
    (ps : list Page) (e : exn) :
  files w !! pdf_path = Some (PdfFile ps) ->
  all_stages lib self 0 ps = Raise e ->
  exists w' out,
    process_pdf lib self pdf_path output_path w = (Ok (false, 0), w') /\
    files w' = files w /\
    opened ps out w'.
Proof.
  intros Hfile Hstages.
  unfold process_pdf, try_except, bind at 1, fitz_open. rewrite Hfile.
  unfold bind at 1, fitz_open_new.
  unfold bind at 1, len_pdf_doc. cbn [pdf_doc set_output_doc set_pdf_doc is_closed pages].
  pose proof (page_loop_spec (length ps) ps ps 0 _ [] (after_open ps w) eq_refl ltac:(lia))
    as Hloop.
  rewrite Hstages in Hloop. destruct Hloop as (w' & Hloop & Hfiles & out & Hopen).
  unfold bind at 1. rewrite Hloop. unfold ret.
  exists w', out. split; [reflexivity |]. split; [exact Hfiles | exact Hopen].
Qed.

Lemma process_pdf_save_failure (pdf_path output_path : string) (w : World St)
    (ps qs : list Page) (e : exn) :
  files w !! pdf_path = Some (PdfFile ps) ->
  all_stages lib self 0 ps = Ok qs ->
  doc_save lib qs output_path = Raise e ->
  exists w',
    process_pdf lib self pdf_path output_path w = (Ok (false, 0), w') /\
    files w' = after_failed_save lib qs output_path (files w) /\
    opened ps qs w' /\
    invocations w' = invocations w ++ events_from self (length ps) 0 (length ps).
Proof.
  intros Hfile Hstages Hsave.
  unfold process_pdf, try_except, bind at 1, fitz_open. rewrite Hfile.
  unfold bind at 1, fitz_open_new.
  unfold bind at 1, len_pdf_doc. cbn [pdf_doc set_output_doc set_pdf_doc is_closed pages].
  pose proof (page_loop_spec (length ps) ps ps 0 _ [] (after_open ps w) eq_refl ltac:(lia))
    as Hloop.
  rewrite Hstages in Hloop.
  unfold bind at 1. rewrite Hloop.
  pose proof (after_cycles_opened (length ps) ps qs 0 _ [] (after_open ps w)) as [Hpdf Hout].
  cbn [app] in Hout.
  unfold bind at 1, save. rewrite Hout. cbn [is_closed pages]. rewrite Hsave. unfold ret.
  eexists. split; [reflexivity |].
  cbn [files set_files pdf_doc output_doc invocations].
  split; [rewrite after_cycles_files; reflexivity |].
  split; [split; assumption |].
  rewrite after_cycles_invocations, (all_stages_length _ _ _ Hstages). reflexivity.
Qed.

Lemma process_pdf_success (pdf_path output_path : string) (w : World St)
    (ps qs : list Page) :
  files w !! pdf_path = Some (PdfFile ps) ->
  all_stages lib self 0 ps = Ok qs ->
  doc_save lib qs output_path = Ok tt ->
  exists w',
    process_pdf lib self pdf_path output_path w = (Ok (true, Z.of_nat (length ps)), w') /\
    files w' = <[output_path := PdfFile qs]> (files w) /\
    pdf_doc w' = Some {| pages := ps; is_closed := true |} /\
    output_doc w' = Some {| pages := qs; is_closed := true |} /\
    invocations w' = invocations w ++ events_from self (length ps) 0 (length ps) /\
    yields w' = (yields w + length ps)%nat.
Proof.
  intros Hfile Hstages Hsave.
  unfold process_pdf, try_except, bind at 1, fitz_open. rewrite Hfile.
  unfold bind at 1, fitz_open_new.
  unfold bind at 1, len_pdf_doc. cbn [pdf_doc set_output_doc set_pdf_doc is_closed pages].
  pose proof (page_loop_spec (length ps) ps ps 0 _ [] (after_open ps w) eq_refl ltac:(lia))
    as Hloop.
  rewrite Hstages in Hloop.
  unfold bind at 1. rewrite Hloop.
  pose proof (after_cycles_opened (length ps) ps qs 0 _ [] (after_open ps w)) as [Hpdf Hout].
  cbn [app] in Hout.
  unfold bind at 1, save. rewrite Hout. cbn [is_closed pages]. rewrite Hsave.
  unfold bind at 1. cbn [pdf_doc set_files]. rewrite Hpdf. cbn [is_closed pages].
  unfold bind at 1, close_pdf_doc. cbn [pdf_doc set_files]. rewrite Hpdf.
  unfold bind at 1, close_output_doc. cbn [output_doc set_files set_pdf_doc]. rewrite Hout.
  unfold ret, close_doc. cbn [pages].
  eexists. split; [reflexivity |].
  cbn [files pdf_doc output_doc invocations yields set_output_doc set_pdf_doc set_files].
  rewrite after_cycles_files, after_cycles_invocations, after_cycles_yields.
  rewrite (all_stages_length _ _ _ Hstages).
  repeat split.
Qed.
End Run.

(** ** [process_pdf]: page count, failures, handles *)

(** C1, as stated, fails: a three-page document opens and every page goes
    through its stages, yet the run reports failure because the final save
    raises. *)
Lemma process_pdf_save_can_fail :
  ~ (forall (lib : Library) (self : PDFCorruptor unit) (pdf_path output_path : string)
            (w : World unit) (ps qs : list Page),
        files w !! pdf_path = Some (PdfFile ps) ->
        all_stages lib self 0 ps = Ok qs ->
        fst (process_pdf lib self pdf_path output_path w)
        = Ok (true, Z.of_nat (length ps))).
Proof.
  intros H.
  specialize (H Demo.lib_no_save (Demo.corruptor None) "three.pdf" "out.pdf"
                (initial_world Demo.storage tt) [Demo.a4; Demo.a4; Demo.a4]
                _ eq_refl eq_refl).
  vm_compute in H. discriminate H.
Qed.

(** C1, amended: when the source opens, every page goes through its stages
    and the final save succeeds, [process_pdf] returns [(True, N)] for the
    [N] pages of the source, and the document stored at the output path has
    exactly [N] pages, each a full-bleed image page. *)
Theorem process_pdf_page_count {St} (lib : Library) (self : PDFCorruptor St)
    (pdf_path output_path : string) (w : World St) (ps qs : list Page) :
  files w !! pdf_path = Some (PdfFile ps) ->
  all_stages lib self 0 ps = Ok qs ->
  doc_save lib qs output_path = Ok tt ->
  let '(r, w') := process_pdf lib self pdf_path output_path w in
  r = Ok (true, Z.of_nat (length ps)) /\
  files w' !! output_path = Some (PdfFile qs) /\
  length qs = length ps /\
  Forall full_bleed qs.
Proof.
  intros Hfile Hstages Hsave.
  destruct (process_pdf_success lib self pdf_path output_path w ps qs Hfile Hstages Hsave)
    as (w' & -> & Hfiles & _).
  split; [reflexivity |].
  split; [rewrite Hfiles; apply lookup_insert_eq |].
  split; [eapply all_stages_length; exact Hstages |].
  eapply all_stages_full_bleed; exact Hstages.
Qed.

Lemma process_pdf_page_count_witness :
  let '(r, w') := process_pdf Demo.lib (Demo.corruptor (Some Demo.counting))
                    "three.pdf" "out.pdf" (initial_world Demo.storage 0%nat) in
  r = Ok (true, 3) /\
  files w' !! "out.pdf"
  = Some (PdfFile
            (let p := {| page_width := 595; page_height := 842;
                         content := FullImage (0, 0, 595, 842) [] |} in [p; p; p])) /\
  length (let p := {| page_width := 595; page_height := 842;
                      content := FullImage (0, 0, 595, 842) [] |} in [p; p; p])
  = length [Demo.a4; Demo.a4; Demo.a4] /\
  Forall full_bleed
    (let p := {| page_width := 595; page_height := 842;
                 content := FullImage (0, 0, 595, 842) [] |} in [p; p; p]).
Proof.
  apply (process_pdf_page_count Demo.lib (Demo.corruptor (Some Demo.counting))
           "three.pdf" "out.pdf" (initial_world Demo.storage 0%nat)
           [Demo.a4; Demo.a4; Demo.a4]);
    vm_compute; reflexivity.
Defined.

(** C2, at the failing input: a one-page document whose page cannot be
    rendered. [process_pdf] returns [(False, 0)] and neither handle has been
    closed: the two [close] calls sit on the success path only. *)
Theorem process_pdf_failure_leaves_handles_open :
  let '(r, w') := process_pdf Demo.lib_no_render (Demo.corruptor (Some Demo.counting))
                    "one.pdf" "out.pdf" (initial_world Demo.storage 0%nat) in
  r = Ok (false, 0) /\
  handle_open (pdf_doc w') /\ handle_open (output_doc w') /\
  ~ handle_closed (pdf_doc w') /\ ~ handle_closed (output_doc w').
Proof. vm_compute. repeat split; discriminate. Qed.

(** X7. Whenever the source opens and a later stage fails, both handles
    are left open; on success both are closed. *)
Lemma process_pdf_handles {St} (lib : Library) (self : PDFCorruptor St)
    (pdf_path output_path : string) (w : World St) (ps : list Page) :
  files w !! pdf_path = Some (PdfFile ps) ->
  let '(r, w') := process_pdf lib self pdf_path output_path w in
  (r = Ok (false, 0) /\ handle_open (pdf_doc w') /\ handle_open (output_doc w')) \/
  (r = Ok (true, Z.of_nat (length ps)) /\
   handle_closed (pdf_doc w') /\ handle_closed (output_doc w')).
Proof.
  intros Hfile.
  destruct (all_stages lib self 0 ps) as [qs | e] eqn:Hstages.
  - destruct (doc_save lib qs output_path) as [[] | e] eqn:Hsave.
    + destruct (process_pdf_success lib self pdf_path output_path w ps qs Hfile Hstages Hsave)
        as (w' & -> & _ & Hpdf & Hout & _).
      right. rewrite Hpdf, Hout. repeat split.
    + destruct (process_pdf_save_failure lib self pdf_path output_path w ps qs e
                  Hfile Hstages Hsave) as (w' & -> & _ & [Hpdf Hout] & _).
      left. rewrite Hpdf, Hout. repeat split.
  - destruct (process_pdf_stage_failure lib self pdf_path output_path w ps e Hfile Hstages)
      as (w' & out & -> & _ & [Hpdf Hout]).
    left. rewrite Hpdf, Hout. repeat split.
Qed.

(** C3, as stated, fails when it is the save that raises: a one-page
    document goes through its stages, the save raises after it has begun to
    write, and [process_pdf] returns [(False, 0)] with the partly written
    file at the output path, where there was none. *)
Lemma process_pdf_failed_save_leaves_file :
  ~ (forall (lib : Library) (self : PDFCorruptor unit) (pdf_path output_path : string)
            (w : World unit),
        stage_error lib self pdf_path output_path w ->
        let '(r, w') := process_pdf lib self pdf_path output_path w in
        r = Ok (false, 0) /\
        files w' !! output_path = files w !! output_path).
Proof.
  intros H.
  specialize (H Demo.lib_partial_save (Demo.corruptor None) "one.pdf" "new.pdf"
                (initial_world Demo.storage tt)).
  assert (Herr : stage_error Demo.lib_partial_save (Demo.corruptor None) "one.pdf" "new.pdf"
                   (initial_world Demo.storage tt)).
  { apply (finalize_error _ _ _ _ _ [Demo.a4]
             [{| page_width := 595; page_height := 842;
                 content := FullImage (0, 0, 595, 842) [] |}]
             (RuntimeError "disk full")); vm_compute; reflexivity. }
  specialize (H Herr). vm_compute in H. destruct H as [_ H]. discriminate H.
Qed.

(** C3, amended: a run in which a stage raises returns [(False, 0)] and
    touches no path other than the output path. When the save was not
    reached (the source does not open, or a page fails) the storage is as it
    was: nothing is written. When it is the save that raises, [process_pdf]
    removes nothing: the output path holds what the failed save had written
    by then, or what it held before if the save had written nothing. *)
Theorem process_pdf_failure_output {St} (lib : Library) (self : PDFCorruptor St)
    (pdf_path output_path : string) (w : World St) :
  stage_error lib self pdf_path output_path w ->
  let '(r, w') := process_pdf lib self pdf_path output_path w in
  r = Ok (false, 0) /\
  (forall p, p <> output_path -> files w' !! p = files w !! p) /\
  ((forall ps qs, files w !! pdf_path = Some (PdfFile ps) ->
                  all_stages lib self 0 ps <> Ok qs) ->
   files w' = files w) /\
  (forall ps qs, files w !! pdf_path = Some (PdfFile ps) ->
                 all_stages lib self 0 ps = Ok qs ->
   files w' !! output_path
   = match doc_save_partial lib qs output_path with
     | Some b => Some b
     | None => files w !! output_path
     end).
Proof.
  intros [Hopen | ps e Hfile Hstages | ps qs e Hfile Hstages Hsave].
  - rewrite process_pdf_open_failure by exact Hopen.
    split; [reflexivity |]. split; [reflexivity |]. split; [reflexivity |].
    intros ps qs Hfile _. exfalso. exact (Hopen ps Hfile).
  - destruct (process_pdf_stage_failure lib self pdf_path output_path w ps e Hfile Hstages)
      as (w' & out & -> & Hfiles & _).
    rewrite Hfiles.
    split; [reflexivity |]. split; [reflexivity |]. split; [reflexivity |].
    intros ps' qs Hfile' Hstages'. congruence.
  - destruct (process_pdf_save_failure lib self pdf_path output_path w ps qs e
                Hfile Hstages Hsave) as (w' & -> & Hfiles & _).
    rewrite Hfiles. unfold after_failed_save.
    split; [reflexivity |].
    split.
    { intros p Hp. destruct (doc_save_partial lib qs output_path); [| reflexivity].
      apply lookup_insert_ne. congruence. }
    split.
    { intros Hnone. exfalso. exact (Hnone ps qs Hfile Hstages). }
    intros ps' qs' Hfile' Hstages'.
    assert (ps' = ps) by congruence. subst ps'.
    assert (qs' = qs) by congruence. subst qs'.
    destruct (doc_save_partial lib qs output_path); [apply lookup_insert_eq | reflexivity].
Qed.

Lemma process_pdf_failure_output_witness :
  let '(r, w') := process_pdf Demo.lib (Demo.corruptor (Some Demo.counting))
                    "junk.pdf" "out.pdf" (initial_world Demo.storage 0%nat) in
  r = Ok (false, 0) /\
  (forall p, p <> "out.pdf" -> files w' !! p = Demo.storage !! p) /\
  ((forall ps qs, Demo.storage !! "junk.pdf" = Some (PdfFile ps) ->
                  all_stages Demo.lib (Demo.corruptor (Some Demo.counting)) 0 ps <> Ok qs) ->
   files w' = Demo.storage) /\
  (forall ps qs, Demo.storage !! "junk.pdf" = Some (PdfFile ps) ->
                 all_stages Demo.lib (Demo.corruptor (Some Demo.counting)) 0 ps = Ok qs ->
   files w' !! "out.pdf"
   = match doc_save_partial Demo.lib qs "out.pdf" with
     | Some b => Some b
     | None => Demo.storage !! "out.pdf"
     end).
Proof.
  apply (process_pdf_failure_output Demo.lib (Demo.corruptor (Some Demo.counting))
           "junk.pdf" "out.pdf" (initial_world Demo.storage 0%nat)).
  apply open_error. intros ps. vm_compute. discriminate.
Defined.

(** The events of a whole run, one per page. *)
Lemma events_from_lookup {St} (self : PDFCorruptor St) (cb : Callback St) (N i : nat) :
  progress_callback self = Some cb ->
  (i < N)%nat ->
  events_from self N 0 N !! i = Some (event_at N i).
Proof.
  intros Hcb Hi. unfold events_from. rewrite Hcb.
  rewrite list_lookup_fmap, lookup_seq_lt by exact Hi. reflexivity.
Qed.

Lemma events_from_length {St} (self : PDFCorruptor St) (cb : Callback St) (N k n : nat) :
  progress_callback self = Some cb ->
  length (events_from self N k n) = n.
Proof.
  intros Hcb. unfold events_from. rewrite Hcb, length_map, length_seq. reflexivity.
Qed.

(** A run that returns success went through every stage. *)
Lemma process_pdf_success_inv {St} (lib : Library) (self : PDFCorruptor St)
    (pdf_path output_path : string) (w : World St) (ps : list Page) (n : Z) :
  files w !! pdf_path = Some (PdfFile ps) ->
  fst (process_pdf lib self pdf_path output_path w) = Ok (true, n) ->
  n = Z.of_nat (length ps) /\
  invocations (snd (process_pdf lib self pdf_path output_path w))
  = invocations w ++ events_from self (length ps) 0 (length ps).
Proof.
  intros Hfile Hrun.
  destruct (all_stages lib self 0 ps) as [qs | e] eqn:Hstages.
  - destruct (doc_save lib qs output_path) as [[] | e] eqn:Hsave.
    + destruct (process_pdf_success lib self pdf_path output_path w ps qs Hfile Hstages Hsave)
        as (w' & Heq & _ & _ & _ & Hinv & _).
      rewrite Heq in Hrun |- *. cbn [fst snd] in *.
      split; [congruence | exact Hinv].
    + destruct (process_pdf_save_failure lib self pdf_path output_path w ps qs e
                  Hfile Hstages Hsave) as (w' & Heq & _).
      rewrite Heq in Hrun. discriminate Hrun.
  - destruct (process_pdf_stage_failure lib self pdf_path output_path w ps e Hfile Hstages)
      as (w' & out & Heq & _).
    rewrite Heq in Hrun. discriminate Hrun.
Qed.

(** C5: whatever the callback does, and so also when it raises on each
    invocation, a run whose stages and save succeed returns [(True, N)]; the
    callback has been invoked for each of the [N] pages. *)
Theorem process_pdf_swallows_callback_errors {St} (lib : Library) (self : PDFCorruptor St)
    (cb : Callback St) (pdf_path output_path : string) (w : World St)
    (ps qs : list Page) :
  progress_callback self = Some cb ->
  files w !! pdf_path = Some (PdfFile ps) ->
  all_stages lib self 0 ps = Ok qs ->
  doc_save lib qs output_path = Ok tt ->
  let '(r, w') := process_pdf lib self pdf_path output_path w in
  r = Ok (true, Z.of_nat (length ps)) /\
  length (invocations w') = (length (invocations w) + length ps)%nat.
Proof.
  intros Hcb Hfile Hstages Hsave.
  destruct (process_pdf_success lib self pdf_path output_path w ps qs Hfile Hstages Hsave)
    as (w' & -> & _ & _ & _ & Hinv & _).
  split; [reflexivity |].
  rewrite Hinv, length_app, (events_from_length self cb) by exact Hcb. reflexivity.
Qed.

Lemma process_pdf_swallows_callback_errors_witness :
  (forall p c t s, fst (Demo.throwing p c t s) = Raise (RuntimeError "reporter failed")) /\
  let '(r, w') := process_pdf Demo.lib (Demo.plain (Some Demo.throwing))
                    "three.pdf" "out.pdf" (initial_world Demo.storage tt) in
  r = Ok (true, 3) /\
  length (invocations w') = 3%nat.
Proof.
  split; [reflexivity |].
  apply (process_pdf_swallows_callback_errors Demo.lib (Demo.plain (Some Demo.throwing))
           Demo.throwing "three.pdf" "out.pdf" (initial_world Demo.storage tt)
           [Demo.a4; Demo.a4; Demo.a4]
           (let p := {| page_width := 595; page_height := 842;
                        content := FullImage (0, 0, 595, 842) [] |} in [p; p; p]));
    vm_compute; reflexivity.
Defined.

(** C10, as stated, fails: on a document without pages the page loop does
    nothing and the save decides; a library that refuses to save an empty
    document makes the run return [(False, 0)]. *)
Lemma process_pdf_empty_save_can_fail :
  ~ (forall (lib : Library) (self : PDFCorruptor nat) (pdf_path output_path : string)
            (w : World nat),
        files w !! pdf_path = Some (PdfFile []) ->
        let '(r, w') := process_pdf lib self pdf_path output_path w in
        r = Ok (true, 0) /\
        invocations w' = invocations w /\
        files w' !! output_path = Some (PdfFile [])).
Proof.
  intros H.
  specialize (H Demo.lib_no_empty_save (Demo.corruptor (Some Demo.counting))
                "empty.pdf" "out.pdf" (initial_world Demo.storage 0%nat) eq_refl).
  vm_compute in H. destruct H as [H _]. discriminate H.
Qed.

(** C10, amended: for a source that opens with no pages the callback is
    never invoked and no page cycle runs; the run returns [(True, 0)] with an
    empty document stored at the output path when the save succeeds, and
    [(False, 0)] when the save raises, the storage then being what the
    failed save left. *)
Theorem process_pdf_empty_document {St} (lib : Library) (self : PDFCorruptor St)
    (pdf_path output_path : string) (w : World St) :
  files w !! pdf_path = Some (PdfFile []) ->
  let '(r, w') := process_pdf lib self pdf_path output_path w in
  invocations w' = invocations w /\
  reporter w' = reporter w /\
  yields w' = yields w /\
  match doc_save lib [] output_path with
  | Ok _ => r = Ok (true, 0) /\ files w' = <[output_path := PdfFile []]> (files w)
  | Raise _ => r = Ok (false, 0) /\ files w' = after_failed_save lib [] output_path (files w)
  end.
Proof.
  intros Hfile.
  unfold process_pdf, try_except, bind, fitz_open, fitz_open_new, len_pdf_doc, save,
    close_pdf_doc, close_output_doc, ret.
  rewrite Hfile. cbn.
  destruct (doc_save lib [] output_path) as [u | e]; cbn; repeat split.
Qed.

Lemma process_pdf_empty_document_witness :
  (let '(r, w') := process_pdf Demo.lib (Demo.corruptor (Some Demo.counting))
                     "empty.pdf" "out.pdf" (initial_world Demo.storage 0%nat) in
   invocations w' = [] /\
   reporter w' = 0%nat /\
   yields w' = 0%nat /\
   r = Ok (true, 0) /\ files w' = <["out.pdf" := PdfFile []]> Demo.storage) /\
  (let '(r, w') := process_pdf Demo.lib_partial_save (Demo.corruptor (Some Demo.counting))
                     "empty.pdf" "new.pdf" (initial_world Demo.storage 0%nat) in
   invocations w' = [] /\
   reporter w' = 0%nat /\
   yields w' = 0%nat /\
   r = Ok (false, 0) /\
   files w'
   = <["new.pdf" := Garbage [Byte.x25; Byte.x50; Byte.x44; Byte.x46]]> Demo.storage).
Proof.
  split.
  - apply (process_pdf_empty_document Demo.lib (Demo.corruptor (Some Demo.counting))
             "empty.pdf" "out.pdf" (initial_world Demo.storage 0%nat)).
    vm_compute. reflexivity.
  - apply (process_pdf_empty_document Demo.lib_partial_save
             (Demo.corruptor (Some Demo.counting))
             "empty.pdf" "new.pdf" (initial_world Demo.storage 0%nat)).
    vm_compute. reflexivity.
Defined.

(** ** The transformation chain *)

Lemma imap_fixed {A} (f : nat -> A -> A) (l : list A) :
  imap f l = l <-> forall i c, l !! i = Some c -> f i c = c.
Proof.
  split.
  - intros Heq i c Hc.
    assert (H : imap f l !! i = Some c) by (rewrite Heq; exact Hc).
    rewrite list_lookup_imap, Hc in H. cbn in H. injection H as H. exact H.
  - intros H. apply list_eq. intros i. rewrite list_lookup_imap.
    destruct (l !! i) as [c |] eqn:Hc; cbn; [| reflexivity].
    f_equal. apply H. exact Hc.
Qed.

Lemma image_with_data (image : Image) (d : list Z) :
  {| width := width image; height := height image; data := d |} = image
  <-> d = data image.
Proof.
  destruct image as [w h d0]. cbn [width height data]. split.
  - intros H. injection H as H. exact H.
  - intros ->. reflexivity.
Qed.

(** C8: with a positive [noise_amount], whatever the generator draws, the
    noise stage returns an image of the same shape in which every channel is
    the truncation of the binary64 sum of channel and draw clipped to
    [0, 255]: the clipped number lies from 0 to 255, so does every channel,
    and the conversion to 8 bits does not wrap. *)
Theorem add_noise_channels_in_range {St} (lib : Library) (self : PDFCorruptor St)
    (call : nat) (image : Image) (noise : nat -> Draw) :
  0 < noise_amount self ->
  random_normal lib call (noise_amount self) (length (data image)) = Ok noise ->
  exists out,
    add_noise lib self call image = Ok out /\
    width out = width image /\ height out = height image /\
    length (data out) = length (data image) /\
    Forall (fun v => 0 <= v <= 255) (data out) /\
    forall i c, data image !! i = Some c ->
      let x := np_clip (channel_plus_draw c (noise i)) 0 255 in
      SFleb (float_of_int 0) x = true /\ SFleb x (float_of_int 255) = true /\
      0 <= float_trunc x <= 255 /\
      data out !! i = Some (float_trunc x).
Proof.
  intros Hpos Hdraw. unfold add_noise.
  destruct (Z.eqb_spec (noise_amount self) 0) as [H0 | _]; [lia |].
  rewrite Hdraw. cbn [rbind].
  eexists. split; [reflexivity |]. cbn [width height data].
  split; [reflexivity |]. split; [reflexivity |].
  split; [apply length_imap |].
  split.
  - apply Forall_forall. intros v Hv.
    apply list_elem_of_lookup in Hv as [i Hi].
    rewrite list_lookup_imap in Hi.
    destruct (data image !! i) as [c |]; cbn in Hi; [| discriminate].
    injection Hi as <-. apply astype_uint8_clipped, channel_plus_draw_rounded.
  - intros i c Hc. cbv zeta.
    destruct (np_clip_rounded _ (channel_plus_draw_rounded c (noise i))) as (Hlo & Hhi & Hin).
    split; [exact Hlo |]. split; [exact Hhi |]. split; [exact Hin |].
    rewrite list_lookup_imap, Hc. cbn. f_equal.
    apply astype_uint8_clipped, channel_plus_draw_rounded.
Qed.

Lemma add_noise_channels_in_range_witness :
  exists out,
    add_noise Demo.lib (Demo.corruptor (@None (Callback unit))) 0 Demo.pixels = Ok out /\
    width out = 1 /\ height out = 1 /\
    length (data out) = 3%nat /\
    Forall (fun v => 0 <= v <= 255) (data out) /\
    forall i c, data Demo.pixels !! i = Some c ->
      let x := np_clip (channel_plus_draw c (Demo.wild_draws i)) 0 255 in
      SFleb (float_of_int 0) x = true /\ SFleb x (float_of_int 255) = true /\
      0 <= float_trunc x <= 255 /\
      data out !! i = Some (float_trunc x).
Proof.
  apply (add_noise_channels_in_range Demo.lib (Demo.corruptor (@None (Callback unit)))
           0 Demo.pixels Demo.wild_draws).
  - reflexivity.
  - reflexivity.
Defined.

Example add_noise_wild :
  add_noise Demo.lib (Demo.corruptor (@None (Callback unit))) 0 Demo.pixels
  = Ok {| width := 1; height := 1; data := [255; 0; 255] |}.
Proof. vm_compute. reflexivity. Qed.

(** C7, as stated, fails in its "only if" half: with [noise_amount = 20] and
    draws of one half on every channel the noise stage returns the very
    image it was given. *)
Lemma add_noise_identity_without_zero :
  ~ (forall (lib : Library) (self : PDFCorruptor unit) (call : nat) (image out : Image),
        add_noise lib self call image = Ok out ->
        (out = image <-> noise_amount self = 0)).
Proof.
  intros H.
  assert (Hrun : add_noise Demo.lib_quiet (Demo.corruptor (@None (Callback unit))) 0%nat
                   Demo.pixels
                 = Ok Demo.pixels) by (vm_compute; reflexivity).
  destruct (H _ _ _ _ _ Hrun) as [Hzero _].
  specialize (Hzero eq_refl). discriminate Hzero.
Qed.

(** C7, amended: [process_page] is blur, then skew, then noise. A stage
    whose parameter is 0 returns its input unchanged, so with the three
    parameters 0 the page comes back as it was. With a parameter that is
    not 0 the blur and the skew stage return what the library transform
    returns; the noise stage returns the image in which every channel is the
    binary64 sum of channel and draw, clipped and truncated, and that is its
    input exactly when every draw leaves its channel as it is, which is so
    whenever the channels lie from 0 to 255 and the draws from 0 to one
    half. *)
Theorem process_page_chain {St} (lib : Library) (self : PDFCorruptor St)
    (call : nat) (image : Image) :
  process_page lib self call image
  = rbind (add_blur lib self image)
      (fun blurred => rbind (add_skew lib self blurred)
         (fun skewed => add_noise lib self call skewed)) /\
  (blur_amount self = 0 -> add_blur lib self image = Ok image) /\
  (skew_amount self = 0 -> add_skew lib self image = Ok image) /\
  (noise_amount self = 0 -> add_noise lib self call image = Ok image) /\
  (blur_amount self = 0 -> skew_amount self = 0 -> noise_amount self = 0 ->
   process_page lib self call image = Ok image) /\
  (blur_amount self <> 0 ->
   add_blur lib self image = GaussianBlur lib (Z.max 1 (blur_amount self)) image) /\
  (skew_amount self <> 0 ->
   add_skew lib self image
   = warpAffine lib (width image / 2, height image / 2) (skew_amount self) image) /\
  (noise_amount self <> 0 ->
   forall noise,
     random_normal lib call (noise_amount self) (length (data image)) = Ok noise ->
     let channel i c := astype_uint8 (np_clip (channel_plus_draw c (noise i)) 0 255) in
     add_noise lib self call image
     = Ok {| width := width image; height := height image;
             data := imap channel (data image) |} /\
     (add_noise lib self call image = Ok image
      <-> forall i c, data image !! i = Some c -> channel i c = c) /\
     ((forall i c, data image !! i = Some c ->
         0 <= c <= 255 /\ (0 <= draw_value (noise i) <= 1 # 2)%Q) ->
      add_noise lib self call image = Ok image)).
Proof.
  assert (Hchain : process_page lib self call image
                   = rbind (add_blur lib self image)
                       (fun blurred => rbind (add_skew lib self blurred)
                          (fun skewed => add_noise lib self call skewed))).
  { unfold process_page.
    destruct (add_blur lib self image) as [b | e]; cbn [rbind]; [| reflexivity].
    destruct (add_skew lib self b) as [s | e]; cbn [rbind]; [| reflexivity].
    destruct (add_noise lib self call s); reflexivity. }
  split; [exact Hchain |].
  split; [intros H; unfold add_blur; rewrite H; reflexivity |].
  split; [intros H; unfold add_skew; rewrite H; reflexivity |].
  split; [intros H; unfold add_noise; rewrite H; reflexivity |].
  split.
  { intros Hb Hs Hn. rewrite Hchain. unfold add_blur. rewrite Hb. cbn [Z.eqb rbind].
    unfold add_skew. rewrite Hs. cbn [Z.eqb rbind].
    unfold add_noise. rewrite Hn. reflexivity. }
  split; [intros H; apply Z.eqb_neq in H; unfold add_blur; rewrite H; reflexivity |].
  split; [intros H; apply Z.eqb_neq in H; unfold add_skew; rewrite H; reflexivity |].
  intros H noise Hdraw. cbv zeta.
  assert (Hrun : add_noise lib self call image
                 = Ok {| width := width image; height := height image;
                         data := imap (fun i c =>
                                   astype_uint8 (np_clip (channel_plus_draw c (noise i)) 0 255))
                                   (data image) |}).
  { apply Z.eqb_neq in H. unfold add_noise. rewrite H, Hdraw. reflexivity. }
  assert (Hiff : add_noise lib self call image = Ok image
                 <-> forall i c, data image !! i = Some c ->
                       astype_uint8 (np_clip (channel_plus_draw c (noise i)) 0 255) = c).
  { rewrite Hrun, <- imap_fixed, <- image_with_data. split.
    - intros Heq. injection Heq as Heq. rewrite Heq. destruct image; reflexivity.
    - intros Heq. f_equal. exact Heq. }
  split; [exact Hrun |]. split; [exact Hiff |].
  intros Hsmall. apply Hiff. intros i c Hc.
  destruct (Hsmall i c Hc) as [Hin Hd]. apply noisy_channel_kept; assumption.
Qed.

Lemma process_page_chain_witness :
  process_page Demo.lib (Demo.plain (@None (Callback unit))) 0 Demo.pixels = Ok Demo.pixels /\
  add_noise Demo.lib_quiet (Demo.corruptor (@None (Callback unit))) 0 Demo.pixels
  = Ok Demo.pixels.
Proof.
  split.
  - destruct (process_page_chain Demo.lib (Demo.plain (@None (Callback unit))) 0 Demo.pixels)
      as (_ & _ & _ & _ & Hplain & _).
    exact (Hplain eq_refl eq_refl eq_refl).
  - destruct (process_page_chain Demo.lib_quiet (Demo.corruptor (@None (Callback unit)))
                0 Demo.pixels) as (_ & _ & _ & _ & _ & _ & _ & Hnoise).
    assert (Hne : noise_amount (Demo.corruptor (@None (Callback unit))) <> 0) by discriminate.
    destruct (Hnoise Hne (fun _ => (1, -1)) eq_refl) as (_ & _ & Hkept).
    apply Hkept. intros i c Hc.
    destruct i as [| [| [| i]]]; cbn in Hc; try discriminate; injection Hc as <-;
      (split; [lia | split; discriminate]).
Defined.

(** ** [handle_text_input] *)

Lemma documented_range_keys (key : string) (lo hi : Z) :
  Settings.documented_range key = Some (lo, hi) ->
  (key = "blur" /\ lo = 0 /\ hi = 20) \/
  (key = "skew" /\ lo = -45 /\ hi = 45) \/
  (key = "noise" /\ lo = 0 /\ hi = 50) \/
  (key = "quality" /\ lo = 10 /\ hi = 100) \/
  (key = "dpi" /\ lo = 72 /\ hi = 300).
Proof.
  unfold Settings.documented_range. intros H.
  destruct (String.eqb_spec key "blur") as [-> | _];
    [injection H as <- <-; tauto |].
  destruct (String.eqb_spec key "skew") as [-> | _];
    [injection H as <- <-; tauto |].
  destruct (String.eqb_spec key "noise") as [-> | _];
    [injection H as <- <-; tauto |].
  destruct (String.eqb_spec key "quality") as [-> | _];
    [injection H as <- <-; tauto |].
  destruct (String.eqb_spec key "dpi") as [-> | _];
    [injection H as <- <-; tauto |].
  discriminate H.
Qed.




(** ** The rate limit of [progress_callback] *)

Section RateLimit.
Variable time_time : nat -> Q.
Variable edit_text : Reporter.Message -> result unit.

Lemma Qltb_false (x y : Q) : Reporter.Qltb x y = false -> (y <= x)%Q.
Proof.
  unfold Reporter.Qltb. intros H. apply Qnot_lt_le. intros Hlt.
  apply Qlt_alt in Hlt. unfold Qcompare in H, Hlt. rewrite Hlt in H. discriminate H.
Qed.

(** One invocation: the clock is read once; either nothing is sent, or one
    [edit_text] is attempted under the number of this invocation, the time
    of the last update becomes the time just read, and, when the progress
    is below 100, two seconds or more have passed since the last update. *)
Lemma call_cases (ev : ProgressEvent) (st : Reporter.State) :
  Reporter.reads (Reporter.call time_time edit_text ev st) = S (Reporter.reads st) /\
  ((Reporter.attempts (Reporter.call time_time edit_text ev st) = Reporter.attempts st /\
    Reporter.shown (Reporter.call time_time edit_text ev st) = Reporter.shown st /\
    (Reporter.last_update_time (Reporter.call time_time edit_text ev st) = Reporter.last_update_time st \/
     Reporter.last_update_time (Reporter.call time_time edit_text ev st) = time_time (Reporter.reads st))) \/
   (exists msg,
      Reporter.attempts (Reporter.call time_time edit_text ev st)
      = Reporter.attempts st ++ [(Reporter.reads st, msg)] /\
      (Reporter.shown (Reporter.call time_time edit_text ev st) = Reporter.shown st \/
       Reporter.shown (Reporter.call time_time edit_text ev st)
       = Reporter.shown st ++ [(Reporter.reads st, msg)]) /\
      Reporter.last_update_time (Reporter.call time_time edit_text ev st) = time_time (Reporter.reads st) /\
      (percentComplete ev < 100 ->
       (2 <= time_time (Reporter.reads st) - Reporter.last_update_time st)%Q))).
Proof.
  unfold Reporter.call, Reporter.progress_callback.
  destruct (Reporter.Qltb (time_time (Reporter.reads st) - Reporter.last_update_time st) 2)
    eqn:Hlt;
    destruct (percentComplete ev <? 100) eqn:Hp; cbn [andb].
  1: { cbn. split; [reflexivity |]. left. auto. }
  all: destruct (rbind (int_truediv (20 * percentComplete ev) 100) int_of_float)
    as [filled | e]; cbn [snd Reporter.reads Reporter.attempts Reporter.shown
                           Reporter.last_update_time];
    (split; [reflexivity |]);
    [right | left; auto].
  all: eexists; split; [reflexivity |];
    (split; [destruct (is_ok (edit_text _)); auto |]);
    (split; [reflexivity |]).
  - apply Z.ltb_ge in Hp. lia.
  - intros _. apply Qltb_false. exact Hlt.
  - apply Z.ltb_ge in Hp. lia.
Qed.

Hypothesis clock_monotone :
  forall a b, (a <= b)%nat -> (time_time a <= time_time b)%Q.

Lemma logged_call (ev : ProgressEvent) (st : Reporter.State) :
  Reporter.logged time_time st ->
  Reporter.logged time_time (Reporter.call time_time edit_text ev st).
Proof.
  intros Hst i msg Hin.
  destruct (call_cases ev st) as [Hreads [(Hatt & _ & Hlast) | (m & Hatt & _ & Hlast & _)]];
    rewrite Hreads; rewrite Hatt in Hin.
  - destruct (Hst i msg Hin) as [Hi Ht]. split; [lia |].
    destruct Hlast as [-> | ->]; [exact Ht |].
    apply clock_monotone. lia.
  - rewrite Hlast. apply in_app_or in Hin as [Hin | [Heq | []]].
    + destruct (Hst i msg Hin) as [Hi Ht]. split; [lia |].
      apply clock_monotone. lia.
    + injection Heq as <- <-. split; [lia | apply Qle_refl].
Qed.

Lemma shown_call (ev : ProgressEvent) (st : Reporter.State) :
  incl (Reporter.shown st) (Reporter.attempts st) ->
  incl (Reporter.shown (Reporter.call time_time edit_text ev st))
       (Reporter.attempts (Reporter.call time_time edit_text ev st)).
Proof.
  intros Hincl x Hx.
  destruct (call_cases ev st) as [_ [(Hatt & Hshown & _) | (m & Hatt & Hshown & _)]];
    rewrite Hatt.
  - rewrite Hshown in Hx. apply Hincl. exact Hx.
  - apply in_or_app. destruct Hshown as [Hs | Hs]; rewrite Hs in Hx.
    + left. apply Hincl. exact Hx.
    + apply in_app_or in Hx as [Hx | Hx]; [left; apply Hincl; exact Hx | right; exact Hx].
Qed.

(** Attempts are never taken back. *)
Lemma attempts_kept (events : list ProgressEvent) :
  forall st x,
    In x (Reporter.attempts st) ->
    In x (Reporter.attempts (Reporter.invoke_all time_time edit_text events st)).
Proof.
  induction events as [| ev rest IH]; intros st x Hx; cbn [Reporter.invoke_all];
    [exact Hx |].
  apply IH.
  destruct (call_cases ev st) as [_ [(Hatt & _) | (m & Hatt & _)]]; rewrite Hatt;
    [exact Hx | apply in_or_app; left; exact Hx].
Qed.

(** Later invocations log under later numbers only. *)
Lemma attempts_new (events : list ProgressEvent) :
  forall st n msg,
    In (n, msg) (Reporter.attempts (Reporter.invoke_all time_time edit_text events st)) ->
    In (n, msg) (Reporter.attempts st) \/ (Reporter.reads st <= n)%nat.
Proof.
  induction events as [| ev rest IH]; intros st n msg Hin; cbn [Reporter.invoke_all] in Hin;
    [left; exact Hin |].
  destruct (IH _ _ _ Hin) as [Hold | Hnew].
  - destruct (call_cases ev st) as [_ [(Hatt & _) | (m & Hatt & _)]]; rewrite Hatt in Hold.
    + left. exact Hold.
    + apply in_app_or in Hold as [Hold | [Heq | []]]; [left; exact Hold |].
      injection Heq as <- <-. right. lia.
  - destruct (call_cases ev st) as [Hreads _]. rewrite Hreads in Hnew. right. lia.
Qed.

Lemma shown_attempted (events : list ProgressEvent) :
  forall st,
    incl (Reporter.shown st) (Reporter.attempts st) ->
    incl (Reporter.shown (Reporter.invoke_all time_time edit_text events st))
         (Reporter.attempts (Reporter.invoke_all time_time edit_text events st)).
Proof.
  induction events as [| ev rest IH]; intros st Hincl; cbn [Reporter.invoke_all];
    [exact Hincl |].
  apply IH. apply shown_call. exact Hincl.
Qed.

Lemma rate_limit_from (events : list ProgressEvent) :
  forall st i j ej mi mj,
    Reporter.logged time_time st ->
    In (i, mi) (Reporter.attempts (Reporter.invoke_all time_time edit_text events st)) ->
    In (j, mj) (Reporter.attempts (Reporter.invoke_all time_time edit_text events st)) ->
    (i < j)%nat ->
    (Reporter.reads st <= j)%nat ->
    events !! (j - Reporter.reads st)%nat = Some ej ->
    percentComplete ej < 100 ->
    (time_time j - time_time i < 2)%Q ->
    False.
Proof.
  induction events as [| ev rest IH];
    intros st i j ej mi mj Hst Hi Hj Hij Hreads Hev Hp Hclose.
  - discriminate Hev.
  - cbn [Reporter.invoke_all] in Hi, Hj.
    destruct (call_cases ev st) as [Hr Hcases].
    destruct (Nat.eq_dec j (Reporter.reads st)) as [-> | Hne].
    + rewrite Nat.sub_diag in Hev. injection Hev as ->.
      destruct (attempts_new _ _ _ _ Hj) as [Hj' | Hj']; [| lia].
      destruct (attempts_new _ _ _ _ Hi) as [Hi' | Hi']; [| lia].
      destruct Hcases as [(Hatt & _) | (m & Hatt & _ & _ & Hwait)].
      * rewrite Hatt in Hj'. destruct (Hst _ _ Hj') as [Hlt _]. lia.
      * rewrite Hatt in Hi'. apply in_app_or in Hi' as [Hi' | [Heq | []]].
        -- destruct (Hst _ _ Hi') as [_ Ht]. specialize (Hwait Hp). lra.
        -- injection Heq as Heq _. lia.
    + eapply (IH (Reporter.call time_time edit_text ev st) i j ej mi mj);
        try eassumption.
      * apply logged_call. exact Hst.
      * rewrite Hr. lia.
      * rewrite Hr.
        replace (j - Reporter.reads st)%nat with (S (j - S (Reporter.reads st))) in Hev
          by lia.
        exact Hev.
Qed.

Lemma final_event_attempted (events : list ProgressEvent) :
  forall st j ej,
    (Reporter.reads st <= j)%nat ->
    events !! (j - Reporter.reads st)%nat = Some ej ->
    percentComplete ej = 100 ->
    Reporter.attempted j (Reporter.invoke_all time_time edit_text events st).
Proof.
  induction events as [| ev rest IH]; intros st j ej Hreads Hev Hp.
  - discriminate Hev.
  - cbn [Reporter.invoke_all].
    destruct (Nat.eq_dec j (Reporter.reads st)) as [-> | Hne].
    + rewrite Nat.sub_diag in Hev. injection Hev as ->.
      eexists. apply attempts_kept.
      unfold Reporter.call, Reporter.progress_callback. rewrite Hp.
      rewrite andb_false_r. cbn [rbind int_truediv]. cbn [snd Reporter.attempts].
      apply in_or_app. right. left. reflexivity.
    + destruct (call_cases ev st) as [Hr _].
      apply (IH (Reporter.call time_time edit_text ev st) j ej).
      * rewrite Hr. lia.
      * rewrite Hr.
        replace (j - Reporter.reads st)%nat with (S (j - S (Reporter.reads st))) in Hev
          by lia.
        exact Hev.
      * exact Hp.
Qed.
End RateLimit.

(** C6: with a clock that does not run backwards, of two invocations less
    than two seconds apart the later one, when its progress is below 100,
    attempts no [edit_text] if the earlier one did, so at most one of the two
    is attempted and at most one is visible; and an invocation with progress
    100 always attempts its [edit_text]. *)
Theorem progress_callback_rate_limit (time_time : nat -> Q)
    (edit_text : Reporter.Message -> result unit) (events : list ProgressEvent) :
  (forall a b, (a <= b)%nat -> (time_time a <= time_time b)%Q) ->
  let st := Reporter.invoke_all time_time edit_text events Reporter.initial in
  (forall i j ei ej,
      (i < j)%nat ->
      events !! i = Some ei -> events !! j = Some ej ->
      percentComplete ei < 100 -> percentComplete ej < 100 ->
      (time_time j - time_time i < 2)%Q ->
      ~ (Reporter.attempted i st /\ Reporter.attempted j st) /\
      ~ (Reporter.visible i st /\ Reporter.visible j st)) /\
  (forall j ej,
      events !! j = Some ej -> percentComplete ej = 100 ->
      Reporter.attempted j st).
Proof.
  intros Hclock st.
  assert (Hlogged : Reporter.logged time_time Reporter.initial)
    by (intros i msg []).
  assert (Hshown : incl (Reporter.shown st) (Reporter.attempts st))
    by (apply shown_attempted; intros x []).
  split.
  - intros i j ei ej Hij Hi Hj _ Hpj Hclose.
    assert (Hno : ~ (Reporter.attempted i st /\ Reporter.attempted j st)).
    { intros [[mi Hmi] [mj Hmj]].
      apply (rate_limit_from time_time edit_text Hclock events Reporter.initial
               i j ej mi mj Hlogged Hmi Hmj Hij); cbn [Reporter.reads Reporter.initial];
        try lia; try assumption.
      rewrite Nat.sub_0_r. exact Hj. }
    split; [exact Hno |].
    intros [[mi Hmi] [mj Hmj]]. apply Hno.
    split; eexists; apply Hshown; eassumption.
  - intros j ej Hj Hp.
    apply (final_event_attempted time_time edit_text events Reporter.initial j ej);
      cbn [Reporter.reads Reporter.initial]; try lia; try assumption.
    rewrite Nat.sub_0_r. exact Hj.
Qed.

Lemma progress_callback_rate_limit_witness :
  let time_time := fun n : nat => inject_Z (1700000000 + Z.of_nat n) in
  let events :=
    [ {| percentComplete := 33; currentPage := 1; totalPages := 3 |};
      {| percentComplete := 66; currentPage := 2; totalPages := 3 |};
      {| percentComplete := 100; currentPage := 3; totalPages := 3 |} ] in
  let st := Reporter.invoke_all time_time (fun _ => Ok tt) events Reporter.initial in
  (forall i j ei ej,
      (i < j)%nat ->
      events !! i = Some ei -> events !! j = Some ej ->
      percentComplete ei < 100 -> percentComplete ej < 100 ->
      (time_time j - time_time i < 2)%Q ->
      ~ (Reporter.attempted i st /\ Reporter.attempted j st) /\
      ~ (Reporter.visible i st /\ Reporter.visible j st)) /\
  (forall j ej,
      events !! j = Some ej -> percentComplete ej = 100 ->
      Reporter.attempted j st).
Proof.
  apply (progress_callback_rate_limit (fun n : nat => inject_Z (1700000000 + Z.of_nat n))
           (fun _ => Ok tt)).
  intros a b Hab. unfold Qle. simpl. lia.
Defined.

Example reporter_three_pages :
  let st :=
    Reporter.invoke_all (fun n : nat => inject_Z (1700000000 + Z.of_nat n)) (fun _ => Ok tt)
      [ {| percentComplete := 33; currentPage := 1; totalPages := 3 |};
        {| percentComplete := 66; currentPage := 2; totalPages := 3 |};
        {| percentComplete := 100; currentPage := 3; totalPages := 3 |} ]
      Reporter.initial in
  map fst (Reporter.attempts st) = [0%nat; 2%nat] /\
  map (fun a => Reporter.filled_cells (snd a)) (Reporter.attempts st) = [6; 20].
Proof. vm_compute. split; reflexivity. Qed.

(** * Further properties of the pipeline *)

Section RunDetail.
Context {St : Type}.
Variable lib : Library.
Variable self : PDFCorruptor St.

(** A page cycle that fails has not called the callback and has not
    yielded. *)
Lemma page_cycle_failure (N k : nat) (w : World St) (ps out : list Page) (p : Page)
    (e : exn) :
  opened ps out w -> ps !! k = Some p -> (k < N)%nat ->
  page_stages lib self k p = Raise e ->
  exists w', page_cycle lib self N k w = (Raise e, w') /\
             files w' = files w /\
             invocations w' = invocations w /\
             reporter w' = reporter w /\
             yields w' = yields w /\
             (exists out', opened ps out' w').
Proof.
  intros [Hpdf Hout] Hp Hk.
  unfold page_stages, page_cycle, bind, lift, pdf_doc_getitem.
  rewrite Hpdf. cbn [is_closed pages]. rewrite Hp.
  destruct (get_pixmap lib p (zoom self)) as [pix | e1]; cbn [rbind];
    [| intros [= <-]; exists w; repeat split; exists out; split; assumption].
  destruct (Image_frombytes lib (pix_width pix) (pix_height pix) (samples pix))
    as [image | e1]; cbn [rbind];
    [| intros [= <-]; exists w; repeat split; exists out; split; assumption].
  destruct (process_page lib self k image) as [processed | e1]; cbn [rbind];
    [| intros [= <-]; exists w; repeat split; exists out; split; assumption].
  destruct (jpeg_save lib processed (quality self)) as [img_bytes | e1]; cbn [rbind];
    [| intros [= <-]; exists w; repeat split; exists out; split; assumption].
  unfold new_page. rewrite Hout. cbn [is_closed pages].
  unfold insert_image_new_page. cbn [output_doc set_output_doc pages is_closed].
  destruct (insert_image lib (0, 0, pix_width pix, pix_height pix) img_bytes) as [[] | e1];
    cbn [rbind]; [discriminate |].
  intros [= <-]. eexists. split; [reflexivity |]. repeat split.
  eexists. split; cbn [pdf_doc output_doc set_output_doc]; [exact Hpdf | reflexivity].
Qed.

Lemma after_cycle_reporter (N k : nat) (q : Page) (w : World St) :
  reporter (after_cycle self N k q w)
  = feed_opt (progress_callback self) (events_from self N k 1) (reporter w).
Proof.
  unfold after_cycle, yielded, notified, appended, events_from, feed_opt.
  destruct (progress_callback self), (output_doc w); reflexivity.
Qed.

Lemma feed_opt_app (cb : option (Callback St)) (a b : list ProgressEvent) (s : St) :
  feed_opt cb (a ++ b) s = feed_opt cb b (feed_opt cb a s).
Proof.
  destruct cb as [cb |]; cbn [feed_opt]; [| reflexivity].
  revert s. induction a as [| ev a IH]; intros s; cbn [app feed]; [reflexivity |].
  apply IH.
Qed.

Lemma after_cycles_reporter (N : nat) (qs : list Page) :
  forall k w,
    reporter (after_cycles self N k qs w)
    = feed_opt (progress_callback self) (events_from self N k (length qs)) (reporter w).
Proof.
  induction qs as [| q qs IH]; intros k w; cbn [after_cycles length].
  - unfold events_from, feed_opt. destruct (progress_callback self); reflexivity.
  - rewrite IH, after_cycle_reporter, (events_from_S self N k (length qs)), feed_opt_app.
    reflexivity.
Qed.

Lemma done_before_spec (rest : list Page) :
  forall k e,
    all_stages lib self k rest = Raise e ->
    (done_before lib self k rest < length rest)%nat /\
    exists p, rest !! done_before lib self k rest = Some p /\
              page_stages lib self (k + done_before lib self k rest) p = Raise e.
Proof.
  induction rest as [| p rest IH]; intros k e H; cbn [all_stages done_before length] in *;
    [discriminate |].
  destruct (page_stages lib self k p) as [q | e1] eqn:Hq; cbn [rbind] in H.
  - destruct (all_stages lib self (S k) rest) as [qs | e2] eqn:Hrest; cbn [rbind] in H;
      [discriminate |].
    injection H as ->. destruct (IH (S k) e Hrest) as (Hlt & p' & Hp' & Hfail).
    split; [lia |]. exists p'. split; [exact Hp' |].
    replace (k + S (done_before lib self (S k) rest))%nat
      with (S k + done_before lib self (S k) rest)%nat by lia.
    exact Hfail.
  - injection H as ->. split; [lia |]. exists p. split; [reflexivity |].
    rewrite Nat.add_0_r. exact Hq.
Qed.

Lemma done_before_all (rest : list Page) :
  forall k qs,
    all_stages lib self k rest = Ok qs -> done_before lib self k rest = length rest.
Proof.
  induction rest as [| p rest IH]; intros k qs H; cbn [all_stages done_before length] in *;
    [reflexivity |].
  destruct (page_stages lib self k p) as [q | e1]; cbn [rbind] in H; [| discriminate].
  destruct (all_stages lib self (S k) rest) as [qs' | e2] eqn:Hrest; cbn [rbind] in H;
    [| discriminate].
  f_equal. eapply IH. exact Hrest.
Qed.

(** The page loop up to the first page that fails: the callback has been
    called, and the loop has yielded, once for each page before it. *)
Lemma page_loop_failure (N : nat) (ps : list Page) (rest : list Page) :
  forall k w out e,
    opened ps out w -> drop k ps = rest -> (k + length rest <= N)%nat ->
    all_stages lib self k rest = Raise e ->
    exists w',
      for_each (seq k (length rest)) (page_cycle lib self N) w = (Raise e, w') /\
      files w' = files w /\
      invocations w'
      = invocations w ++ events_from self N k (done_before lib self k rest) /\
      reporter w'
      = feed_opt (progress_callback self)
          (events_from self N k (done_before lib self k rest)) (reporter w) /\
      yields w' = (yields w + done_before lib self k rest)%nat.
Proof.
  induction rest as [| p rest IH]; intros k w out e Hw Hdrop Hlen Hfail;
    cbn [all_stages length seq for_each done_before] in *; [discriminate |].
  assert (Hp : ps !! k = Some p).
  { rewrite <- (Nat.add_0_r k), <- lookup_drop, Hdrop. reflexivity. }
  assert (Hrest : drop (S k) ps = rest).
  { replace (S k) with (k + 1)%nat by lia. rewrite <- drop_drop, Hdrop. reflexivity. }
  destruct (page_stages lib self k p) as [q | e1] eqn:Hq; cbn [rbind] in Hfail.
  - destruct (all_stages lib self (S k) rest) as [qs | e2] eqn:Hstages; cbn [rbind] in Hfail;
      [discriminate |].
    injection Hfail as ->.
    pose proof (page_cycle_spec lib self N k w ps out p Hw Hp ltac:(lia)) as Hcycle.
    rewrite Hq in Hcycle.
    destruct (IH (S k) (after_cycle self N k q w) (out ++ [q]) e
                (after_cycle_opened self N k q w ps out Hw) Hrest ltac:(lia) Hstages)
      as (w' & Hloop & Hfiles & Hinv & Hrep & Hy).
    exists w'. split; [unfold bind; rewrite Hcycle; exact Hloop |].
    split; [rewrite Hfiles; apply after_cycle_files |].
    split; [rewrite Hinv, after_cycle_invocations,
              (events_from_S self N k (done_before lib self (S k) rest)), app_assoc;
            reflexivity |].
    split; [rewrite Hrep, after_cycle_reporter,
              (events_from_S self N k (done_before lib self (S k) rest)), feed_opt_app;
            reflexivity |].
    rewrite Hy, after_cycle_yields. lia.
  - injection Hfail as ->.
    destruct (page_cycle_failure N k w ps out p e Hw Hp ltac:(lia) Hq)
      as (w' & Hc & Hfiles & Hinv & Hrep & Hy & _).
    exists w'. split; [unfold bind; rewrite Hc; reflexivity |].
    split; [exact Hfiles |].
    unfold events_from, feed_opt.
    destruct (progress_callback self); cbn [seq map feed];
      rewrite app_nil_r, Hrep, Hy, Nat.add_0_r; auto.
Qed.

(** The final world of [process_pdf] once the source has opened: whatever
    the outcome, the callback has seen the events of the first [d] pages and
    the loop has yielded [d] times, where [d] counts the pages done before the
    first failure. *)
Lemma process_pdf_run (pdf_path output_path : string) (w : World St) (ps : list Page) :
  files w !! pdf_path = Some (PdfFile ps) ->
  exists r w',
    process_pdf lib self pdf_path output_path w = (r, w') /\
    (done_before lib self 0 ps <= length ps)%nat /\
    invocations w'
    = invocations w ++ events_from self (length ps) 0 (done_before lib self 0 ps) /\
    reporter w'
    = feed_opt (progress_callback self)
        (events_from self (length ps) 0 (done_before lib self 0 ps)) (reporter w) /\
    yields w' = (yields w + done_before lib self 0 ps)%nat.
Proof.
  intros Hfile.
  unfold process_pdf, try_except, bind at 1, fitz_open. rewrite Hfile.
  unfold bind at 1, fitz_open_new.
  unfold bind at 1, len_pdf_doc. cbn [pdf_doc set_output_doc set_pdf_doc is_closed pages].
  destruct (all_stages lib self 0 ps) as [qs | e] eqn:Hstages.
  - pose proof (page_loop_spec lib self (length ps) ps ps 0 _ [] (after_open ps w) eq_refl
                  ltac:(lia)) as Hloop.
    rewrite Hstages in Hloop.
    unfold bind at 1. rewrite Hloop.
    pose proof (after_cycles_opened self (length ps) ps qs 0 _ [] (after_open ps w))
      as [Hpdf Hout].
    cbn [app] in Hout.
    rewrite (done_before_all ps 0 qs Hstages).
    pose proof (all_stages_length lib self ps 0 qs Hstages) as Hlen.
    unfold bind at 1, save. rewrite Hout. cbn [is_closed pages].
    destruct (doc_save lib qs output_path) as [[] | e].
    + unfold bind at 1. cbn [pdf_doc set_files]. rewrite Hpdf. cbn [is_closed pages].
      unfold bind at 1, close_pdf_doc. cbn [pdf_doc set_files]. rewrite Hpdf.
      unfold bind at 1, close_output_doc. cbn [output_doc set_files set_pdf_doc].
      rewrite Hout. unfold ret.
      eexists _, _. split; [reflexivity |].
      cbn [invocations reporter yields set_output_doc set_pdf_doc set_files].
      rewrite after_cycles_invocations, after_cycles_reporter, after_cycles_yields, Hlen.
      repeat split. lia.
    + unfold ret. eexists _, _. split; [reflexivity |].
      cbn [invocations reporter yields set_files].
      rewrite after_cycles_invocations, after_cycles_reporter, after_cycles_yields, Hlen.
      repeat split. lia.
  - destruct (page_loop_failure (length ps) ps ps 0 _ [] e (after_open ps w) eq_refl
                ltac:(lia) Hstages) as (w' & Hloop & _ & Hinv & Hrep & Hy).
    unfold bind at 1. rewrite Hloop. unfold ret.
    eexists _, _. split; [reflexivity |].
    destruct (done_before_spec ps 0 e Hstages) as [Hlt _].
    split; [lia |]. split; [exact Hinv |]. split; [exact Hrep | exact Hy].
Qed.
End RunDetail.

(** C4: in a successful run over [N >= 1] pages with a callback, the
    callback is invoked exactly [N] times; the invocation for page [i]
    (counted from 0) carries [currentPage = i + 1], [totalPages = N] and the
    percentage [int((i + 1) / N * 100)], and the last one carries
    [percentComplete = 100]. The invocations are real calls: the state the
    callback owns ends as the callback leaves it after these [N] calls, made
    in this order. *)
Theorem process_pdf_progress_events {St} (lib : Library) (self : PDFCorruptor St)
    (cb : Callback St) (pdf_path output_path : string) (w : World St)
    (ps : list Page) (n : Z) :
  progress_callback self = Some cb ->
  files w !! pdf_path = Some (PdfFile ps) ->
  invocations w = [] ->
  (1 <= length ps)%nat ->
  fst (process_pdf lib self pdf_path output_path w) = Ok (true, n) ->
  let w' := snd (process_pdf lib self pdf_path output_path w) in
  let events := invocations w' in
  let N := length ps in
  length events = N /\
  (forall i, (i < N)%nat ->
     exists ev, events !! i = Some ev /\
                currentPage ev = Z.of_nat i + 1 /\
                totalPages ev = Z.of_nat N /\
                progress_percent (Z.of_nat i) (Z.of_nat N) = Ok (percentComplete ev)) /\
  (exists ev, last events = Some ev /\ percentComplete ev = 100) /\
  reporter w' = feed cb events (reporter w).
Proof.
  intros Hcb Hfile Hinv Hlen Hrun. cbv zeta.
  destruct (process_pdf_success_inv lib self pdf_path output_path w ps n Hfile Hrun)
    as [_ Hevents].
  assert (Hdone : done_before lib self 0 ps = length ps).
  { destruct (all_stages lib self 0 ps) as [qs | e] eqn:Hstages.
    - eapply done_before_all. exact Hstages.
    - destruct (process_pdf_stage_failure lib self pdf_path output_path w ps e Hfile Hstages)
        as (w' & out & Heq & _).
      rewrite Heq in Hrun. discriminate Hrun. }
  destruct (process_pdf_run lib self pdf_path output_path w ps Hfile)
    as (r & w' & Heq & _ & _ & Hrep & _).
  rewrite Heq in Hevents |- *. cbn [snd] in *.
  rewrite Hdone, Hcb in Hrep. cbn [feed_opt] in Hrep.
  rewrite Hevents, Hinv. cbn [app].
  split; [eapply events_from_length; exact Hcb |].
  split.
  - intros i Hi. exists (event_at (length ps) i).
    split; [eapply events_from_lookup; eassumption |].
    split; [reflexivity |]. split; [reflexivity |].
    cbn [event_at percentComplete]. apply percent_at_spec. exact Hi.
  - split; [| exact Hrep].
    destruct (length ps) as [| m] eqn:HN; [lia |].
    exists (event_at (S m) m). split.
    + rewrite last_lookup, (events_from_length self cb) by exact Hcb.
      cbn [Init.Nat.pred]. eapply events_from_lookup; [exact Hcb | lia].
    + cbn [event_at percentComplete]. apply percent_at_last.
Qed.

Lemma process_pdf_progress_events_witness :
  let w' := snd (process_pdf Demo.lib (Demo.corruptor (Some Demo.counting))
                   "five.pdf" "out.pdf" (initial_world Demo.storage 0%nat)) in
  let events := invocations w' in
  let N := length [Demo.a4; Demo.a4; Demo.a4; Demo.a4; Demo.a4] in
  length events = N /\
  (forall i, (i < N)%nat ->
     exists ev, events !! i = Some ev /\
                currentPage ev = Z.of_nat i + 1 /\
                totalPages ev = Z.of_nat N /\
                progress_percent (Z.of_nat i) (Z.of_nat N) = Ok (percentComplete ev)) /\
  (exists ev, last events = Some ev /\ percentComplete ev = 100) /\
  reporter w' = feed Demo.counting events 0%nat.
Proof.
  apply (process_pdf_progress_events Demo.lib (Demo.corruptor (Some Demo.counting))
           Demo.counting "five.pdf" "out.pdf" (initial_world Demo.storage 0%nat)
           [Demo.a4; Demo.a4; Demo.a4; Demo.a4; Demo.a4] 5);
    solve [reflexivity | cbn; lia | vm_compute; reflexivity].
Defined.


(** X1. The percentage [int((page_num + 1) / total_pages * 100)] of the page
    loop never raises: for every page number below the page count the
    division and the conversion to an integer succeed in binary64. *)
Theorem progress_percent_never_raises (page_num total_pages : nat) :
  (page_num < total_pages)%nat ->
  exists p, progress_percent (Z.of_nat page_num) (Z.of_nat total_pages) = Ok p.
Proof.
  intros H. exists (percent_at total_pages page_num). apply percent_at_spec. exact H.
Qed.

Lemma progress_percent_never_raises_witness :
  exists p, progress_percent (Z.of_nat 28) (Z.of_nat 100) = Ok p.
Proof. apply (progress_percent_never_raises 28 100). lia. Defined.

(** ** Cancellation at [asyncio.sleep(0)] *)

Section Cancellation.
Context {St : Type}.
Variable lib : Library.
Variable self : PDFCorruptor St.
Variable cancel : nat -> bool.

(** A page cycle with cancellation against the one without: they raise
    alike, and where the one without returns, having yielded once, the other
    is cancelled or returns, in the same world. *)
Lemma page_cycle_cancellable (N k : nat) (w : World St) :
  match page_cycle lib self N k w with
  | (Ok _, w1) =>
      yields w1 = S (yields w) /\
      Cancellable.page_cycle lib self cancel N k w
      = (if cancel (yields w) then Cancellable.Cancelled else Cancellable.Returned tt, w1)
  | (Raise e, w1) =>
      Cancellable.page_cycle lib self cancel N k w = (Cancellable.Raised e, w1)
  end.
Proof.
  unfold page_cycle, Cancellable.page_cycle, Cancellable.bind, Cancellable.run, bind, lift,
    pdf_doc_getitem.
  destruct (pdf_doc w) as [d |]; [| reflexivity].
  destruct (is_closed d); [reflexivity |].
  destruct (pages d !! k) as [p |]; [| reflexivity].
  destruct (get_pixmap lib p (zoom self)) as [pix | e]; [| reflexivity].
  destruct (Image_frombytes lib (pix_width pix) (pix_height pix) (samples pix))
    as [image | e]; [| reflexivity].
  destruct (process_page lib self k image) as [processed | e]; [| reflexivity].
  destruct (jpeg_save lib processed (quality self)) as [img_bytes | e]; [| reflexivity].
  unfold new_page.
  destruct (output_doc w) as [o |]; [| reflexivity].
  destruct (is_closed o); [reflexivity |].
  unfold insert_image_new_page. cbn [output_doc set_output_doc].
  destruct (insert_image lib (0, 0, pix_width pix, pix_height pix) img_bytes) as [[] | e];
    [| reflexivity].
  unfold report_progress, Cancellable.asyncio_sleep_0, asyncio_sleep_0, yielded.
  destruct (progress_callback self) as [cb |].
  - unfold bind, lift, try_except, await_callback, ret.
    destruct (progress_percent (Z.of_nat k) (Z.of_nat N)) as [progress | e];
      [| reflexivity].
    cbn [reporter set_output_doc].
    destruct (cb progress (Z.of_nat k + 1) (Z.of_nat N) (reporter w)) as [[[] | e] s'];
      cbn [yields]; split; reflexivity.
  - unfold ret. cbn [yields set_output_doc]. split; reflexivity.
Qed.

(** Without a cancellation at its yields the loop runs as in [process_pdf]. *)
Lemma for_each_not_cancelled (N : nat) (range : list nat) :
  forall w,
    (forall i, (i < length range)%nat -> cancel (yields w + i) = false) ->
    Cancellable.for_each range (Cancellable.page_cycle lib self cancel N) w
    = Cancellable.run (for_each range (page_cycle lib self N)) w.
Proof.
  induction range as [| k range IH]; intros w Hc; cbn [Cancellable.for_each for_each].
  - reflexivity.
  - unfold Cancellable.bind, Cancellable.run, bind.
    pose proof (page_cycle_cancellable N k w) as Hk.
    destruct (page_cycle lib self N k w) as [[[] | e] w1].
    + destruct Hk as [Hy ->].
      pose proof (Hc 0%nat ltac:(cbn; lia)) as H0. rewrite Nat.add_0_r in H0. rewrite H0.
      rewrite IH; [reflexivity |].
      intros i Hi. rewrite Hy.
      replace (S (yields w) + i)%nat with (yields w + S i)%nat by lia.
      apply Hc. cbn. lia.
    + rewrite Hk. reflexivity.
Qed.

(** A cancellation at the yield that ends cycle [n] stops the loop there, in
    the world the cycles up to [n] have made. *)
Lemma for_each_cancelled (N : nat) (range : list nat) :
  forall n w w',
    (n < length range)%nat ->
    cancel (yields w + n) = true ->
    (forall i, (i < n)%nat -> cancel (yields w + i) = false) ->
    for_each (take (S n) range) (page_cycle lib self N) w = (Ok tt, w') ->
    Cancellable.for_each range (Cancellable.page_cycle lib self cancel N) w
    = (Cancellable.Cancelled, w').
Proof.
  induction range as [| k range IH]; intros n w w' Hn Ht Hf Hrun; cbn [length] in Hn;
    [lia |].
  cbn [take for_each] in Hrun. unfold bind in Hrun.
  cbn [Cancellable.for_each]. unfold Cancellable.bind.
  pose proof (page_cycle_cancellable N k w) as Hk.
  destruct (page_cycle lib self N k w) as [[[] | e] w1]; [| discriminate].
  destruct Hk as [Hy ->].
  destruct n as [| n].
  - rewrite Nat.add_0_r in Ht. rewrite Ht.
    cbn [take for_each] in Hrun. unfold ret in Hrun. injection Hrun as <-. reflexivity.
  - pose proof (Hf 0%nat ltac:(lia)) as H0. rewrite Nat.add_0_r in H0. rewrite H0.
    apply (IH n w1 w'); [lia | | | exact Hrun].
    + rewrite Hy. replace (S (yields w) + n)%nat with (yields w + S n)%nat by lia. exact Ht.
    + intros i Hi. rewrite Hy.
      replace (S (yields w) + i)%nat with (yields w + S i)%nat by lia.
      apply Hf. lia.
Qed.

Lemma done_before_le (rest : list Page) :
  forall k, (done_before lib self k rest <= length rest)%nat.
Proof.
  induction rest as [| p rest IH]; intros k; cbn [done_before length]; [lia |].
  destruct (page_stages lib self k p); [| lia].
  specialize (IH (S k)). lia.
Qed.

(** The first [n] cycles of the loop, all of pages that go through their
    stages. *)
Lemma page_loop_prefix (N : nat) (ps : list Page) (rest : list Page) :
  forall n k w out,
    opened ps out w -> drop k ps = rest -> (k + length rest <= N)%nat ->
    (n <= done_before lib self k rest)%nat ->
    exists w',
      for_each (seq k n) (page_cycle lib self N) w = (Ok tt, w') /\
      files w' = files w /\
      yields w' = (yields w + n)%nat /\
      invocations w' = invocations w ++ events_from self N k n /\
      (exists out', opened ps out' w').
Proof.
  induction rest as [| p rest IH]; intros n k w out Hw Hdrop Hlen Hn;
    cbn [done_before length] in *.
  - assert (n = 0%nat) by lia. subst n. exists w. cbn [seq for_each].
    split; [reflexivity |]. split; [reflexivity |]. split; [lia |].
    split; [| exists out; exact Hw].
    unfold events_from. destruct (progress_callback self); cbn; rewrite app_nil_r; reflexivity.
  - destruct n as [| n].
    { exists w. cbn [seq for_each].
      split; [reflexivity |]. split; [reflexivity |]. split; [lia |].
      split; [| exists out; exact Hw].
      unfold events_from. destruct (progress_callback self); cbn; rewrite app_nil_r;
        reflexivity. }
    assert (Hp : ps !! k = Some p).
    { rewrite <- (Nat.add_0_r k), <- lookup_drop, Hdrop. reflexivity. }
    assert (Hrest : drop (S k) ps = rest).
    { replace (S k) with (k + 1)%nat by lia. rewrite <- drop_drop, Hdrop. reflexivity. }
    pose proof (page_cycle_spec lib self N k w ps out p Hw Hp ltac:(lia)) as Hcycle.
    destruct (page_stages lib self k p) as [q | e]; [| lia].
    destruct (IH n (S k) (after_cycle self N k q w) (out ++ [q])
                (after_cycle_opened self N k q w ps out Hw) Hrest ltac:(lia) ltac:(lia))
      as (w' & Hloop & Hfiles & Hy & Hinv & Hopen).
    exists w'. cbn [seq for_each]. unfold bind. rewrite Hcycle.
    split; [exact Hloop |].
    split; [rewrite Hfiles; apply after_cycle_files |].
    split; [rewrite Hy, after_cycle_yields; lia |].
    split; [| exact Hopen].
    rewrite Hinv, after_cycle_invocations, (events_from_S self N k n), app_assoc.
    reflexivity.
Qed.

Lemma bind_run {A B} (c : Cancellable.C St A) (m : M St A)
    (kc : A -> Cancellable.C St B) (k : A -> M St B) (w : World St) :
  c w = Cancellable.run m w ->
  (forall a w', m w = (Ok a, w') -> kc a w' = Cancellable.run (k a) w') ->
  Cancellable.bind c kc w = Cancellable.run (bind m k) w.
Proof.
  intros Hc Hk. unfold Cancellable.bind. rewrite Hc.
  unfold Cancellable.run, bind in *.
  destruct (m w) as [[a | e] w']; [| reflexivity].
  apply Hk. reflexivity.
Qed.

Lemma try_except_run {A} (c : Cancellable.C St A) (m : M St A)
    (hc : exn -> Cancellable.C St A) (h : exn -> M St A) (w : World St) :
  c w = Cancellable.run m w ->
  (forall e w', hc e w' = Cancellable.run (h e) w') ->
  Cancellable.try_except_Exception c hc w = Cancellable.run (try_except m h) w.
Proof.
  intros Hc Hh. unfold Cancellable.try_except_Exception. rewrite Hc.
  unfold Cancellable.run, try_except in *.
  destruct (m w) as [[a | e] w']; [reflexivity |].
  apply Hh.
Qed.

(** A task that is not cancelled at any yield of the loop runs [process_pdf]
    as modelled without cancellation. *)
Lemma process_pdf_not_cancelled (pdf_path output_path : string) (w : World St) :
  (forall ps i, files w !! pdf_path = Some (PdfFile ps) -> (i < length ps)%nat ->
                cancel (yields w + i) = false) ->
  Cancellable.process_pdf lib self cancel pdf_path output_path w
  = Cancellable.run (process_pdf lib self pdf_path output_path) w.
Proof.
  intros Hc. unfold Cancellable.process_pdf, process_pdf.
  apply try_except_run; [| intros e w'; reflexivity].
  apply bind_run; [reflexivity | intros [] w1 H1].
  unfold fitz_open in H1.
  destruct (files w !! pdf_path) as [[ps | raw] |] eqn:Hfile; try discriminate H1.
  injection H1 as <-.
  apply bind_run; [reflexivity | intros [] w2 H2].
  unfold fitz_open_new in H2. injection H2 as <-.
  apply bind_run; [reflexivity | intros total w3 H3].
  unfold len_pdf_doc in H3. cbn [pdf_doc set_output_doc set_pdf_doc is_closed pages] in H3.
  injection H3 as <- <-.
  apply bind_run.
  { apply for_each_not_cancelled. rewrite length_seq. intros i Hi.
    apply (Hc ps i eq_refl Hi). }
  intros [] w4 _.
  apply bind_run; [reflexivity | intros [] w5 _].
  apply bind_run; [reflexivity | intros n w6 _].
  apply bind_run; [reflexivity | intros [] w7 _].
  apply bind_run; [reflexivity | intros [] w8 _].
  reflexivity.
Qed.

(** A task cancelled at the yield that ends cycle [n], after pages that all
    went through their stages, leaves [process_pdf] by the cancellation:
    nothing is saved and both documents stay open. *)
Lemma process_pdf_cancelled (pdf_path output_path : string) (w : World St)
    (ps : list Page) (n : nat) :
  files w !! pdf_path = Some (PdfFile ps) ->
  (n < done_before lib self 0 ps)%nat ->
  cancel (yields w + n) = true ->
  (forall i, (i < n)%nat -> cancel (yields w + i) = false) ->
  exists w',
    Cancellable.process_pdf lib self cancel pdf_path output_path w
    = (Cancellable.Cancelled, w') /\
    files w' = files w /\
    yields w' = (yields w + n + 1)%nat /\
    invocations w' = invocations w ++ events_from self (length ps) 0 (S n) /\
    (exists out, opened ps out w').
Proof.
  intros Hfile Hn Ht Hf.
  pose proof (done_before_le ps 0) as Hle.
  destruct (page_loop_prefix (length ps) ps ps (S n) 0 _ [] (after_open ps w) eq_refl
              ltac:(lia) ltac:(lia)) as (w' & Hloop & Hfiles & Hy & Hinv & Hopen).
  exists w'.
  unfold Cancellable.process_pdf, Cancellable.try_except_Exception.
  unfold Cancellable.bind at 1, Cancellable.run at 1, fitz_open. rewrite Hfile.
  unfold Cancellable.bind at 1, Cancellable.run at 1, fitz_open_new.
  unfold Cancellable.bind at 1, Cancellable.run at 1, len_pdf_doc.
  cbn [pdf_doc set_output_doc set_pdf_doc is_closed pages].
  unfold Cancellable.bind at 1.
  rewrite (for_each_cancelled (length ps) (seq 0 (length ps)) n _ w').
  - split; [reflexivity |]. split; [exact Hfiles |]. split; [rewrite Hy; cbn; lia |].
    split; [exact Hinv | exact Hopen].
  - rewrite length_seq. lia.
  - exact Ht.
  - exact Hf.
  - rewrite take_seq. replace (S n `min` length ps)%nat with (S n) by lia. exact Hloop.
Qed.
End Cancellation.

Lemma process_pdf_two_outcomes {St} (lib : Library) (self : PDFCorruptor St)
    (pdf_path output_path : string) (w : World St) :
  (exists ps qs,
      files w !! pdf_path = Some (PdfFile ps) /\
      all_stages lib self 0 ps = Ok qs /\
      doc_save lib qs output_path = Ok tt /\
      fst (process_pdf lib self pdf_path output_path w) = Ok (true, Z.of_nat (length ps)))
  \/
  (stage_error lib self pdf_path output_path w /\
   fst (process_pdf lib self pdf_path output_path w) = Ok (false, 0)).
Proof.
  destruct (files w !! pdf_path) as [[ps | raw] |] eqn:Hfile.
  - destruct (all_stages lib self 0 ps) as [qs | e] eqn:Hstages.
    + destruct (doc_save lib qs output_path) as [[] | e] eqn:Hsave.
      * left. exists ps, qs.
        destruct (process_pdf_success lib self pdf_path output_path w ps qs
                    Hfile Hstages Hsave) as (w' & -> & _).
        repeat split; assumption.
      * right.
        destruct (process_pdf_save_failure lib self pdf_path output_path w ps qs e
                    Hfile Hstages Hsave) as (w' & -> & _).
        split; [eapply finalize_error; eassumption | reflexivity].
    + right.
      destruct (process_pdf_stage_failure lib self pdf_path output_path w ps e
                  Hfile Hstages) as (w' & out & -> & _).
      split; [eapply page_error; eassumption | reflexivity].
  - right.
    assert (Hno : forall ps, files w !! pdf_path <> Some (PdfFile ps))
      by (intros ps; rewrite Hfile; discriminate).
    rewrite process_pdf_open_failure by exact Hno.
    split; [apply open_error; exact Hno | reflexivity].
  - right.
    assert (Hno : forall ps, files w !! pdf_path <> Some (PdfFile ps))
      by (intros ps; rewrite Hfile; discriminate).
    rewrite process_pdf_open_failure by exact Hno.
    split; [apply open_error; exact Hno | reflexivity].
Qed.

(** X2. How [process_pdf] ends, in a task that can be cancelled at
    [asyncio.sleep(0)]. No [Exception] leaves it. When no cancellation comes
    at a yield of the loop it returns, as modelled without cancellation:
    [(True, N)] when the source opens, every page goes through its stages
    and the save succeeds, [(False, 0)] when a stage raises. When the
    cancellation comes at the yield that ends the cycle of page [n], all
    pages up to [n] having gone through their stages, the cancellation
    leaves the function: there is no result, nothing is saved, the callback
    has been called for pages [1] to [n + 1] and both documents stay open. *)
Theorem process_pdf_outcome {St} (lib : Library) (self : PDFCorruptor St)
    (cancel : nat -> bool) (pdf_path output_path : string) (w : World St) :
  let '(o, w') := Cancellable.process_pdf lib self cancel pdf_path output_path w in
  (forall e, o <> Cancellable.Raised e) /\
  ((forall ps i, files w !! pdf_path = Some (PdfFile ps) -> (i < length ps)%nat ->
                 cancel (yields w + i)%nat = false) ->
   (o, w') = Cancellable.run (process_pdf lib self pdf_path output_path) w /\
   ((exists ps qs,
        files w !! pdf_path = Some (PdfFile ps) /\
        all_stages lib self 0 ps = Ok qs /\
        doc_save lib qs output_path = Ok tt /\
        o = Cancellable.Returned (true, Z.of_nat (length ps)))
    \/
    (stage_error lib self pdf_path output_path w /\
     o = Cancellable.Returned (false, 0)))) /\
  (forall ps n,
      files w !! pdf_path = Some (PdfFile ps) ->
      (n < done_before lib self 0 ps)%nat ->
      cancel (yields w + n)%nat = true ->
      (forall i, (i < n)%nat -> cancel (yields w + i)%nat = false) ->
      o = Cancellable.Cancelled /\
      files w' = files w /\
      yields w' = (yields w + n + 1)%nat /\
      invocations w' = invocations w ++ events_from self (length ps) 0 (S n) /\
      (exists out, opened ps out w')).
Proof.
  destruct (Cancellable.process_pdf lib self cancel pdf_path output_path w) as [o w'] eqn:Hrun.
  split; [| split].
  - intros e ->. revert Hrun.
    unfold Cancellable.process_pdf, Cancellable.try_except_Exception, Cancellable.ret.
    destruct (Cancellable.bind _ _ w) as [[a | e' |] w1]; discriminate.
  - intros Hc. rewrite (process_pdf_not_cancelled lib self cancel _ _ w Hc) in Hrun.
    split; [symmetry; exact Hrun |].
    unfold Cancellable.run in Hrun.
    destruct (process_pdf_two_outcomes lib self pdf_path output_path w)
      as [(ps & qs & Hfile & Hstages & Hsave & Hres) | [Herr Hres]];
      destruct (process_pdf lib self pdf_path output_path w) as [r w1];
      cbn [fst] in Hres; subst r; injection Hrun as <- <-.
    + left. exists ps, qs. repeat split; assumption.
    + right. split; [exact Herr | reflexivity].
  - intros ps n Hfile Hn Ht Hf.
    destruct (process_pdf_cancelled lib self cancel pdf_path output_path w ps n Hfile Hn Ht Hf)
      as (w2 & Hrun2 & Hrest).
    rewrite Hrun2 in Hrun. injection Hrun as <- <-.
    split; [reflexivity | exact Hrest].
Qed.

(** A task cancelled at its first yield, on a document of three pages. *)
Example process_pdf_cancelled_at_first_yield :
  let w := initial_world Demo.storage tt in
  let '(o, w') :=
    Cancellable.process_pdf Demo.lib (Demo.plain (@None (Callback unit))) (fun _ => true)
      "three.pdf" "out.pdf" w in
  o = Cancellable.Cancelled /\ files w' !! "out.pdf" = files w !! "out.pdf" /\
  yields w' = 1%nat /\
  fst (process_pdf Demo.lib (Demo.plain (@None (Callback unit))) "three.pdf" "out.pdf" w)
  = Ok (true, 3).
Proof. vm_compute. repeat split. Qed.

(** X3. The page loop awaits [asyncio.sleep(0)] once for each completed page and
    never otherwise: after any run on a source that opens, the number of
    yields has grown by the number of pages done before the first failure,
    which is the page count when no page fails. *)
Theorem process_pdf_yields_per_page {St} (lib : Library) (self : PDFCorruptor St)
    (pdf_path output_path : string) (w : World St) (ps : list Page) :
  files w !! pdf_path = Some (PdfFile ps) ->
  let w' := snd (process_pdf lib self pdf_path output_path w) in
  yields w' = (yields w + done_before lib self 0 ps)%nat /\
  (done_before lib self 0 ps <= length ps)%nat /\
  (forall qs, all_stages lib self 0 ps = Ok qs ->
              yields w' = (yields w + length ps)%nat).
Proof.
  intros Hfile. cbv zeta.
  destruct (process_pdf_run lib self pdf_path output_path w ps Hfile)
    as (r & w' & -> & Hle & _ & _ & Hy).
  cbn [snd]. split; [exact Hy |]. split; [exact Hle |].
  intros qs Hqs. rewrite Hy, (done_before_all lib self ps 0 qs Hqs). reflexivity.
Qed.

Lemma process_pdf_yields_per_page_witness :
  let w' := snd (process_pdf Demo.lib (Demo.corruptor (Some Demo.counting))
                   "five.pdf" "out.pdf" (initial_world Demo.storage 0%nat)) in
  let ps := [Demo.a4; Demo.a4; Demo.a4; Demo.a4; Demo.a4] in
  yields w' = (0 + done_before Demo.lib (Demo.corruptor (Some Demo.counting)) 0 ps)%nat /\
  (done_before Demo.lib (Demo.corruptor (Some Demo.counting)) 0 ps <= length ps)%nat /\
  (forall qs, all_stages Demo.lib (Demo.corruptor (Some Demo.counting)) 0 ps = Ok qs ->
              yields w' = (0 + length ps)%nat).
Proof.
  apply (process_pdf_yields_per_page Demo.lib (Demo.corruptor (Some Demo.counting))
           "five.pdf" "out.pdf" (initial_world Demo.storage 0%nat)).
  reflexivity.
Defined.

(** X4. Without a callback nothing is reported: in every run of
    [process_pdf] with [progress_callback = None], whatever its outcome, the
    list of invocations and the reporter state are what they were. *)
Theorem process_pdf_without_callback {St} (lib : Library) (self : PDFCorruptor St)
    (pdf_path output_path : string) (w : World St) :
  progress_callback self = None ->
  let w' := snd (process_pdf lib self pdf_path output_path w) in
  invocations w' = invocations w /\ reporter w' = reporter w.
Proof.
  intros Hnone. cbv zeta.
  destruct (files w !! pdf_path) as [[ps | raw] |] eqn:Hfile.
  - destruct (process_pdf_run lib self pdf_path output_path w ps Hfile)
      as (r & w' & -> & _ & Hinv & Hrep & _).
    cbn [snd]. rewrite Hinv, Hrep. unfold events_from, feed_opt. rewrite Hnone.
    rewrite app_nil_r. split; reflexivity.
  - rewrite process_pdf_open_failure by (intros ps; rewrite Hfile; discriminate).
    split; reflexivity.
  - rewrite process_pdf_open_failure by (intros ps; rewrite Hfile; discriminate).
    split; reflexivity.
Qed.

Lemma process_pdf_without_callback_witness :
  let w' := snd (process_pdf Demo.lib (Demo.corruptor (@None (Callback nat)))
                   "three.pdf" "out.pdf" (initial_world Demo.storage 7%nat)) in
  invocations w' = [] /\ reporter w' = 7%nat.
Proof.
  apply (process_pdf_without_callback Demo.lib (Demo.corruptor (@None (Callback nat)))
           "three.pdf" "out.pdf" (initial_world Demo.storage 7%nat)).
  reflexivity.
Defined.

(** X5. The loop stops at the first page that fails: when page [d] is the
    first whose stages raise, [process_pdf] returns [(False, 0)], the
    callback has been invoked for the [d] pages before it and for no other,
    and the reporter state is the callback fed those [d] events. *)
Theorem process_pdf_stops_at_first_failure {St} (lib : Library) (self : PDFCorruptor St)
    (pdf_path output_path : string) (w : World St) (ps : list Page) (e : exn) :
  files w !! pdf_path = Some (PdfFile ps) ->
  all_stages lib self 0 ps = Raise e ->
  let d := done_before lib self 0 ps in
  let '(r, w') := process_pdf lib self pdf_path output_path w in
  r = Ok (false, 0) /\
  (d < length ps)%nat /\
  (exists p, ps !! d = Some p /\ page_stages lib self d p = Raise e) /\
  invocations w' = invocations w ++ events_from self (length ps) 0 d /\
  reporter w'
  = feed_opt (progress_callback self) (events_from self (length ps) 0 d) (reporter w).
Proof.
  intros Hfile Hstages. cbv zeta.
  destruct (process_pdf_run lib self pdf_path output_path w ps Hfile)
    as (r & w' & Hrun & _ & Hinv & Hrep & _).
  destruct (process_pdf_stage_failure lib self pdf_path output_path w ps e Hfile Hstages)
    as (w2 & out & Hrun2 & _).
  rewrite Hrun in Hrun2 |- *. injection Hrun2 as -> <-.
  destruct (done_before_spec lib self ps 0 e Hstages) as (Hlt & p & Hp & Hfail).
  split; [reflexivity |]. split; [exact Hlt |].
  split; [exists p; split; [exact Hp | exact Hfail] |].
  split; [exact Hinv | exact Hrep].
Qed.

Lemma process_pdf_stops_at_first_failure_witness :
  let self := Demo.corruptor (Some Demo.counting) in
  let ps := [Demo.a4; Demo.a4; Demo.broken; Demo.a4] in
  let d := done_before Demo.lib_picky self 0 ps in
  let '(r, w') := process_pdf Demo.lib_picky self "broken.pdf" "out.pdf"
                    (initial_world Demo.storage_with_broken 0%nat) in
  r = Ok (false, 0) /\
  (d < length ps)%nat /\
  (exists p, ps !! d = Some p /\
             page_stages Demo.lib_picky self d p
             = Raise (RuntimeError "cannot render page")) /\
  invocations w' = [] ++ events_from self (length ps) 0 d /\
  reporter w' = feed_opt (progress_callback self) (events_from self (length ps) 0 d) 0%nat.
Proof.
  apply (process_pdf_stops_at_first_failure Demo.lib_picky
           (Demo.corruptor (Some Demo.counting)) "broken.pdf" "out.pdf"
           (initial_world Demo.storage_with_broken 0%nat)
           [Demo.a4; Demo.a4; Demo.broken; Demo.a4]
           (RuntimeError "cannot render page"));
    vm_compute; reflexivity.
Defined.

Example broken_document_run :
  let '(r, w') := process_pdf Demo.lib_picky (Demo.corruptor (Some Demo.counting))
                    "broken.pdf" "out.pdf"
                    (initial_world Demo.storage_with_broken 0%nat) in
  r = Ok (false, 0) /\
  map currentPage (invocations w') = [1; 2] /\
  map percentComplete (invocations w') = [25; 50] /\
  reporter w' = 2%nat /\ yields w' = 2%nat /\
  files w' !! "out.pdf" = Some (Garbage []).
Proof. vm_compute. repeat split; reflexivity. Qed.

(** The storage after a run: unchanged, or the output path overwritten. *)
Lemma process_pdf_files {St} (lib : Library) (self : PDFCorruptor St)
    (pdf_path output_path : string) (w : World St) :
  files (snd (process_pdf lib self pdf_path output_path w)) = files w \/
  exists b,
    files (snd (process_pdf lib self pdf_path output_path w))
    = <[output_path := b]> (files w).
Proof.
  destruct (files w !! pdf_path) as [[ps | raw] |] eqn:Hfile.
  - destruct (all_stages lib self 0 ps) as [qs | e] eqn:Hstages.
    + destruct (doc_save lib qs output_path) as [[] | e] eqn:Hsave.
      * destruct (process_pdf_success lib self pdf_path output_path w ps qs
                    Hfile Hstages Hsave) as (w' & -> & Hfiles & _).
        right. exists (PdfFile qs). exact Hfiles.
      * destruct (process_pdf_save_failure lib self pdf_path output_path w ps qs e
                    Hfile Hstages Hsave) as (w' & -> & Hfiles & _).
        cbn [snd]. rewrite Hfiles. unfold after_failed_save.
        destruct (doc_save_partial lib qs output_path) as [b |];
          [right; exists b; reflexivity | left; reflexivity].
    + destruct (process_pdf_stage_failure lib self pdf_path output_path w ps e
                  Hfile Hstages) as (w' & out & -> & Hfiles & _).
      left. exact Hfiles.
  - rewrite process_pdf_open_failure by (intros ps; rewrite Hfile; discriminate).
    left. reflexivity.
  - rewrite process_pdf_open_failure by (intros ps; rewrite Hfile; discriminate).
    left. reflexivity.
Qed.

(** X6. Paths other than the output path are never touched: after any run
    of [process_pdf] every other path holds what it held before, so the
    source file survives unless it is the output path itself. *)
Theorem process_pdf_other_paths_untouched {St} (lib : Library) (self : PDFCorruptor St)
    (pdf_path output_path path : string) (w : World St) :
  path <> output_path ->
  files (snd (process_pdf lib self pdf_path output_path w)) !! path = files w !! path.
Proof.
  intros Hne.
  destruct (process_pdf_files lib self pdf_path output_path w) as [-> | [qs ->]];
    [reflexivity |].
  apply lookup_insert_ne. congruence.
Qed.

Lemma process_pdf_other_paths_untouched_witness :
  files (snd (process_pdf Demo.lib (Demo.corruptor (Some Demo.counting))
                "three.pdf" "out.pdf" (initial_world Demo.storage 0%nat))) !! "three.pdf"
  = Some (PdfFile [Demo.a4; Demo.a4; Demo.a4]).
Proof.
  apply (process_pdf_other_paths_untouched Demo.lib (Demo.corruptor (Some Demo.counting))
           "three.pdf" "out.pdf" "three.pdf" (initial_world Demo.storage 0%nat)).
  discriminate.
Defined.

Lemma process_pdf_handles_witness :
  let '(r, w') := process_pdf Demo.lib (Demo.corruptor (Some Demo.counting))
                    "three.pdf" "out.pdf" (initial_world Demo.storage 0%nat) in
  (r = Ok (false, 0) /\ handle_open (pdf_doc w') /\ handle_open (output_doc w')) \/
  (r = Ok (true, Z.of_nat (length [Demo.a4; Demo.a4; Demo.a4])) /\
   handle_closed (pdf_doc w') /\ handle_closed (output_doc w')).
Proof.
  apply (process_pdf_handles Demo.lib (Demo.corruptor (Some Demo.counting))
           "three.pdf" "out.pdf" (initial_world Demo.storage 0%nat)).
  reflexivity.
Defined.

Lemma all_stages_lookup {St} (lib : Library) (self : PDFCorruptor St) (rest : list Page) :
  forall k qs i p,
    all_stages lib self k rest = Ok qs ->
    rest !! i = Some p ->
    exists q, qs !! i = Some q /\ page_stages lib self (k + i) p = Ok q.
Proof.
  induction rest as [| p0 rest IH]; intros k qs i p H Hp; [discriminate Hp |].
  cbn [all_stages] in H.
  destruct (page_stages lib self k p0) as [q0 | e] eqn:Hq0; cbn [rbind] in H;
    [| discriminate].
  destruct (all_stages lib self (S k) rest) as [qs' | e] eqn:Hrest; cbn [rbind] in H;
    [| discriminate].
  injection H as <-.
  destruct i as [| i].
  - injection Hp as <-. exists q0. rewrite Nat.add_0_r. split; [reflexivity | exact Hq0].
  - destruct (IH (S k) qs' i p Hrest Hp) as (q & Hq & Hst).
    exists q. split; [exact Hq |].
    replace (k + S i)%nat with (S k + i)%nat by lia. exact Hst.
Qed.

(** X8. Pages keep their order: in a successful run page [i] of the stored
    document is what the stages make of page [i] of the source (rendered at
    [zoom], transformed with draw number [i], encoded at [quality]), with
    the pixel size of its pixmap as its page size. *)
Theorem process_pdf_pagewise {St} (lib : Library) (self : PDFCorruptor St)
    (pdf_path output_path : string) (w : World St) (ps qs : list Page) :
  files w !! pdf_path = Some (PdfFile ps) ->
  all_stages lib self 0 ps = Ok qs ->
  doc_save lib qs output_path = Ok tt ->
  files (snd (process_pdf lib self pdf_path output_path w)) !! output_path
  = Some (PdfFile qs) /\
  forall i p, ps !! i = Some p ->
    exists q pix,
      qs !! i = Some q /\
      page_stages lib self i p = Ok q /\
      get_pixmap lib p (zoom self) = Ok pix /\
      page_width q = pix_width pix /\ page_height q = pix_height pix.
Proof.
  intros Hfile Hstages Hsave.
  destruct (process_pdf_success lib self pdf_path output_path w ps qs Hfile Hstages Hsave)
    as (w' & -> & Hfiles & _).
  cbn [snd]. split; [rewrite Hfiles; apply lookup_insert_eq |].
  intros i p Hp.
  destruct (all_stages_lookup lib self ps 0 qs i p Hstages Hp) as (q & Hq & Hst).
  cbn [Nat.add] in Hst. exists q.
  pose proof Hst as Hst'. unfold page_stages in Hst'.
  destruct (get_pixmap lib p (zoom self)) as [pix | e]; cbn [rbind] in Hst'; [| discriminate].
  exists pix. split; [exact Hq |]. split; [exact Hst |]. split; [reflexivity |].
  destruct (Image_frombytes lib (pix_width pix) (pix_height pix) (samples pix))
    as [image | e]; cbn [rbind] in Hst'; [| discriminate].
  destruct (process_page lib self i image) as [processed | e]; cbn [rbind] in Hst';
    [| discriminate].
  destruct (jpeg_save lib processed (quality self)) as [img_bytes | e]; cbn [rbind] in Hst';
    [| discriminate].
  destruct (insert_image lib (0, 0, pix_width pix, pix_height pix) img_bytes) as [[] | e];
    cbn [rbind] in Hst'; [| discriminate].
  injection Hst' as <-. split; reflexivity.
Qed.

Lemma process_pdf_pagewise_witness :
  let lib := Demo.lib in
  let self := Demo.corruptor (Some Demo.counting) in
  let ps := [Demo.a4; Demo.a4; Demo.a4] in
  let qs := let p := {| page_width := 595; page_height := 842;
                        content := FullImage (0, 0, 595, 842) [] |} in [p; p; p] in
  files (snd (process_pdf lib self "three.pdf" "out.pdf" (initial_world Demo.storage 0%nat)))
    !! "out.pdf" = Some (PdfFile qs) /\
  forall i p, ps !! i = Some p ->
    exists q pix,
      qs !! i = Some q /\
      page_stages lib self i p = Ok q /\
      get_pixmap lib p (zoom self) = Ok pix /\
      page_width q = pix_width pix /\ page_height q = pix_height pix.
Proof.
  apply (process_pdf_pagewise Demo.lib (Demo.corruptor (Some Demo.counting))
           "three.pdf" "out.pdf" (initial_world Demo.storage 0%nat)
           [Demo.a4; Demo.a4; Demo.a4]);
    vm_compute; reflexivity.
Defined.

(** With all three amounts at 0 the chain returns its input. *)
Lemma process_page_plain {St} (lib : Library) (self : PDFCorruptor St)
    (call : nat) (image : Image) :
  blur_amount self = 0 -> skew_amount self = 0 -> noise_amount self = 0 ->
  process_page lib self call image = Ok image.
Proof.
  intros Hb Hs Hn. unfold process_page, add_blur, add_skew, add_noise.
  rewrite Hb, Hs, Hn. reflexivity.
Qed.

Lemma for_each_ext {St} (f g : nat -> M St unit) (range : list nat) :
  (forall i w, f i w = g i w) ->
  forall w, for_each range f w = for_each range g w.
Proof.
  intros Hfg. induction range as [| i rest IH]; intros w; cbn [for_each]; [reflexivity |].
  unfold bind. rewrite Hfg. destruct (g i w) as [[u | e] w']; [apply IH | reflexivity].
Qed.

(** X9. With blur, skew and noise all 0 the pipeline does not depend on the
    blur, rotation and random-number libraries: two libraries that agree on
    rendering, decoding, encoding, insertion and saving (what a save returns
    and what a save that raises leaves) give the same run, value and final
    world. *)
Theorem process_pdf_plain_ignores_effects {St} (lib1 lib2 : Library) (self : PDFCorruptor St)
    (pdf_path output_path : string) (w : World St) :
  blur_amount self = 0 -> skew_amount self = 0 -> noise_amount self = 0 ->
  get_pixmap lib1 = get_pixmap lib2 ->
  Image_frombytes lib1 = Image_frombytes lib2 ->
  jpeg_save lib1 = jpeg_save lib2 ->
  insert_image lib1 = insert_image lib2 ->
  doc_save lib1 = doc_save lib2 ->
  doc_save_partial lib1 = doc_save_partial lib2 ->
  process_pdf lib1 self pdf_path output_path w = process_pdf lib2 self pdf_path output_path w.
Proof.
  intros Hb Hs Hn Hpix Himg Hjpeg Hins Hsave Hpartial.
  assert (Hcycle : forall N i w0, page_cycle lib1 self N i w0 = page_cycle lib2 self N i w0).
  { intros N i w0. unfold page_cycle, bind, lift, insert_image_new_page.
    rewrite Hpix, Himg, Hjpeg, Hins.
    destruct (pdf_doc_getitem i w0) as [[page | e] w1]; [| reflexivity].
    destruct (get_pixmap lib2 page (zoom self)) as [pix | e]; [| reflexivity].
    destruct (Image_frombytes lib2 (pix_width pix) (pix_height pix) (samples pix))
      as [image | e]; [| reflexivity].
    rewrite !process_page_plain by assumption. reflexivity. }
  unfold process_pdf, try_except, bind, save, after_failed_save. rewrite Hsave, Hpartial.
  destruct (fitz_open pdf_path w) as [[u | e] w1]; [| reflexivity].
  destruct (fitz_open_new w1) as [[u1 | e] w2]; [| reflexivity].
  destruct (len_pdf_doc w2) as [[N | e] w3]; [| reflexivity].
  rewrite (for_each_ext _ _ (seq 0 N) (Hcycle N) w3). reflexivity.
Qed.

Lemma process_pdf_plain_ignores_effects_witness :
  process_pdf Demo.lib (Demo.plain (Some Demo.counting)) "three.pdf" "out.pdf"
    (initial_world Demo.storage 0%nat)
  = process_pdf Demo.lib_quiet (Demo.plain (Some Demo.counting)) "three.pdf" "out.pdf"
      (initial_world Demo.storage 0%nat).
Proof.
  apply (process_pdf_plain_ignores_effects Demo.lib Demo.lib_quiet
           (Demo.plain (Some Demo.counting)) "three.pdf" "out.pdf"
           (initial_world Demo.storage 0%nat));
    reflexivity.
Defined.

(** * Further properties of the progress reporter *)

Lemma bar_agrees_upto_100 (progress : Z) :
  0 <= progress <= 100 -> Reporter.bar_agrees progress = true.
Proof.
  intros H.
  assert (Hall : forallb (fun n => Reporter.bar_agrees (Z.of_nat n)) (seq 0 101) = true)
    by (vm_compute; reflexivity).
  rewrite forallb_forall in Hall.
  replace progress with (Z.of_nat (Z.to_nat progress)) by lia.
  apply Hall. apply in_seq. lia.
Qed.

Lemma bar_cells (progress : Z) :
  0 <= progress <= 100 ->
  (q <- int_truediv (20 * progress) 100 ;; int_of_float q)%result = Ok (progress / 5).
Proof.
  intros H. pose proof (bar_agrees_upto_100 progress H) as Hb.
  unfold Reporter.bar_agrees in Hb.
  destruct (q <- int_truediv (20 * progress) 100 ;; int_of_float q)%result as [filled | e];
    [| discriminate].
  apply Z.eqb_eq in Hb. rewrite Hb. reflexivity.
Qed.

(** X10. For a progress between 0 and 100 the callback never raises, and
    the message of an attempt shows [progress / 5] filled cells out of 20
    (computed through the float division of the source), the progress and
    the page counters it was given. *)
Theorem progress_callback_message (time_time : nat -> Q)
    (edit_text : Reporter.Message -> result unit)
    (progress current_page total_pages : Z) (st : Reporter.State) :
  0 <= progress <= 100 ->
  let '(r, st') :=
    Reporter.progress_callback time_time edit_text progress current_page total_pages st in
  r = Ok tt /\
  forall n msg,
    In (n, msg) (Reporter.attempts st') -> ~ In (n, msg) (Reporter.attempts st) ->
    n = Reporter.reads st /\
    Reporter.filled_cells msg = progress / 5 /\
    Reporter.empty_cells msg = 20 - progress / 5 /\
    0 <= Reporter.filled_cells msg <= 20 /\
    Reporter.shown_percent msg = progress /\
    Reporter.shown_page msg = current_page /\
    Reporter.shown_total msg = total_pages.
Proof.
  intros Hp. unfold Reporter.progress_callback.
  destruct (Reporter.Qltb (time_time (Reporter.reads st) - Reporter.last_update_time st) 2
            && (progress <? 100)).
  - split; [reflexivity |]. cbn [Reporter.attempts]. intros n msg Hin Hnot. contradiction.
  - cbv zeta. rewrite (bar_cells progress Hp).
    split; [reflexivity |]. cbn [Reporter.attempts].
    intros n msg Hin Hnot.
    apply in_app_or in Hin as [Hin | [Heq | []]]; [contradiction |].
    injection Heq as <- <-.
    cbn [Reporter.filled_cells Reporter.empty_cells Reporter.shown_percent
           Reporter.shown_page Reporter.shown_total].
    assert (0 <= progress / 5 <= 20) by (Z.div_mod_to_equations; lia).
    repeat split; lia.
Qed.

Lemma progress_callback_message_witness :
  let '(r, st') :=
    Reporter.progress_callback (fun n : nat => inject_Z (1700000000 + Z.of_nat n))
      (fun _ => Ok tt) 57 4 7 Reporter.initial in
  r = Ok tt /\
  forall n msg,
    In (n, msg) (Reporter.attempts st') -> ~ In (n, msg) (Reporter.attempts Reporter.initial) ->
    n = Reporter.reads Reporter.initial /\
    Reporter.filled_cells msg = 57 / 5 /\
    Reporter.empty_cells msg = 20 - 57 / 5 /\
    0 <= Reporter.filled_cells msg <= 20 /\
    Reporter.shown_percent msg = 57 /\
    Reporter.shown_page msg = 4 /\
    Reporter.shown_total msg = 7.
Proof.
  apply (progress_callback_message (fun n : nat => inject_Z (1700000000 + Z.of_nat n))
           (fun _ => Ok tt) 57 4 7 Reporter.initial).
  lia.
Defined.

Lemma Qltb_true (x y : Q) : Reporter.Qltb x y = true -> (x < y)%Q.
Proof.
  unfold Reporter.Qltb. intros H. apply Qlt_alt.
  destruct (x ?= y)%Q; [discriminate | reflexivity | discriminate].
Qed.

(** X11. When the callback emits: for a progress between 0 and 100 an
    invocation attempts [edit_text], and moves the time of the last update to
    now, exactly when two seconds or more have passed since the last update
    or the progress is 100; otherwise it changes nothing but the count of
    clock readings. *)
Theorem progress_callback_emits_iff (time_time : nat -> Q)
    (edit_text : Reporter.Message -> result unit) (ev : ProgressEvent)
    (st : Reporter.State) :
  0 <= percentComplete ev <= 100 ->
  let now := time_time (Reporter.reads st) in
  let st' := Reporter.call time_time edit_text ev st in
  ((2 <= now - Reporter.last_update_time st)%Q \/ percentComplete ev = 100 ->
   (exists msg, Reporter.attempts st' = Reporter.attempts st ++ [(Reporter.reads st, msg)]) /\
   Reporter.last_update_time st' = now) /\
  ((now - Reporter.last_update_time st < 2)%Q /\ percentComplete ev < 100 ->
   Reporter.attempts st' = Reporter.attempts st /\
   Reporter.shown st' = Reporter.shown st /\
   Reporter.last_update_time st' = Reporter.last_update_time st) /\
  Reporter.reads st' = S (Reporter.reads st).
Proof.
  intros Hp. cbv zeta. unfold Reporter.call, Reporter.progress_callback. cbv zeta.
  rewrite (bar_cells (percentComplete ev) Hp).
  destruct (Reporter.Qltb (time_time (Reporter.reads st) - Reporter.last_update_time st) 2)
    eqn:Hlt;
    destruct (percentComplete ev <? 100) eqn:H100; cbn [andb snd Reporter.attempts
      Reporter.shown Reporter.last_update_time Reporter.reads].
  - apply Qltb_true in Hlt. apply Z.ltb_lt in H100.
    split; [intros [Hge | Heq]; [exfalso; lra | lia] |].
    split; [intros _; repeat split | reflexivity].
  - apply Z.ltb_ge in H100.
    split; [intros _; split; [eexists; reflexivity | reflexivity] |].
    split; [intros [_ Hlt100]; lia | reflexivity].
  - apply Qltb_false in Hlt.
    split; [intros _; split; [eexists; reflexivity | reflexivity] |].
    split; [intros [Hlt2 _]; exfalso; lra | reflexivity].
  - apply Z.ltb_ge in H100.
    split; [intros _; split; [eexists; reflexivity | reflexivity] |].
    split; [intros [_ Hlt100]; lia | reflexivity].
Qed.

Lemma progress_callback_emits_iff_witness :
  let time_time := fun n : nat => inject_Z (1700000000 + Z.of_nat n) in
  let ev := {| percentComplete := 33; currentPage := 1; totalPages := 3 |} in
  let now := time_time (Reporter.reads Reporter.initial) in
  let st' := Reporter.call time_time (fun _ => Ok tt) ev Reporter.initial in
  ((2 <= now - Reporter.last_update_time Reporter.initial)%Q \/ percentComplete ev = 100 ->
   (exists msg, Reporter.attempts st'
                = Reporter.attempts Reporter.initial
                  ++ [(Reporter.reads Reporter.initial, msg)]) /\
   Reporter.last_update_time st' = now) /\
  ((now - Reporter.last_update_time Reporter.initial < 2)%Q /\ percentComplete ev < 100 ->
   Reporter.attempts st' = Reporter.attempts Reporter.initial /\
   Reporter.shown st' = Reporter.shown Reporter.initial /\
   Reporter.last_update_time st' = Reporter.last_update_time Reporter.initial) /\
  Reporter.reads st' = S (Reporter.reads Reporter.initial).
Proof.
  apply (progress_callback_emits_iff (fun n : nat => inject_Z (1700000000 + Z.of_nat n))
           (fun _ => Ok tt) {| percentComplete := 33; currentPage := 1; totalPages := 3 |}
           Reporter.initial).
  cbn. lia.
Defined.

Lemma feed_reporter (time_time : nat -> Q) (edit_text : Reporter.Message -> result unit)
    (events : list ProgressEvent) :
  forall st,
    feed (Reporter.progress_callback time_time edit_text) events st
    = Reporter.invoke_all time_time edit_text events st.
Proof.
  induction events as [| ev rest IH]; intros st; cbn [feed Reporter.invoke_all];
    [reflexivity |].
  apply IH.
Qed.

Lemma invoke_all_reads (time_time : nat -> Q) (edit_text : Reporter.Message -> result unit)
    (events : list ProgressEvent) :
  forall st,
    Reporter.reads (Reporter.invoke_all time_time edit_text events st)
    = (Reporter.reads st + length events)%nat.
Proof.
  induction events as [| ev rest IH]; intros st; cbn [Reporter.invoke_all length]; [lia |].
  rewrite IH. destruct (call_cases time_time edit_text ev st) as [-> _]. lia.
Qed.

(** X12. The orchestrator and the reporter together: in a successful run
    of [process_pdf] over [N >= 1] pages whose callback is the rate-limited
    reporter in its initial state, the reporter has read the clock [N]
    times, once per page, and it has attempted the [edit_text] of the last
    page, the one that carries 100 percent, however close in time the page
    before was. *)
Theorem process_pdf_reports_completion (lib : Library) (self : PDFCorruptor Reporter.State)
    (time_time : nat -> Q) (edit_text : Reporter.Message -> result unit)
    (pdf_path output_path : string) (w : World Reporter.State) (ps qs : list Page) :
  progress_callback self = Some (Reporter.progress_callback time_time edit_text) ->
  reporter w = Reporter.initial ->
  files w !! pdf_path = Some (PdfFile ps) ->
  (1 <= length ps)%nat ->
  all_stages lib self 0 ps = Ok qs ->
  doc_save lib qs output_path = Ok tt ->
  let '(r, w') := process_pdf lib self pdf_path output_path w in
  r = Ok (true, Z.of_nat (length ps)) /\
  Reporter.reads (reporter w') = length ps /\
  Reporter.attempted (length ps - 1) (reporter w').
Proof.
  intros Hcb Hinit Hfile Hlen Hstages Hsave.
  destruct (process_pdf_run lib self pdf_path output_path w ps Hfile)
    as (r & w' & Hrun & _ & _ & Hrep & _).
  destruct (process_pdf_success lib self pdf_path output_path w ps qs Hfile Hstages Hsave)
    as (w2 & Hrun2 & _).
  rewrite Hrun in Hrun2 |- *. injection Hrun2 as -> <-.
  split; [reflexivity |].
  rewrite (done_before_all lib self ps 0 qs Hstages) in Hrep.
  rewrite Hcb in Hrep. cbn [feed_opt] in Hrep.
  rewrite feed_reporter, Hinit in Hrep. rewrite Hrep.
  split.
  - rewrite invoke_all_reads, (events_from_length self _ (length ps) 0 (length ps) Hcb).
    reflexivity.
  - destruct (length ps) as [| m] eqn:HN; [lia |].
    apply (final_event_attempted time_time edit_text _ Reporter.initial (S m - 1)
             (event_at (S m) m)); cbn [Reporter.reads Reporter.initial].
    + lia.
    + replace (S m - 1 - 0)%nat with m by lia.
      rewrite <- HN. rewrite HN at 2.
      rewrite HN. eapply events_from_lookup; [exact Hcb | lia].
    + cbn [event_at percentComplete]. apply percent_at_last.
Qed.

Lemma process_pdf_reports_completion_witness :
  let time_time := fun n : nat => inject_Z (1700000000 + Z.of_nat n) in
  let self := Demo.plain (Some (Reporter.progress_callback time_time (fun _ => Ok tt))) in
  let '(r, w') := process_pdf Demo.lib self "three.pdf" "out.pdf"
                    (initial_world Demo.storage Reporter.initial) in
  r = Ok (true, Z.of_nat (length [Demo.a4; Demo.a4; Demo.a4])) /\
  Reporter.reads (reporter w') = length [Demo.a4; Demo.a4; Demo.a4] /\
  Reporter.attempted (length [Demo.a4; Demo.a4; Demo.a4] - 1) (reporter w').
Proof.
  apply (process_pdf_reports_completion Demo.lib
           (Demo.plain (Some (Reporter.progress_callback
                                (fun n : nat => inject_Z (1700000000 + Z.of_nat n))
                                (fun _ => Ok tt))))
           (fun n : nat => inject_Z (1700000000 + Z.of_nat n)) (fun _ => Ok tt)
           "three.pdf" "out.pdf" (initial_world Demo.storage Reporter.initial)
           [Demo.a4; Demo.a4; Demo.a4]
           (let p := {| page_width := 595; page_height := 842;
                        content := FullImage (0, 0, 595, 842) [] |} in [p; p; p]));
    solve [reflexivity | cbn; lia | vm_compute; reflexivity].
Defined.

(** * Further properties of the transformation chain *)

(** X13. What the noise stage does to one channel at the ends of the
    range: when the exact sum of channel and draw is 0 or less the channel
    becomes 0, and when it is 255 or more the channel becomes 255, so extreme
    draws saturate and never wrap around. *)
Theorem noise_channel_saturates {St} (lib : Library) (self : PDFCorruptor St)
    (call : nat) (image : Image) (noise : nat -> Draw) :
  noise_amount self <> 0 ->
  random_normal lib call (noise_amount self) (length (data image)) = Ok noise ->
  exists out,
    add_noise lib self call image = Ok out /\
    forall i c, data image !! i = Some c ->
      let x := (inject_Z c + draw_value (noise i))%Q in
      ((x <= 0)%Q -> data out !! i = Some 0) /\
      ((255 <= x)%Q -> data out !! i = Some 255).
Proof.
  intros Hne Hdraw. unfold add_noise.
  apply Z.eqb_neq in Hne. rewrite Hne, Hdraw. cbn [rbind].
  eexists. split; [reflexivity |]. cbn [data].
  intros i c Hc. cbv zeta. rewrite list_lookup_imap, Hc. cbn [fmap option_fmap option_map].
  split; intros Hx; f_equal.
  - apply noisy_channel_low. exact Hx.
  - apply noisy_channel_high. exact Hx.
Qed.

Lemma noise_channel_saturates_witness :
  exists out,
    add_noise Demo.lib (Demo.corruptor (@None (Callback unit))) 0 Demo.pixels = Ok out /\
    forall i c, data Demo.pixels !! i = Some c ->
      let x := (inject_Z c + draw_value (Demo.wild_draws i))%Q in
      ((x <= 0)%Q -> data out !! i = Some 0) /\
      ((255 <= x)%Q -> data out !! i = Some 255).
Proof.
  apply (noise_channel_saturates Demo.lib (Demo.corruptor (@None (Callback unit)))
           0 Demo.pixels Demo.wild_draws).
  - discriminate.
  - reflexivity.
Defined.

(** The blur stage calls the library with a radius of at least 1:
    for a non-zero [blur_amount] the radius is [blur_amount] itself when
    that is positive and 1 when it is negative. *)
Theorem add_blur_radius {St} (lib : Library) (self : PDFCorruptor St) (image : Image) :
  blur_amount self <> 0 ->
  exists radius,
    add_blur lib self image = GaussianBlur lib radius image /\
    1 <= radius /\
    (0 < blur_amount self -> radius = blur_amount self) /\
    (blur_amount self < 0 -> radius = 1).
Proof.
  intros H. exists (Z.max 1 (blur_amount self)).
  unfold add_blur. apply Z.eqb_neq in H. rewrite H.
  split; [reflexivity |]. lia.
Qed.

Lemma add_blur_radius_witness :
  exists radius,
    add_blur Demo.lib (Demo.corruptor (@None (Callback unit))) Demo.pixels
    = GaussianBlur Demo.lib radius Demo.pixels /\
    1 <= radius /\
    (0 < 5 -> radius = 5) /\
    (5 < 0 -> radius = 1).
Proof.
  apply (add_blur_radius Demo.lib (Demo.corruptor (@None (Callback unit))) Demo.pixels).
  discriminate.
Defined.

(** * Further properties of the settings store and the text handler *)

Lemma clamp_in (lo hi value : Z) : lo <= hi -> lo <= Z.max lo (Z.min hi value) <= hi.
Proof. lia. Qed.

(** The table after [handle_text_input] is one [Settings.step] away. *)
Lemma handle_text_input_step (int : string -> result Z) (strip : string -> string)
    (user_id : Z) (text : string) (adjusting : option string) (db : gmap Z Settings.Row) :
  Settings.step user_id adjusting db
    (snd (Settings.handle_text_input int strip user_id text adjusting db)).
Proof.
  unfold Settings.handle_text_input.
  destruct adjusting as [[| a key] |]; try apply Settings.step_none.
  destruct (String.eqb_spec (String a key) "filename") as [Hkey | _].
  - destruct (Settings.get_settings user_id _) as [settings db'] eqn:Hget.
    cbn [snd]. replace db' with (snd (Settings.get_settings user_id
      (Settings.update_settings user_id
         (Settings.set_prefix
            (if String.eqb (strip text) "0" then EmptyString else strip text)) db)))
      by (rewrite Hget; reflexivity).
    apply Settings.step_prefix. rewrite Hkey. reflexivity.
  - destruct (int text) as [value | e]; [| apply Settings.step_none].
    destruct (String.eqb_spec (String a key) "blur") as [Hkey | _].
    { destruct (Settings.get_settings user_id _) as [settings db'] eqn:Hget. cbn [snd].
      replace db' with (snd (Settings.get_settings user_id
        (Settings.update_settings user_id
           (Settings.set_int "blur" (Z.max 0 (Z.min 20 value))) db)))
        by (rewrite Hget; reflexivity).
      apply (Settings.step_int _ _ _ "blur" 0 20); [rewrite Hkey; reflexivity | reflexivity | lia]. }
    destruct (String.eqb_spec (String a key) "skew") as [Hkey | _].
    { destruct (Settings.get_settings user_id _) as [settings db'] eqn:Hget. cbn [snd].
      replace db' with (snd (Settings.get_settings user_id
        (Settings.update_settings user_id
           (Settings.set_int "skew" (Z.max (-45) (Z.min 45 value))) db)))
        by (rewrite Hget; reflexivity).
      apply (Settings.step_int _ _ _ "skew" (-45) 45); [rewrite Hkey; reflexivity | reflexivity | lia]. }
    destruct (String.eqb_spec (String a key) "noise") as [Hkey | _].
    { destruct (Settings.get_settings user_id _) as [settings db'] eqn:Hget. cbn [snd].
      replace db' with (snd (Settings.get_settings user_id
        (Settings.update_settings user_id
           (Settings.set_int "noise" (Z.max 0 (Z.min 50 value))) db)))
        by (rewrite Hget; reflexivity).
      apply (Settings.step_int _ _ _ "noise" 0 50); [rewrite Hkey; reflexivity | reflexivity | lia]. }
    destruct (String.eqb_spec (String a key) "quality") as [Hkey | _].
    { destruct (Settings.get_settings user_id _) as [settings db'] eqn:Hget. cbn [snd].
      replace db' with (snd (Settings.get_settings user_id
        (Settings.update_settings user_id
           (Settings.set_int "quality" (Z.max 10 (Z.min 100 value))) db)))
        by (rewrite Hget; reflexivity).
      apply (Settings.step_int _ _ _ "quality" 10 100); [rewrite Hkey; reflexivity | reflexivity | lia]. }
    destruct (String.eqb_spec (String a key) "dpi") as [Hkey | _].
    { destruct (Settings.get_settings user_id _) as [settings db'] eqn:Hget. cbn [snd].
      replace db' with (snd (Settings.get_settings user_id
        (Settings.update_settings user_id
           (Settings.set_int "dpi" (Z.max 72 (Z.min 300 value))) db)))
        by (rewrite Hget; reflexivity).
      apply (Settings.step_int _ _ _ "dpi" 72 300); [rewrite Hkey; reflexivity | reflexivity | lia]. }
    destruct (Settings.get_settings user_id db) as [settings db'] eqn:Hget. cbn [snd].
    replace db' with (snd (Settings.get_settings user_id db)) by (rewrite Hget; reflexivity).
    apply Settings.step_menu.
Qed.

Lemma get_settings_lookup (user_id other : Z) (db : gmap Z Settings.Row) :
  snd (Settings.get_settings user_id db) !! other
  = if decide (user_id = other)
    then Some (default Settings.defaults (db !! user_id))
    else db !! other.
Proof.
  unfold Settings.get_settings.
  destruct (db !! user_id) as [row |] eqn:Hrow; cbn [snd default].
  - case_decide; [subst; exact Hrow | reflexivity].
  - rewrite lookup_insert. case_decide; reflexivity.
Qed.

Lemma defaults_in_ranges : Settings.in_ranges Settings.defaults.
Proof. vm_compute. repeat split; discriminate. Qed.

Lemma apply_update_in_ranges (key : string) (lo hi value : Z) (row : Settings.Row) :
  Settings.documented_range key = Some (lo, hi) ->
  lo <= value <= hi ->
  Settings.in_ranges row ->
  Settings.in_ranges (Settings.apply_update (Settings.set_int key value) row).
Proof.
  intros Hrange Hv Hrow.
  destruct (documented_range_keys key lo hi Hrange)
    as [(-> & -> & ->) | [(-> & -> & ->) | [(-> & -> & ->) | [(-> & -> & ->) | (-> & -> & ->)]]]];
    unfold Settings.in_ranges in *; cbn; lia.
Qed.

(** X14. The ranges are an invariant of the table: when every row has its
    five numeric settings in range, so has every row after
    [handle_text_input], whatever the text and whatever was being adjusted,
    the row created for a new user included. *)
Theorem handle_text_input_keeps_ranges (int : string -> result Z) (strip : string -> string)
    (user_id : Z) (text : string) (adjusting : option string) (db : gmap Z Settings.Row) :
  (forall u row, db !! u = Some row -> Settings.in_ranges row) ->
  forall u row,
    snd (Settings.handle_text_input int strip user_id text adjusting db) !! u = Some row ->
    Settings.in_ranges row.
Proof.
  intros Hdb u row.
  destruct (handle_text_input_step int strip user_id text adjusting db)
    as [| | value _ | key lo hi value _ Hrange Hv].
  - apply Hdb.
  - rewrite get_settings_lookup. case_decide; [| apply Hdb].
    intros [= <-]. destruct (db !! user_id) as [r |] eqn:Hr; cbn [default];
      [eapply Hdb; exact Hr | apply defaults_in_ranges].
  - rewrite get_settings_lookup. unfold Settings.update_settings.
    case_decide.
    + rewrite lookup_alter_eq. intros [= <-].
      destruct (db !! user_id) as [r |] eqn:Hr; cbn [fmap option_fmap option_map default];
        [| apply defaults_in_ranges].
      pose proof (Hdb _ _ Hr) as Hin. unfold Settings.in_ranges in *. cbn. exact Hin.
    + rewrite lookup_alter_ne by assumption. apply Hdb.
  - rewrite get_settings_lookup. unfold Settings.update_settings.
    case_decide.
    + rewrite lookup_alter_eq. intros [= <-].
      destruct (db !! user_id) as [r |] eqn:Hr; cbn [fmap option_fmap option_map default];
        [| apply defaults_in_ranges].
      eapply apply_update_in_ranges; [exact Hrange | exact Hv | eapply Hdb; exact Hr].
    + rewrite lookup_alter_ne by assumption. apply Hdb.
Qed.

Lemma handle_text_input_keeps_ranges_witness :
  Settings.in_ranges
    {| Settings.blur := 1; Settings.skew := 0; Settings.noise := 2;
       Settings.quality := 50; Settings.dpi := 300;
       Settings.filename_prefix := "corrupted_" |}.
Proof.
  apply (handle_text_input_keeps_ranges (fun _ => Ok 500) (fun s => s) 7 "500" (Some "dpi")
           (<[7 := Settings.defaults]> ∅)) with (u := 7).
  - intros u row Hrow. apply lookup_insert_Some in Hrow as [[_ <-] | [_ Hrow]].
    + vm_compute. repeat split; discriminate.
    + rewrite lookup_empty in Hrow. discriminate Hrow.
  - reflexivity.
Defined.

(** X15. Other users are out of reach: [handle_text_input] for one user
    leaves the row of every other user, present or absent, as it was. *)
Theorem handle_text_input_other_users (int : string -> result Z) (strip : string -> string)
    (user_id other : Z) (text : string) (adjusting : option string)
    (db : gmap Z Settings.Row) :
  other <> user_id ->
  snd (Settings.handle_text_input int strip user_id text adjusting db) !! other
  = db !! other.
Proof.
  intros Hne.
  destruct (handle_text_input_step int strip user_id text adjusting db)
    as [| | value _ | key lo hi value _ _ _].
  - reflexivity.
  - rewrite get_settings_lookup. case_decide; [congruence | reflexivity].
  - rewrite get_settings_lookup. case_decide; [congruence |].
    apply lookup_alter_ne. congruence.
  - rewrite get_settings_lookup. case_decide; [congruence |].
    apply lookup_alter_ne. congruence.
Qed.

Lemma handle_text_input_other_users_witness :
  snd (Settings.handle_text_input (fun _ => Ok 500) (fun s => s) 7 "500" (Some "dpi")
         (<[8 := Settings.defaults]> (<[7 := Settings.defaults]> ∅))) !! 8
  = (<[8 := Settings.defaults]> (<[7 := Settings.defaults]> ∅) : gmap Z Settings.Row) !! 8.
Proof.
  apply (handle_text_input_other_users (fun _ => Ok 500) (fun s => s) 7 8 "500" (Some "dpi")
           (<[8 := Settings.defaults]> (<[7 := Settings.defaults]> ∅))).
  lia.
Defined.

(** X16. [get_settings] creates a row once: it returns the user's row, or
    the defaults for a user without one, after it the table holds exactly
    the returned row for that user and what it held for all others, and a
    second call returns the same row and changes nothing. *)
Theorem get_settings_creates_once (user_id : Z) (db : gmap Z Settings.Row) :
  let '(row, db') := Settings.get_settings user_id db in
  db' !! user_id = Some row /\
  row = default Settings.defaults (db !! user_id) /\
  (forall other, other <> user_id -> db' !! other = db !! other) /\
  (is_Some (db !! user_id) -> db' = db) /\
  Settings.get_settings user_id db' = (row, db').
Proof.
  unfold Settings.get_settings.
  destruct (db !! user_id) as [row |] eqn:Hrow; cbn [default].
  - rewrite Hrow. repeat split; auto.
  - rewrite lookup_insert_eq. repeat split.
    + intros other Hne. apply lookup_insert_ne. congruence.
    + intros [x Hx]. discriminate Hx.
Qed.

(** X17. A user without a row loses the value he typed: [UPDATE ... WHERE
    user_id = ?] matches no row, so after [handle_text_input] the reply
    announces the clamped value while the row that [get_settings] then
    creates, and the menu shown, hold the defaults. *)
Theorem handle_text_input_without_row (int : string -> result Z) (strip : string -> string)
    (user_id : Z) (text key : string) (value lo hi : Z) (db : gmap Z Settings.Row) :
  db !! user_id = None ->
  Settings.documented_range key = Some (lo, hi) ->
  int text = Ok value ->
  Settings.handle_text_input int strip user_id text (Some key) db
  = ([Settings.value_set key (clamp lo hi value);
      Settings.settings_menu Settings.defaults],
     None,
     <[user_id := Settings.defaults]> db).
Proof.
  intros Hrow Hrange Hint.
  destruct (documented_range_keys key lo hi Hrange)
    as [(-> & -> & ->) | [(-> & -> & ->) | [(-> & -> & ->) | [(-> & -> & ->) | (-> & -> & ->)]]]];
    unfold Settings.handle_text_input; rewrite Hint; cbn [String.eqb Ascii.eqb Bool.eqb];
    unfold Settings.update_settings; rewrite (alter_id' _ _ _ Hrow);
    unfold Settings.get_settings; rewrite Hrow; reflexivity.
Qed.

Lemma handle_text_input_without_row_witness :
  Settings.handle_text_input (fun _ => Ok 500) (fun s => s) 7 "500" (Some "dpi") ∅
  = ([Settings.value_set "dpi" (clamp 72 300 500);
      Settings.settings_menu Settings.defaults],
     None,
     <[7 := Settings.defaults]> ∅).
Proof.
  apply (handle_text_input_without_row (fun _ => Ok 500) (fun s => s) 7 "500" "dpi"
           500 72 300 ∅); reflexivity.
Defined.

(** X18. A text that [int] rejects changes nothing: for any parameter but
    the file name the only reply is the error notice, the table is as it was
    and the parameter is still being adjusted, so the user can type again. *)
Theorem handle_text_input_bad_value (int : string -> result Z) (strip : string -> string)
    (user_id : Z) (text key : string) (e : exn) (db : gmap Z Settings.Row) :
  key <> EmptyString ->
  key <> "filename" ->
  int text = Raise e ->
  Settings.handle_text_input int strip user_id text (Some key) db
  = ([Settings.bad_value], Some key, db).
Proof.
  intros Hne Hfile Hint. unfold Settings.handle_text_input.
  destruct key as [| a key]; [congruence |].
  destruct (String.eqb_spec (String a key) "filename") as [Heq | _]; [congruence |].
  rewrite Hint. reflexivity.
Qed.

Lemma handle_text_input_bad_value_witness :
  Settings.handle_text_input (fun _ => Raise ValueError) (fun s => s) 7 "abc" (Some "blur")
    (<[7 := Settings.defaults]> ∅)
  = ([Settings.bad_value], Some "blur", <[7 := Settings.defaults]> ∅).
Proof.
  apply (handle_text_input_bad_value (fun _ => Raise ValueError) (fun s => s) 7 "abc" "blur"
           ValueError (<[7 := Settings.defaults]> ∅));
    [discriminate | discriminate | reflexivity].
Defined.

(** X19. The file-name prefix is taken as typed: the stripped text is
    stored, the text 0 stands for the empty prefix, [int] is never consulted
    (a text that is no number is accepted), and the numeric settings of the
    row stay as they were. *)
Theorem handle_text_input_prefix (int : string -> result Z) (strip : string -> string)
    (user_id : Z) (text : string) (db : gmap Z Settings.Row) (row : Settings.Row) :
  db !! user_id = Some row ->
  let prefix := if String.eqb (strip text) "0" then EmptyString else strip text in
  let row' := {| Settings.blur := Settings.blur row; Settings.skew := Settings.skew row;
                 Settings.noise := Settings.noise row;
                 Settings.quality := Settings.quality row; Settings.dpi := Settings.dpi row;
                 Settings.filename_prefix := prefix |} in
  Settings.handle_text_input int strip user_id text (Some "filename") db
  = ([Settings.prefix_set prefix; Settings.settings_menu row'],
     None,
     <[user_id := row']> db).
Proof.
  intros Hrow. cbv zeta. unfold Settings.handle_text_input.
  cbn [String.eqb Ascii.eqb Bool.eqb].
  unfold Settings.update_settings, Settings.get_settings.
  rewrite lookup_alter_eq, Hrow. cbn [fmap option_fmap option_map Settings.apply_update app].
  f_equal. apply map_eq. intros i.
  destruct (decide (user_id = i)) as [<- | Hne].
  - rewrite lookup_alter_eq, lookup_insert_eq, Hrow. reflexivity.
  - rewrite lookup_alter_ne, lookup_insert_ne by assumption. reflexivity.
Qed.

Lemma handle_text_input_prefix_witness :
  let row' := {| Settings.blur := 1; Settings.skew := 0; Settings.noise := 2;
                 Settings.quality := 50; Settings.dpi := 150;
                 Settings.filename_prefix := EmptyString |} in
  Settings.handle_text_input (fun _ => Raise ValueError) (fun s => s) 7 "0"
    (Some "filename") (<[7 := Settings.defaults]> ∅)
  = ([Settings.prefix_set EmptyString; Settings.settings_menu row'],
     None,
     <[7 := row']> (<[7 := Settings.defaults]> ∅)).
Proof.
  apply (handle_text_input_prefix (fun _ => Raise ValueError) (fun s => s) 7 "0"
           (<[7 := Settings.defaults]> ∅) Settings.defaults).
  reflexivity.
Defined.

(** X20. An update touches one column: after [handle_text_input] has
    stored a number for one of the five parameters, every other column of
    the user's row, the file-name prefix included, is what it was. *)
Theorem handle_text_input_other_columns (int : string -> result Z) (strip : string -> string)
    (user_id : Z) (text key : string) (value lo hi : Z)
    (db : gmap Z Settings.Row) (row : Settings.Row) :
  Settings.documented_range key = Some (lo, hi) ->
  int text = Ok value ->
  db !! user_id = Some row ->
  exists row',
    snd (Settings.handle_text_input int strip user_id text (Some key) db) !! user_id
    = Some row' /\
    Settings.filename_prefix row' = Settings.filename_prefix row /\
    forall other, other <> key -> Settings.column other row' = Settings.column other row.
Proof.
  intros Hrange Hint Hrow.
  destruct (documented_range_keys key lo hi Hrange)
    as [(-> & -> & ->) | [(-> & -> & ->) | [(-> & -> & ->) | [(-> & -> & ->) | (-> & -> & ->)]]]];
    unfold Settings.handle_text_input; rewrite Hint; cbn [String.eqb Ascii.eqb Bool.eqb];
    unfold Settings.update_settings, Settings.get_settings;
    rewrite lookup_alter_eq, Hrow; cbn [fmap option_fmap option_map snd];
    rewrite lookup_alter_eq, Hrow; cbn [fmap option_fmap option_map];
    (eexists; split; [reflexivity |]);
    cbn [Settings.apply_update String.eqb Ascii.eqb Bool.eqb Settings.filename_prefix];
    (split; [reflexivity |]);
    intros other Hother; unfold Settings.column;
    cbn [Settings.blur Settings.skew Settings.noise Settings.quality Settings.dpi];
    repeat (match goal with
            | |- context [String.eqb other ?k] =>
                destruct (String.eqb_spec other k); [subst; try congruence |]
            end);
    reflexivity.
Qed.

Lemma handle_text_input_other_columns_witness :
  exists row',
    snd (Settings.handle_text_input (fun _ => Ok 500) (fun s => s) 7 "500" (Some "dpi")
           (<[7 := Settings.defaults]> ∅)) !! 7 = Some row' /\
    Settings.filename_prefix row' = Settings.filename_prefix Settings.defaults /\
    forall other, other <> "dpi" ->
                  Settings.column other row' = Settings.column other Settings.defaults.
Proof.
  apply (handle_text_input_other_columns (fun _ => Ok 500) (fun s => s) 7 "500" "dpi"
           500 72 300 (<[7 := Settings.defaults]> ∅) Settings.defaults);
    reflexivity.
Defined.

(** * Properties of the processing history *)

Lemma rows_of_save (now : string) (user other : Z) (original output : string)
    (original_size output_size pages_count blur skew noise quality dpi : Z)
    (ledger : list History.Entry) :
  History.rows_of other
    (History.save_history now user original output original_size output_size
       pages_count blur skew noise quality dpi ledger)
  = History.rows_of other ledger ++
    (if user =? other
     then [{| History.user_id := user; History.original_filename := original;
              History.output_filename := output;
              History.original_size := original_size;
              History.output_size := output_size;
              History.pages_count := pages_count; History.blur := blur;
              History.skew := skew; History.noise := noise;
              History.quality := quality; History.dpi := dpi;
              History.created_at := now |}]
     else []).
Proof.
  unfold History.rows_of, History.save_history.
  rewrite List.filter_app. cbn [List.filter History.user_id].
  destruct (user =? other); reflexivity.
Qed.

Lemma sum_pages_app (rows : list History.Entry) (e : History.Entry) :
  fold_right (fun e acc => History.pages_count e + acc) 0 (rows ++ [e])
  = fold_right (fun e acc => History.pages_count e + acc) 0 rows + History.pages_count e.
Proof.
  induction rows as [| r rows IH]; cbn [app fold_right]; [lia |].
  rewrite IH. lia.
Qed.

Lemma or_zero_sum (rows : list History.Entry) :
  History.or_zero (History.sql_sum rows)
  = fold_right (fun e acc => History.pages_count e + acc) 0 rows.
Proof. destruct rows; reflexivity. Qed.

(** X21. A user without history has empty statistics: no files, no pages,
    average size 0 and no date, whatever the other users have. *)
Theorem get_user_stats_no_history (sql_avg : list Z -> float)
    (sql_max : list string -> string) (user : Z) (ledger : list History.Entry) :
  (forall e, In e ledger -> History.user_id e <> user) ->
  History.get_user_stats sql_avg sql_max user ledger
  = Ok {| History.total_files := 0; History.total_pages := 0; History.avg_size := 0;
          History.last_processed := None |}.
Proof.
  intros Hnone. unfold History.get_user_stats.
  assert (Hrows : History.rows_of user ledger = []).
  { unfold History.rows_of. induction ledger as [| e l IH]; [reflexivity |].
    cbn [List.filter]. destruct (Z.eqb_spec (History.user_id e) user) as [Heq | _].
    - exfalso. apply (Hnone e); [left; reflexivity | exact Heq].
    - apply IH. intros e' He'. apply Hnone. right. exact He'. }
  rewrite Hrows. reflexivity.
Qed.

Lemma get_user_stats_no_history_witness :
  History.get_user_stats (fun _ => S754_zero false) (fun _ => EmptyString) 7
    (History.save_history "2026-01-01 00:00:00" 8 "a.pdf" "corrupted_a.pdf"
       1000 500 3 1 0 2 50 150 [])
  = Ok {| History.total_files := 0; History.total_pages := 0; History.avg_size := 0;
          History.last_processed := None |}.
Proof.
  apply (get_user_stats_no_history (fun _ => S754_zero false) (fun _ => EmptyString) 7).
  intros e [<- | []]. discriminate.
Defined.

(** The counts in a result of [get_user_stats]. *)
Lemma get_user_stats_fields (sql_avg : list Z -> float) (sql_max : list string -> string)
    (user : Z) (ledger : list History.Entry) (stats : History.Stats) :
  History.get_user_stats sql_avg sql_max user ledger = Ok stats ->
  History.total_files stats = Z.of_nat (length (History.rows_of user ledger)) /\
  History.total_pages stats
  = fold_right (fun e acc => History.pages_count e + acc) 0 (History.rows_of user ledger) /\
  (History.rows_of user ledger <> [] -> is_Some (History.last_processed stats)).
Proof.
  unfold History.get_user_stats. intros H.
  match type of H with
  | rbind ?x _ = _ => destruct x as [v | err]; cbn [rbind] in H; [| discriminate H]
  end.
  injection H as <-.
  cbn [History.total_files History.total_pages History.last_processed].
  rewrite or_zero_sum. repeat split.
  intros Hne. destruct (History.rows_of user ledger); [congruence | eexists; reflexivity].
Qed.

(** X22. [save_history] counts: after one more entry for a user his
    statistics show one file more and [pages_count] pages more, and a date;
    the statistics of every other user are the same as before. *)
Theorem save_history_counts (sql_avg : list Z -> float) (sql_max : list string -> string)
    (now : string) (user : Z) (original output : string)
    (original_size output_size pages_count blur skew noise quality dpi : Z)
    (ledger : list History.Entry) (before after : History.Stats) :
  let ledger' := History.save_history now user original output original_size output_size
                   pages_count blur skew noise quality dpi ledger in
  History.get_user_stats sql_avg sql_max user ledger = Ok before ->
  History.get_user_stats sql_avg sql_max user ledger' = Ok after ->
  History.total_files after = History.total_files before + 1 /\
  History.total_pages after = History.total_pages before + pages_count /\
  is_Some (History.last_processed after) /\
  forall other, other <> user ->
    History.get_user_stats sql_avg sql_max other ledger'
    = History.get_user_stats sql_avg sql_max other ledger.
Proof.
  cbv zeta. intros Hbefore Hafter.
  destruct (get_user_stats_fields _ _ _ _ _ Hbefore) as (Hf & Hp & _).
  destruct (get_user_stats_fields _ _ _ _ _ Hafter) as (Hf' & Hp' & Hl').
  rewrite rows_of_save, Z.eqb_refl in Hf', Hp', Hl'.
  rewrite length_app in Hf'. rewrite sum_pages_app in Hp'.
  cbn [length History.pages_count] in Hf', Hp'.
  split; [lia |]. split; [lia |].
  split; [apply Hl'; intros Habs; apply app_eq_nil in Habs as [_ Habs]; discriminate Habs |].
  intros other Hne. unfold History.get_user_stats.
  rewrite rows_of_save.
  destruct (Z.eqb_spec user other) as [Heq | _]; [congruence |].
  rewrite app_nil_r. reflexivity.
Qed.

Lemma save_history_counts_witness :
  let sql_avg := fun _ : list Z => S754_finite false 4503599627370496 (-43) in
  let sql_max := fun _ : list string => "2026-01-01 00:00:00" in
  let ledger' := History.save_history "2026-01-01 00:00:00" 7 "a.pdf" "corrupted_a.pdf"
                   1000 512 3 1 0 2 50 150 [] in
  let before := {| History.total_files := 0; History.total_pages := 0;
                   History.avg_size := 0; History.last_processed := None |} in
  let after := {| History.total_files := 1; History.total_pages := 3;
                  History.avg_size := 512;
                  History.last_processed := Some "2026-01-01 00:00:00" |} in
  History.total_files after = History.total_files before + 1 /\
  History.total_pages after = History.total_pages before + 3 /\
  is_Some (History.last_processed after) /\
  forall other, other <> 7 ->
    History.get_user_stats sql_avg sql_max other ledger'
    = History.get_user_stats sql_avg sql_max other [].
Proof.
  apply (save_history_counts (fun _ : list Z => S754_finite false 4503599627370496 (-43))
           (fun _ : list string => "2026-01-01 00:00:00")
           "2026-01-01 00:00:00" 7 "a.pdf" "corrupted_a.pdf" 1000 512 3 1 0 2 50 150 []);
    vm_compute; reflexivity.
Defined.

(** * Properties of [process_pdf_file] *)

(** The two ways a run ends, with the storage it leaves. *)
Lemma process_pdf_result_files {St} (lib : Library) (self : PDFCorruptor St)
    (pdf_path output_path : string) (w : World St) :
  (exists w', process_pdf lib self pdf_path output_path w = (Ok (false, 0), w') /\
              forall p, p <> output_path -> files w' !! p = files w !! p) \/
  (exists w' ps qs,
      process_pdf lib self pdf_path output_path w = (Ok (true, Z.of_nat (length ps)), w') /\
      files w !! pdf_path = Some (PdfFile ps) /\
      all_stages lib self 0 ps = Ok qs /\
      files w' = <[output_path := PdfFile qs]> (files w)).
Proof.
  destruct (files w !! pdf_path) as [[ps | raw] |] eqn:Hfile.
  - destruct (all_stages lib self 0 ps) as [qs | e] eqn:Hstages.
    + destruct (doc_save lib qs output_path) as [[] | e] eqn:Hsave.
      * destruct (process_pdf_success lib self pdf_path output_path w ps qs
                    Hfile Hstages Hsave) as (w' & Hrun & Hfiles & _).
        right. exists w', ps, qs. auto.
      * destruct (process_pdf_save_failure lib self pdf_path output_path w ps qs e
                    Hfile Hstages Hsave) as (w' & Hrun & Hfiles & _).
        left. exists w'. split; [exact Hrun |].
        intros p Hp. rewrite Hfiles. unfold after_failed_save.
        destruct (doc_save_partial lib qs output_path); [| reflexivity].
        apply lookup_insert_ne. congruence.
    + destruct (process_pdf_stage_failure lib self pdf_path output_path w ps e
                  Hfile Hstages) as (w' & out & Hrun & Hfiles & _).
      left. exists w'. split; [exact Hrun |]. intros p _. rewrite Hfiles. reflexivity.
  - left. exists w. split; [| reflexivity].
    apply process_pdf_open_failure. intros ps. rewrite Hfile. discriminate.
  - left. exists w. split; [| reflexivity].
    apply process_pdf_open_failure. intros ps. rewrite Hfile. discriminate.
Qed.

Lemma unlink_if_exists_lookup (path other : string) (s : Bot.State) :
  Bot.storage (Bot.unlink_if_exists path s) !! other
  = if decide (path = other) then None else Bot.storage s !! other.
Proof.
  unfold Bot.unlink_if_exists.
  destruct (Bot.storage s !! path) as [b |] eqn:Hpath; cbn [Bot.storage Bot.with_storage].
  - rewrite lookup_delete. reflexivity.
  - case_decide; [subst; exact Hpath | reflexivity].
Qed.

Lemma unlink_if_exists_rest (path : string) (s : Bot.State) :
  Bot.table (Bot.unlink_if_exists path s) = Bot.table s /\
  Bot.ledger (Bot.unlink_if_exists path s) = Bot.ledger s /\
  Bot.chat (Bot.unlink_if_exists path s) = Bot.chat s /\
  Bot.progress (Bot.unlink_if_exists path s) = Bot.progress s.
Proof.
  unfold Bot.unlink_if_exists. destruct (Bot.storage s !! path); repeat split.
Qed.

(** A quotient of a non-negative integer below [2 ^ 1000] by a positive one
    is finite. *)
Lemma int_truediv_finite (a b : positive) :
  Zpos a < 2 ^ 1000 ->
  exists q, int_truediv (Zpos a) (Zpos b) = Ok q /\ tame 1001 q.
Proof.
  intros Ha. unfold int_truediv. simpl Z.eqb. cbv iota.
  eexists. split; [reflexivity |].
  unfold exact_int, SFdiv, SFdiv_core_binary.
  rewrite fexp_binary64.
  set (e' := Z.min (Z.max (Zdigits2 (Zpos a) + 0 - (Zdigits2 (Zpos b) + 0) - 53) (-1074)) (0 - 0)).
  assert (He' : -1074 <= e' <= 0) by (unfold e'; lia).
  set (m' := match 0 - 0 - e' with
             | 0 => Zpos a
             | Zpos _ => Z.shiftl (Zpos a) (0 - 0 - e')
             | Zneg _ => 0
             end).
  assert (Hm' : m' = Zpos a * 2 ^ (- e')).
  { unfold m'. destruct (0 - 0 - e') as [| s | s] eqn:Hs; try lia.
    - replace (- e') with 0 by lia. cbn. lia.
    - rewrite Z.shiftl_mul_pow2 by lia. f_equal. f_equal. lia. }
  pose proof (Z_div_mod m' (Zpos b) eq_refl) as Hdiv.
  destruct (Z.div_eucl m' (Zpos b)) as [q r]. destruct Hdiv as [Heq Hr].
  assert (Hpow : 0 < 2 ^ (- e')) by (apply Z.pow_pos_nonneg; lia).
  assert (Hq : 0 <= q <= m') by nia.
  assert (Hlt : m' < 2 ^ (1000 - e')).
  { replace (1000 - e') with (1000 + - e') by lia. rewrite Z.pow_add_r by lia. nia. }
  assert (Hdq : Zdigits2 q <= 1000 - e') by (apply Zdigits2_le; lia).
  pose proof (Zdigits2_nonneg q) as Hd0.
  eapply tame_mono; [| apply binary_round_aux_tame; lia].
  rewrite fexp_binary64. lia.
Qed.

Lemma int_truediv_checked_ok (a b : Z) :
  0 <= a < 2 ^ 1000 -> 0 < b -> exists q, int_truediv_checked a b = Ok q.
Proof.
  intros Ha Hb. unfold int_truediv_checked.
  destruct b as [| b | b]; try lia.
  destruct a as [| a | a]; try lia.
  - eexists. reflexivity.
  - destruct (int_truediv_finite a b) as (q & -> & Hq); [lia |].
    cbn [rbind]. destruct q; cbn [tame] in Hq; try contradiction; eexists; reflexivity.
Qed.

Lemma plausible_size_bound (size : Z) : Bot.plausible_size size -> 0 <= size < 2 ^ 1000.
Proof.
  unfold Bot.plausible_size. intros [H0 H1]. split; [exact H0 |].
  eapply Z.lt_le_trans; [exact H1 |]. apply Z.pow_le_mono_r; lia.
Qed.

Lemma megabytes_ok (size : Z) :
  Bot.plausible_size size -> exists mb, megabytes size = Ok mb.
Proof.
  intros H. unfold megabytes.
  destruct (int_truediv_checked_ok size 1024 (plausible_size_bound _ H)) as [q ->]; [lia |].
  eexists. reflexivity.
Qed.

Lemma compression_ratio_ok (output_size original_size : Z) :
  Bot.plausible_size output_size ->
  exists ratio, Bot.compression_ratio output_size original_size = Ok ratio.
Proof.
  intros H. unfold Bot.compression_ratio.
  destruct (Z.ltb_spec 0 original_size) as [Hpos | _]; [| eexists; reflexivity].
  destruct (int_truediv_checked_ok output_size original_size (plausible_size_bound _ H) Hpos)
    as [q ->].
  eexists. reflexivity.
Qed.

(** With sizes that files can have, no division of the caption
    overflows. *)
Lemma caption_of_ok (original_size output_size pages_count : Z) (settings : Settings.Row) :
  Bot.plausible_size original_size -> Bot.plausible_size output_size ->
  exists caption,
    Bot.caption_of original_size output_size pages_count settings = Ok caption /\
    Bot.cap_pages caption = pages_count /\
    Bot.cap_settings caption = settings.
Proof.
  intros Ho Hs. unfold Bot.caption_of.
  destruct (compression_ratio_ok output_size original_size Hs) as [ratio ->].
  destruct (megabytes_ok original_size Ho) as [omb ->].
  destruct (megabytes_ok output_size Hs) as [smb ->].
  eexists. repeat split.
Qed.

(** [process_pdf_file] once the pipeline has returned. *)
Lemma process_pdf_file_unfold (lib : Library) (T : Bot.Transport) (user_id : Z)
    (ud : Bot.UserData) (s : Bot.State) (success : bool) (n : Z)
    (w : World Reporter.State) :
  process_pdf lib (Bot.corruptor_of T (Bot.settings_of user_id s)) (Bot.pdf_path ud)
    (Bot.output_path_of T s)
    (initial_world (<[Bot.output_path_of T s := Garbage []]> (Bot.storage s))
       Reporter.initial)
  = (Ok (success, n), w) ->
  Bot.process_pdf_file lib T user_id ud s
  = match Bot.deliver T user_id ud (Bot.settings_of user_id s) (Bot.output_path_of T s)
            success n
            {| Bot.storage := files w;
               Bot.table := snd (Settings.get_settings user_id (Bot.table s));
               Bot.ledger := Bot.ledger s; Bot.chat := Bot.chat s;
               Bot.progress := reporter w |} with
    | (Ok u, s') => (Ok u, s')
    | (Raise e, s') =>
        (Bot.edit_text T (Bot.error_text e), Bot.with_chat (Bot.edited (Bot.error_text e)) s')
    end.
Proof.
  unfold Bot.process_pdf_file, Bot.settings_of, Bot.output_path_of. intros Hrun.
  destruct (Settings.get_settings user_id (Bot.table s)) as [settings table'].
  cbn [fst snd] in *. rewrite Hrun. reflexivity.
Qed.

(** With a transport that does not fail, [deliver] ends normally, removes
    both files, and records and sends the result when the run was a
    success. *)
Lemma deliver_ok (T : Bot.Transport) (user_id : Z) (ud : Bot.UserData)
    (settings : Settings.Row) (output_path : string) (success : bool) (pages_count : Z)
    (s : Bot.State) :
  Bot.reliable T ->
  (forall contents, Bot.plausible_size (Bot.getsize T contents)) ->
  Bot.plausible_size (Bot.original_size_of ud) ->
  (success = true -> is_Some (Bot.storage s !! output_path)) ->
  exists s',
    Bot.deliver T user_id ud settings output_path success pages_count s = (Ok tt, s') /\
    (forall p, Bot.storage s' !! p
               = if decide (Bot.pdf_path ud = p) then None
                 else if decide (output_path = p) then None
                 else Bot.storage s !! p) /\
    Bot.table s' = Bot.table s /\
    (success = false ->
     Bot.ledger s' = Bot.ledger s /\
     Bot.chat s' = Bot.chat s ++ [Bot.edited Bot.failed_text]) /\
    (forall contents,
       success = true -> Bot.storage s !! output_path = Some contents ->
       Bot.ledger s'
       = History.save_history (Bot.current_timestamp T) user_id
           (Bot.original_filename_of ud)
           (Settings.filename_prefix settings +:+ Bot.original_filename_of ud)
           (Bot.original_size_of ud) (Bot.getsize T contents) pages_count
           (Settings.blur settings) (Settings.skew settings) (Settings.noise settings)
           (Settings.quality settings) (Settings.dpi settings) (Bot.ledger s) /\
       exists caption,
         Bot.caption_of (Bot.original_size_of ud) (Bot.getsize T contents) pages_count
           settings = Ok caption /\
         Bot.chat s'
         = Bot.chat s
           ++ (if 10 * 1024 * 1024 <? Bot.getsize T contents
               then [Bot.edited Bot.uploading_text] else [])
           ++ [Bot.replied_document contents
                 (Settings.filename_prefix settings +:+ Bot.original_filename_of ud)
                 caption;
               Bot.deleted]).
Proof.
  intros (edit_ok & reply_ok & delete_ok) Hsizes Horiginal Hexists.
  unfold Bot.deliver. fold (Bot.original_filename_of ud). fold (Bot.original_size_of ud).
  destruct success.
  - destruct (Hexists eq_refl) as [contents Hc]. rewrite Hc. cbv zeta.
    destruct (caption_of_ok (Bot.original_size_of ud) (Bot.getsize T contents) pages_count
                settings Horiginal (Hsizes contents)) as (caption & Hcaption & _).
    destruct (10 * 1024 * 1024 <? Bot.getsize T contents) eqn:Hbig;
      rewrite ?edit_ok, Hcaption, reply_ok, delete_ok;
      (eexists; split; [reflexivity |]);
      (split; [intros p; rewrite !unlink_if_exists_lookup; reflexivity |]);
      (split; [rewrite !(proj1 (unlink_if_exists_rest _ _)); reflexivity |]);
      (split; [discriminate |]); intros contents' _ [= <-];
      rewrite !(proj1 (proj2 (unlink_if_exists_rest _ _)));
      rewrite !(proj1 (proj2 (proj2 (unlink_if_exists_rest _ _))));
      (split; [reflexivity |]); exists caption; (split; [exact Hcaption |]);
      rewrite Hbig; cbn [Bot.chat Bot.with_chat]; rewrite <- ?app_assoc; reflexivity.
  - cbv zeta. rewrite edit_ok.
    eexists. split; [reflexivity |].
    split; [intros p; rewrite !unlink_if_exists_lookup; reflexivity |].
    split; [rewrite !(proj1 (unlink_if_exists_rest _ _)); reflexivity |].
    split; [intros _ | discriminate].
    rewrite !(proj1 (proj2 (unlink_if_exists_rest _ _))).
    rewrite !(proj1 (proj2 (proj2 (unlink_if_exists_rest _ _)))).
    split; reflexivity.
Qed.

(** When [reply_document] raises, [deliver] stops there: nothing is
    removed and nothing is recorded. *)
Lemma deliver_reply_fails (T : Bot.Transport) (user_id : Z) (ud : Bot.UserData)
    (settings : Settings.Row) (output_path : string) (pages_count : Z) (s : Bot.State)
    (contents : Blob) (e : exn) :
  (forall t, Bot.edit_text T t = Ok tt) ->
  (forall c name caption, Bot.reply_document T c name caption = Raise e) ->
  Bot.plausible_size (Bot.getsize T contents) ->
  Bot.plausible_size (Bot.original_size_of ud) ->
  Bot.storage s !! output_path = Some contents ->
  exists s',
    Bot.deliver T user_id ud settings output_path true pages_count s = (Raise e, s') /\
    Bot.storage s' = Bot.storage s /\
    Bot.ledger s' = Bot.ledger s /\
    Bot.table s' = Bot.table s.
Proof.
  intros edit_ok reply_fails Hsize Horiginal Hc. unfold Bot.deliver.
  fold (Bot.original_size_of ud). rewrite Hc. cbv zeta.
  destruct (caption_of_ok (Bot.original_size_of ud) (Bot.getsize T contents) pages_count
              settings Horiginal Hsize) as (caption & Hcaption & _).
  destruct (10 * 1024 * 1024 <? Bot.getsize T contents);
    rewrite ?edit_ok, Hcaption, reply_fails;
    (eexists; split; [reflexivity | repeat split]).
Qed.

(** The run of the pipeline inside [process_pdf_file] reads the upload and
    writes to the fresh path. *)
Lemma caller_storage_lookup (T : Bot.Transport) (ud : Bot.UserData) (s : Bot.State)
    (b : Blob) :
  Bot.storage s !! Bot.output_path_of T s = None ->
  Bot.storage s !! Bot.pdf_path ud = Some b ->
  (<[Bot.output_path_of T s := Garbage []]> (Bot.storage s)) !! Bot.pdf_path ud = Some b.
Proof.
  intros Hfresh Hfile. rewrite lookup_insert_ne; [exact Hfile |].
  intros Heq. rewrite Heq in Hfresh. congruence.
Qed.

(** What [process_pdf_file] does with a transport that does not fail. *)
Lemma process_pdf_file_ok (lib : Library) (T : Bot.Transport) (user_id : Z)
    (ud : Bot.UserData) (s : Bot.State) :
  Bot.reliable T ->
  (forall contents, Bot.plausible_size (Bot.getsize T contents)) ->
  Bot.plausible_size (Bot.original_size_of ud) ->
  Bot.storage s !! Bot.output_path_of T s = None ->
  exists success n w s',
    process_pdf lib (Bot.corruptor_of T (Bot.settings_of user_id s)) (Bot.pdf_path ud)
      (Bot.output_path_of T s)
      (initial_world (<[Bot.output_path_of T s := Garbage []]> (Bot.storage s))
         Reporter.initial)
    = (Ok (success, n), w) /\
    Bot.process_pdf_file lib T user_id ud s = (Ok tt, s') /\
    (forall p, Bot.storage s' !! p
               = if decide (Bot.pdf_path ud = p) then None else Bot.storage s !! p) /\
    Bot.table s' = snd (Settings.get_settings user_id (Bot.table s)) /\
    (success = false ->
     Bot.ledger s' = Bot.ledger s /\
     Bot.chat s' = Bot.chat s ++ [Bot.edited Bot.failed_text]) /\
    (forall contents,
       success = true -> files w !! Bot.output_path_of T s = Some contents ->
       Bot.ledger s'
       = History.save_history (Bot.current_timestamp T) user_id
           (Bot.original_filename_of ud)
           (Settings.filename_prefix (Bot.settings_of user_id s)
            +:+ Bot.original_filename_of ud)
           (Bot.original_size_of ud) (Bot.getsize T contents) n
           (Settings.blur (Bot.settings_of user_id s))
           (Settings.skew (Bot.settings_of user_id s))
           (Settings.noise (Bot.settings_of user_id s))
           (Settings.quality (Bot.settings_of user_id s))
           (Settings.dpi (Bot.settings_of user_id s)) (Bot.ledger s) /\
       exists caption,
         Bot.caption_of (Bot.original_size_of ud) (Bot.getsize T contents) n
           (Bot.settings_of user_id s) = Ok caption /\
         Bot.chat s'
         = Bot.chat s
           ++ (if 10 * 1024 * 1024 <? Bot.getsize T contents
               then [Bot.edited Bot.uploading_text] else [])
           ++ [Bot.replied_document contents
                 (Settings.filename_prefix (Bot.settings_of user_id s)
                  +:+ Bot.original_filename_of ud)
                 caption;
               Bot.deleted]).
Proof.
  intros Hrel Hsizes Horiginal Hfresh.
  set (out := Bot.output_path_of T s) in *.
  set (fs := <[out := Garbage []]> (Bot.storage s)).
  set (self := Bot.corruptor_of T (Bot.settings_of user_id s)).
  assert (Hrun : exists success n w,
             process_pdf lib self (Bot.pdf_path ud) out (initial_world fs Reporter.initial)
             = (Ok (success, n), w) /\
             (forall p, p <> out -> files w !! p = Bot.storage s !! p) /\
             (success = true -> is_Some (files w !! out))).
  { destruct (process_pdf_result_files lib self (Bot.pdf_path ud) out
                (initial_world fs Reporter.initial))
      as [(w & Hrun & Hfiles) | (w & ps & qs & Hrun & _ & _ & Hfiles)].
    - exists false, 0, w. split; [exact Hrun |]. split; [| discriminate].
      intros p Hp. rewrite Hfiles by exact Hp. cbn [files initial_world]. unfold fs.
      rewrite lookup_insert_ne by congruence. reflexivity.
    - exists true, (Z.of_nat (length ps)), w. split; [exact Hrun |].
      split.
      + intros p Hp. rewrite Hfiles. cbn [files initial_world]. unfold fs.
        rewrite !lookup_insert_ne by congruence. reflexivity.
      + intros _. rewrite Hfiles, lookup_insert_eq. eexists. reflexivity. }
  destruct Hrun as (success & n & w & Hrun & Hother & Hout).
  destruct (deliver_ok T user_id ud (Bot.settings_of user_id s) out success n
              {| Bot.storage := files w;
                 Bot.table := snd (Settings.get_settings user_id (Bot.table s));
                 Bot.ledger := Bot.ledger s; Bot.chat := Bot.chat s;
                 Bot.progress := reporter w |} Hrel Hsizes Horiginal Hout)
    as (s' & Hdeliver & Hstorage & Htable & Hfail & Hsucc).
  exists success, n, w, s'.
  split; [exact Hrun |].
  split; [rewrite (process_pdf_file_unfold lib T user_id ud s success n w Hrun);
          fold out; rewrite Hdeliver; reflexivity |].
  split.
  { intros p. rewrite Hstorage. cbn [Bot.storage].
    repeat case_decide; subst; try reflexivity.
    - symmetry. exact Hfresh.
    - apply Hother. congruence. }
  split; [exact Htable |].
  split; [exact Hfail |].
  exact Hsucc.
Qed.

(** X23. [process_pdf_file] removes its temporary files: with a transport
    that does not fail, sizes that files can have and a fresh output path it
    returns normally, and afterwards the upload is gone, the output path
    does not exist, and every other file is as before - whether the pipeline
    succeeded or not. *)
Theorem process_pdf_file_removes_temp_files (lib : Library) (T : Bot.Transport)
    (user_id : Z) (ud : Bot.UserData) (s : Bot.State) :
  Bot.reliable T ->
  (forall contents, Bot.plausible_size (Bot.getsize T contents)) ->
  Bot.plausible_size (Bot.original_size_of ud) ->
  Bot.storage s !! Bot.output_path_of T s = None ->
  exists s',
    Bot.process_pdf_file lib T user_id ud s = (Ok tt, s') /\
    Bot.storage s' !! Bot.pdf_path ud = None /\
    Bot.storage s' !! Bot.output_path_of T s = None /\
    forall p, p <> Bot.pdf_path ud -> Bot.storage s' !! p = Bot.storage s !! p.
Proof.
  intros Hrel Hsizes Horiginal Hfresh.
  destruct (process_pdf_file_ok lib T user_id ud s Hrel Hsizes Horiginal Hfresh)
    as (success & n & w & s' & _ & Hfile & Hstorage & _).
  exists s'. split; [exact Hfile |].
  split; [rewrite Hstorage; case_decide; [reflexivity | congruence] |].
  split; [rewrite Hstorage; case_decide; [reflexivity | exact Hfresh] |].
  intros p Hp. rewrite Hstorage. case_decide; [congruence | reflexivity].
Qed.

Lemma process_pdf_file_removes_temp_files_witness :
  exists s',
    Bot.process_pdf_file Demo.lib DemoBot.transport 7 (DemoBot.user_data "three.pdf")
      DemoBot.state = (Ok tt, s') /\
    Bot.storage s' !! "three.pdf" = None /\
    Bot.storage s' !! "tmp0.pdf" = None /\
    forall p, p <> "three.pdf" -> Bot.storage s' !! p = Demo.storage !! p.
Proof.
  apply (process_pdf_file_removes_temp_files Demo.lib DemoBot.transport 7
           (DemoBot.user_data "three.pdf") DemoBot.state).
  - repeat split.
  - intros [ps | raw]; unfold Bot.plausible_size; cbn; lia.
  - vm_compute. split; [discriminate | reflexivity].
  - vm_compute. reflexivity.
Defined.

(** X24. A successful run is sent and recorded: when the upload is a PDF
    whose pages all pass the stages and the save succeeds, the chat gets the
    upload notice only for a result above 10 MiB, then the written document
    under the name [filename_prefix + original name] and the deletion of the
    progress message; and one history row is added, for this user, with the
    number of pages of the upload, the size of the result and the user's
    settings. *)
Theorem process_pdf_file_success (lib : Library) (T : Bot.Transport) (user_id : Z)
    (ud : Bot.UserData) (s : Bot.State) (ps qs : list Page) :
  Bot.reliable T ->
  (forall contents, Bot.plausible_size (Bot.getsize T contents)) ->
  Bot.plausible_size (Bot.original_size_of ud) ->
  Bot.storage s !! Bot.output_path_of T s = None ->
  Bot.storage s !! Bot.pdf_path ud = Some (PdfFile ps) ->
  all_stages lib (Bot.corruptor_of T (Bot.settings_of user_id s)) 0 ps = Ok qs ->
  doc_save lib qs (Bot.output_path_of T s) = Ok tt ->
  exists s' caption,
    Bot.process_pdf_file lib T user_id ud s = (Ok tt, s') /\
    Bot.caption_of (Bot.original_size_of ud) (Bot.getsize T (PdfFile qs))
      (Z.of_nat (length ps)) (Bot.settings_of user_id s) = Ok caption /\
    Bot.chat s'
    = Bot.chat s
      ++ (if 10 * 1024 * 1024 <? Bot.getsize T (PdfFile qs)
          then [Bot.edited Bot.uploading_text] else [])
      ++ [Bot.replied_document (PdfFile qs)
            (Settings.filename_prefix (Bot.settings_of user_id s)
             +:+ Bot.original_filename_of ud)
            caption;
          Bot.deleted] /\
    Bot.ledger s'
    = Bot.ledger s
      ++ [{| History.user_id := user_id;
             History.original_filename := Bot.original_filename_of ud;
             History.output_filename :=
               Settings.filename_prefix (Bot.settings_of user_id s)
               +:+ Bot.original_filename_of ud;
             History.original_size := Bot.original_size_of ud;
             History.output_size := Bot.getsize T (PdfFile qs);
             History.pages_count := Z.of_nat (length ps);
             History.blur := Settings.blur (Bot.settings_of user_id s);
             History.skew := Settings.skew (Bot.settings_of user_id s);
             History.noise := Settings.noise (Bot.settings_of user_id s);
             History.quality := Settings.quality (Bot.settings_of user_id s);
             History.dpi := Settings.dpi (Bot.settings_of user_id s);
             History.created_at := Bot.current_timestamp T |}].
Proof.
  intros Hrel Hsizes Horiginal Hfresh Hfile Hstages Hsave.
  destruct (process_pdf_file_ok lib T user_id ud s Hrel Hsizes Horiginal Hfresh)
    as (success & n & w & s' & Hrun & Hres & _ & _ & _ & Hsucc).
  destruct (process_pdf_success lib (Bot.corruptor_of T (Bot.settings_of user_id s))
              (Bot.pdf_path ud) (Bot.output_path_of T s)
              (initial_world (<[Bot.output_path_of T s := Garbage []]> (Bot.storage s))
                 Reporter.initial) ps qs
              (caller_storage_lookup T ud s _ Hfresh Hfile) Hstages Hsave)
    as (w0 & Hrun0 & Hfiles & _).
  rewrite Hrun0 in Hrun. injection Hrun as <- <- <-.
  destruct (Hsucc (PdfFile qs) eq_refl) as (Hledger & caption & Hcaption & Hchat).
  { rewrite Hfiles. apply lookup_insert_eq. }
  exists s', caption. split; [exact Hres |]. split; [exact Hcaption |].
  split; [exact Hchat |]. exact Hledger.
Qed.

Lemma process_pdf_file_success_witness :
  exists s' caption,
    Bot.process_pdf_file Demo.lib DemoBot.transport 7 (DemoBot.user_data "three.pdf")
      DemoBot.state = (Ok tt, s') /\
    Bot.caption_of 4096 60000000 3 Settings.defaults = Ok caption /\
    Bot.chat s'
    = [Bot.edited Bot.uploading_text;
       Bot.replied_document (PdfFile [DemoBot.scanned; DemoBot.scanned; DemoBot.scanned])
         "corrupted_scan.pdf" caption;
       Bot.deleted] /\
    Bot.ledger s'
    = [{| History.user_id := 7;
          History.original_filename := "scan.pdf";
          History.output_filename := "corrupted_scan.pdf";
          History.original_size := 4096;
          History.output_size := 60000000;
          History.pages_count := 3;
          History.blur := Settings.blur Settings.defaults;
          History.skew := Settings.skew Settings.defaults;
          History.noise := Settings.noise Settings.defaults;
          History.quality := Settings.quality Settings.defaults;
          History.dpi := Settings.dpi Settings.defaults;
          History.created_at := "2026-01-01 00:00:00" |}].
Proof.
  apply (process_pdf_file_success Demo.lib DemoBot.transport 7
           (DemoBot.user_data "three.pdf") DemoBot.state
           [Demo.a4; Demo.a4; Demo.a4] [DemoBot.scanned; DemoBot.scanned; DemoBot.scanned]).
  - repeat split.
  - intros [ps | raw]; unfold Bot.plausible_size; cbn; lia.
  - vm_compute. split; [discriminate | reflexivity].
  - vm_compute. reflexivity.
  - vm_compute. reflexivity.
  - vm_compute. reflexivity.
  - reflexivity.
Defined.

(** X25. A failed run is reported and not recorded: when a stage of the
    pipeline raises (the upload does not open, a page fails, or the save
    fails), [process_pdf_file] sends no document; it writes the failure text
    into the progress message, adds no history row, and still returns
    normally. *)
Theorem process_pdf_file_failure (lib : Library) (T : Bot.Transport) (user_id : Z)
    (ud : Bot.UserData) (s : Bot.State) :
  (forall t, Bot.edit_text T t = Ok tt) ->
  Bot.storage s !! Bot.output_path_of T s = None ->
  stage_error lib (Bot.corruptor_of T (Bot.settings_of user_id s)) (Bot.pdf_path ud)
    (Bot.output_path_of T s)
    (initial_world (<[Bot.output_path_of T s := Garbage []]> (Bot.storage s))
       Reporter.initial) ->
  exists s',
    Bot.process_pdf_file lib T user_id ud s = (Ok tt, s') /\
    Bot.chat s' = Bot.chat s ++ [Bot.edited Bot.failed_text] /\
    Bot.ledger s' = Bot.ledger s.
Proof.
  intros edit_ok Hfresh Herr.
  assert (Hrun : exists w,
             process_pdf lib (Bot.corruptor_of T (Bot.settings_of user_id s))
               (Bot.pdf_path ud) (Bot.output_path_of T s)
               (initial_world (<[Bot.output_path_of T s := Garbage []]> (Bot.storage s))
                  Reporter.initial)
             = (Ok (false, 0), w)).
  { destruct Herr as [Hopen | ps e Hfile Hstages | ps qs e Hfile Hstages Hsave].
    - eexists. apply process_pdf_open_failure. exact Hopen.
    - destruct (process_pdf_stage_failure lib _ (Bot.pdf_path ud) (Bot.output_path_of T s)
                  _ ps e Hfile Hstages) as (w0 & out & Hrun0 & _).
      exists w0. exact Hrun0.
    - destruct (process_pdf_save_failure lib _ (Bot.pdf_path ud) (Bot.output_path_of T s)
                  _ ps qs e Hfile Hstages Hsave) as (w0 & Hrun0 & _).
      exists w0. exact Hrun0. }
  destruct Hrun as [w Hrun].
  rewrite (process_pdf_file_unfold lib T user_id ud s false 0 w Hrun).
  unfold Bot.deliver. cbv zeta. rewrite edit_ok.
  eexists. split; [reflexivity |].
  rewrite !(proj1 (proj2 (unlink_if_exists_rest _ _))).
  rewrite !(proj1 (proj2 (proj2 (unlink_if_exists_rest _ _)))).
  split; reflexivity.
Qed.

Lemma process_pdf_file_failure_witness :
  exists s',
    Bot.process_pdf_file Demo.lib DemoBot.transport 7 (DemoBot.user_data "junk.pdf")
      DemoBot.state = (Ok tt, s') /\
    Bot.chat s' = [Bot.edited Bot.failed_text] /\
    Bot.ledger s' = [].
Proof.
  apply (process_pdf_file_failure Demo.lib DemoBot.transport 7
           (DemoBot.user_data "junk.pdf") DemoBot.state).
  - reflexivity.
  - vm_compute. reflexivity.
  - apply open_error. intros ps. vm_compute. discriminate.
Defined.

(** X26. A failed upload leaves the temporary files behind: when the
    pipeline succeeds but [reply_document] raises, the handler reports the
    error in the progress message and returns normally, but both the upload
    and the written output file are still in the storage, and no history row
    is added. *)
Theorem process_pdf_file_upload_failure_keeps_files (lib : Library) (T : Bot.Transport)
    (user_id : Z) (ud : Bot.UserData) (s : Bot.State) (ps qs : list Page) (e : exn) :
  (forall t, Bot.edit_text T t = Ok tt) ->
  (forall contents name caption, Bot.reply_document T contents name caption = Raise e) ->
  Bot.plausible_size (Bot.getsize T (PdfFile qs)) ->
  Bot.plausible_size (Bot.original_size_of ud) ->
  Bot.storage s !! Bot.output_path_of T s = None ->
  Bot.storage s !! Bot.pdf_path ud = Some (PdfFile ps) ->
  all_stages lib (Bot.corruptor_of T (Bot.settings_of user_id s)) 0 ps = Ok qs ->
  doc_save lib qs (Bot.output_path_of T s) = Ok tt ->
  exists s',
    Bot.process_pdf_file lib T user_id ud s = (Ok tt, s') /\
    Bot.storage s' !! Bot.pdf_path ud = Some (PdfFile ps) /\
    Bot.storage s' !! Bot.output_path_of T s = Some (PdfFile qs) /\
    Bot.ledger s' = Bot.ledger s /\
    last (Bot.chat s') = Some (Bot.edited (Bot.error_text e)).
Proof.
  intros edit_ok reply_fails Hsize Horiginal Hfresh Hfile Hstages Hsave.
  destruct (process_pdf_success lib (Bot.corruptor_of T (Bot.settings_of user_id s))
              (Bot.pdf_path ud) (Bot.output_path_of T s)
              (initial_world (<[Bot.output_path_of T s := Garbage []]> (Bot.storage s))
                 Reporter.initial) ps qs
              (caller_storage_lookup T ud s _ Hfresh Hfile) Hstages Hsave)
    as (w & Hrun & Hfiles & _).
  cbn [files initial_world] in Hfiles.
  assert (Hout : files w !! Bot.output_path_of T s = Some (PdfFile qs))
    by (rewrite Hfiles; apply lookup_insert_eq).
  destruct (deliver_reply_fails T user_id ud (Bot.settings_of user_id s)
              (Bot.output_path_of T s) (Z.of_nat (length ps))
              {| Bot.storage := files w;
                 Bot.table := snd (Settings.get_settings user_id (Bot.table s));
                 Bot.ledger := Bot.ledger s; Bot.chat := Bot.chat s;
                 Bot.progress := reporter w |} (PdfFile qs) e edit_ok reply_fails
              Hsize Horiginal Hout)
    as (s1 & Hdeliver & Hstorage & Hledger & _).
  rewrite (process_pdf_file_unfold lib T user_id ud s _ _ w Hrun), Hdeliver, edit_ok.
  eexists. split; [reflexivity |].
  cbn [Bot.storage Bot.ledger Bot.chat Bot.with_chat].
  rewrite Hstorage, Hledger. cbn [Bot.storage Bot.ledger].
  split; [rewrite Hfiles, !lookup_insert_ne; [exact Hfile | |];
          intros Heq; rewrite Heq in Hfresh; congruence |].
  split; [exact Hout |].
  split; [reflexivity |].
  apply last_snoc.
Qed.

Lemma process_pdf_file_upload_failure_keeps_files_witness :
  exists s',
    Bot.process_pdf_file Demo.lib DemoBot.transport_no_upload 7
      (DemoBot.user_data "three.pdf") DemoBot.state = (Ok tt, s') /\
    Bot.storage s' !! "three.pdf" = Some (PdfFile [Demo.a4; Demo.a4; Demo.a4]) /\
    Bot.storage s' !! "tmp0.pdf"
    = Some (PdfFile [DemoBot.scanned; DemoBot.scanned; DemoBot.scanned]) /\
    Bot.ledger s' = [] /\
    last (Bot.chat s') = Some (Bot.edited (Bot.error_text (RuntimeError "timed out"))).
Proof.
  apply (process_pdf_file_upload_failure_keeps_files Demo.lib DemoBot.transport_no_upload 7
           (DemoBot.user_data "three.pdf") DemoBot.state
           [Demo.a4; Demo.a4; Demo.a4] [DemoBot.scanned; DemoBot.scanned; DemoBot.scanned]
           (RuntimeError "timed out")).
  - reflexivity.
  - reflexivity.
  - vm_compute. split; [discriminate | reflexivity].
  - vm_compute. split; [discriminate | reflexivity].
  - vm_compute. reflexivity.
  - vm_compute. reflexivity.
  - vm_compute. reflexivity.
  - reflexivity.
Defined.

(** * The size checks of [handle_pdf] *)

(** ** Exact divisions by powers of two *)

(** Rounding a 54-bit even mantissa drops the last bit and nothing else. *)
Lemma binary_round_aux_even (x : positive) (e : Z) :
  Zpos (digits2_pos x) = 53 -> -1075 <= e -> e + 1 <= 971 ->
  binary_round_aux prec emax false (Zpos x~0) e loc_Exact = S754_finite false x (e + 1).
Proof.
  intros Hd Hlo Hhi. unfold binary_round_aux, shr_fexp.
  cbn [Zdigits2 digits2_pos]. rewrite Pos2Z.inj_succ, Hd.
  replace (fexp prec emax (Z.succ 53 + e) - e) with 1 by (rewrite fexp_binary64; lia).
  cbn [shr shr_record_of_loc SpecFloat.iter_pos shr_1 shr_m shr_r shr_s loc_of_shr_record
       round_nearest_even orb Zdigits2].
  rewrite Hd.
  replace (fexp prec emax (53 + (e + 1)) - (e + 1)) with 0
    by (rewrite fexp_binary64; lia).
  cbn [shr shr_record_of_loc shr_m].
  replace (e + 1 <=? emax - prec) with true
    by (symmetry; apply Z.leb_le; unfold emax, prec; lia).
  reflexivity.
Qed.

(** Dividing by a power of two changes the exponent only: the quotient of a
    mantissa of at most 53 bits is exact, and comes out normalised. *)
Lemma SFdiv_pow2 (a b : positive) (ea eb k : Z) :
  0 <= k -> Zpos b = 2 ^ k ->
  Zpos (digits2_pos a) <= 53 ->
  -1074 <= Zpos (digits2_pos a) + ea - eb - k - 54 ->
  Zpos (digits2_pos a) + ea - eb - k - 53 <= 971 ->
  exists x,
    Zpos x = Zpos a * 2 ^ (53 - Zpos (digits2_pos a)) /\
    Zpos (digits2_pos x) = 53 /\
    SFdiv prec emax (S754_finite false a ea) (S754_finite false b eb)
    = S754_finite false x (Zpos (digits2_pos a) + ea - eb - k - 53).
Proof.
  intros Hk Hb Hd Hlo Hhi.
  destruct (digits2_pos_bounds a) as [Halo Hahi].
  set (d := Zpos (digits2_pos a)) in *.
  assert (Hd1 : 1 <= d) by (unfold d; lia).
  assert (Hp : 0 < 2 ^ (53 - d)) by (apply Z.pow_pos_nonneg; lia).
  assert (Hx : 0 < Zpos a * 2 ^ (53 - d)) by lia.
  destruct (Zpos a * 2 ^ (53 - d)) as [| x | x] eqn:Hxe; try lia.
  assert (Hdx : Zpos (digits2_pos x) = 53).
  { change (Zdigits2 (Zpos x) = 53). apply Zdigits2_unique; [lia |].
    rewrite <- Hxe.
    assert (H52 : 2 ^ (53 - 1) = 2 ^ (d - 1) * 2 ^ (53 - d))
      by (rewrite <- Z.pow_add_r by lia; f_equal; lia).
    assert (H53 : 2 ^ 53 = 2 ^ d * 2 ^ (53 - d))
      by (rewrite <- Z.pow_add_r by lia; f_equal; lia).
    rewrite H52, H53. nia. }
  exists x. split; [reflexivity |]. split; [exact Hdx |].
  unfold SFdiv, SFdiv_core_binary. cbn [xorb].
  change (Zdigits2 (Zpos a)) with d.
  assert (Hdb : Zdigits2 (Zpos b) = k + 1).
  { apply Zdigits2_unique; [lia |]. rewrite Hb.
    replace (k + 1 - 1) with k by lia.
    replace (k + 1) with (Z.succ k) by lia. rewrite Z.pow_succ_r by lia.
    assert (0 < 2 ^ k) by (apply Z.pow_pos_nonneg; lia). lia. }
  rewrite Hdb, fexp_binary64.
  replace (Z.min (Z.max (d + ea - (k + 1 + eb) - 53) (-1074)) (ea - eb))
    with (d + ea - eb - k - 54) by lia.
  replace (ea - eb - (d + ea - eb - k - 54)) with (k + 54 - d) by lia.
  destruct (k + 54 - d) as [| s | s] eqn:Hs; try lia.
  rewrite Z.shiftl_mul_pow2 by lia. rewrite <- Hs.
  assert (Hq : Z.div_eucl (Zpos a * 2 ^ (k + 54 - d)) (Zpos b) = (Zpos x~0, 0)).
  { pose proof (Z_div_mod (Zpos a * 2 ^ (k + 54 - d)) (Zpos b) eq_refl) as Hdiv.
    destruct (Z.div_eucl (Zpos a * 2 ^ (k + 54 - d)) (Zpos b)) as [q r].
    destruct Hdiv as [Heq Hr].
    assert (Hm : Zpos a * 2 ^ (k + 54 - d) = Zpos b * Zpos x~0).
    { rewrite (Pos2Z.inj_xO x), <- Hxe, Hb.
      replace (k + 54 - d) with (k + 1 + (53 - d)) by lia.
      rewrite !Z.pow_add_r by lia. ring. }
    rewrite Hm in Heq.
    assert (q = Zpos x~0) by nia. subst q. f_equal. lia. }
  rewrite Hq, new_location_zero.
  rewrite binary_round_aux_even by (try exact Hdx; lia).
  f_equal. lia.
Qed.

Lemma float_of_int_1024 : float_of_int 1024 = S754_finite false 4503599627370496 (-42).
Proof. vm_compute. reflexivity. Qed.

(** [size / 1024 / 1024] is exact for a positive size below [2 ^ 53]. *)
Lemma megabytes_exact (p : positive) :
  Zpos p < 2 ^ 53 ->
  exists x,
    Zpos x = Zpos p * 2 ^ (53 - Zpos (digits2_pos p)) /\
    megabytes (Zpos p) = Ok (S754_finite false x (Zpos (digits2_pos p) - 73)).
Proof.
  intros Hp.
  assert (Hd : Zpos (digits2_pos p) <= 53).
  { change (Zdigits2 (Zpos p) <= 53). apply Zdigits2_le; lia. }
  assert (Hd1 : 1 <= Zpos (digits2_pos p)) by lia.
  destruct (SFdiv_pow2 p 1024 0 0 10) as (x & Hx & Hdx & Hdiv); try lia.
  destruct (SFdiv_pow2 x 4503599627370496 (Zpos (digits2_pos p) + 0 - 0 - 10 - 53) (-42) 52)
    as (y & Hy & _ & Hdiv2); try lia.
  rewrite Hdx in Hy, Hdiv2. change (2 ^ (53 - 53)) with 1 in Hy.
  assert (y = x) by lia. subst y.
  exists x. split; [exact Hx |].
  unfold megabytes, int_truediv_checked, int_truediv. cbn [Z.eqb rbind exact_int].
  rewrite Hdiv. cbn [rbind]. unfold float_div_int. rewrite float_of_int_1024, Hdiv2.
  do 2 f_equal. lia.
Qed.

(** Comparing an exact number of megabytes with a whole number of them is
    comparing the bytes. *)
Lemma megabytes_gt (p x c : positive) (dn N : Z) :
  Zpos p < 2 ^ 53 ->
  Zpos x = Zpos p * 2 ^ (53 - Zpos (digits2_pos p)) ->
  1 <= dn <= 53 ->
  2 ^ (dn - 1) <= N < 2 ^ dn ->
  Zpos c = N * 2 ^ (53 - dn) ->
  match SFcompare (S754_finite false x (Zpos (digits2_pos p) - 73))
                  (S754_finite false c (dn - 73)) with
  | Some Gt => true
  | _ => false
  end = (N <? Zpos p).
Proof.
  intros Hp Hx Hdn HN Hc.
  destruct (digits2_pos_bounds p) as [Hlo Hhi].
  set (d := Zpos (digits2_pos p)) in *.
  assert (Hd : d <= 53) by (apply (Zdigits2_le (Zpos p)); lia).
  assert (Hd1 : 1 <= d) by (unfold d; lia).
  cbn [SFcompare].
  destruct (Z.compare_spec (d - 73) (dn - 73)) as [Heq | Hlt | Hgt].
  - assert (d = dn) by lia. subst dn.
    assert (Hpow : 0 < 2 ^ (53 - d)) by (apply Z.pow_pos_nonneg; lia).
    change (Pos.compare_cont Eq x c) with (Pos.compare x c).
    rewrite (Pos2Z.inj_compare x c), Hx, Hc.
    destruct (Z.compare_spec (Zpos p * 2 ^ (53 - d)) (N * 2 ^ (53 - d))) as [H | H | H];
      symmetry; (apply Z.ltb_lt || apply Z.ltb_ge); nia.
  - symmetry. apply Z.ltb_ge.
    assert (2 ^ d <= 2 ^ (dn - 1)) by (apply Z.pow_le_mono_r; lia). lia.
  - symmetry. apply Z.ltb_lt.
    assert (2 ^ dn <= 2 ^ (d - 1)) by (apply Z.pow_le_mono_r; lia). lia.
Qed.

Lemma float_of_int_50 : float_of_int 50 = S754_finite false 7036874417766400 (26 - 73).
Proof. vm_compute. reflexivity. Qed.

Lemma float_of_int_10 : float_of_int 10 = S754_finite false 5629499534213120 (24 - 73).
Proof. vm_compute. reflexivity. Qed.

(** Both size checks of [handle_pdf], on integers. *)
Lemma size_checks (size : Z) :
  0 <= size < 2 ^ 53 ->
  exists file_size_mb,
    megabytes size = Ok file_size_mb /\
    float_gt_int file_size_mb Upload.MAX_FILE_SIZE_MB = (50 * 1024 * 1024 <? size) /\
    float_gt_int file_size_mb 10 = (10 * 1024 * 1024 <? size).
Proof.
  intros [H0 Hlt]. destruct size as [| p | p]; try lia.
  - eexists. split; [reflexivity |]. split; reflexivity.
  - destruct (megabytes_exact p Hlt) as (x & Hx & ->).
    eexists. split; [reflexivity |].
    unfold float_gt_int, Upload.MAX_FILE_SIZE_MB. rewrite float_of_int_50, float_of_int_10.
    split.
    + apply (megabytes_gt p x 7036874417766400 26 (50 * 1024 * 1024) Hlt Hx);
        [lia | | reflexivity]; cbn; lia.
    + apply (megabytes_gt p x 5629499534213120 24 (10 * 1024 * 1024) Hlt Hx);
        [lia | | reflexivity]; cbn; lia.
Qed.

(** ** [handle_pdf] *)

Ltac upload_simpl :=
  cbn [Upload.storage Upload.table Upload.user_data Upload.sent Upload.with_sent
       Upload.with_storage Upload.with_table Upload.with_user_data Upload.ud_pdf_path
       Upload.ud_filename Upload.ud_file_size default from_option id fst snd].

(** [handle_pdf] with a file that is there and a name that ends in
    [.pdf]: the two comparisons of floats are comparisons of the size in
    bytes. *)
Lemma handle_pdf_checked (T : Upload.Transport) (user_id : Z) (document : Upload.Document)
    (s : Upload.State) :
  Upload.get_file T = Ok tt ->
  endswith (Upload.lower T (Upload.file_name document)) ".pdf" = true ->
  0 <= Upload.file_size document < 2 ^ 53 ->
  exists file_size_mb,
    megabytes (Upload.file_size document) = Ok file_size_mb /\
    Upload.handle_pdf T user_id document s
    = if 50 * 1024 * 1024 <? Upload.file_size document
      then Upload.say T (Upload.too_big file_size_mb) s
      else Upload.after_checks T (10 * 1024 * 1024 <? Upload.file_size document)
             user_id document file_size_mb s.
Proof.
  intros Hget Hname Hsize. unfold Upload.handle_pdf. rewrite Hget, Hname. cbn [negb].
  destruct (size_checks _ Hsize) as (mb & Hmb & H50 & H10).
  exists mb. split; [exact Hmb |]. rewrite Hmb, H50, H10. reflexivity.
Qed.



(** X28. A download that does not complete leaves its traces: when the
    document passes both checks but the download times out or raises, the
    handler returns normally after its notice, yet the temporary file it
    opened stays in the storage, empty; and the user data names the new
    document and its size while [pdf_path] is what it was before. *)
Theorem handle_pdf_download_failure (T : Upload.Transport) (user_id : Z)
    (document : Upload.Document) (s : Upload.State) (name : string) :
  Upload.get_file T = Ok tt ->
  (forall n, Upload.reply_text T n = Ok tt) ->
  Upload.delete T = Ok tt ->
  endswith (Upload.lower T (Upload.file_name document)) ".pdf" = true ->
  0 <= Upload.file_size document <= 52428800 ->
  Upload.NamedTemporaryFile T (Upload.storage s) = Ok name ->
  (forall contents, Upload.download_as_bytearray T <> Upload.downloaded contents) ->
  exists s' n,
    Upload.handle_pdf T user_id document s = (Ok tt, s') /\
    Upload.storage s' = <[name := Garbage []]> (Upload.storage s) /\
    Upload.user_data s'
    = {| Upload.ud_pdf_path := Upload.ud_pdf_path (Upload.user_data s);
         Upload.ud_filename := Some (Upload.file_name document);
         Upload.ud_file_size := Some (Upload.file_size document) |} /\
    Upload.table s' = Upload.table s /\
    last (Upload.sent s') = Some (Upload.replied n) /\
    (n = Upload.download_timed_out \/ exists e, n = Upload.download_failed e).
Proof.
  intros Hget Hreply Hdelete Hname Hsize Htmp Hdown.
  destruct (handle_pdf_checked T user_id document s Hget Hname) as (mb & _ & ->); [lia |].
  replace (50 * 1024 * 1024 <? Upload.file_size document) with false
    by (symmetry; apply Z.ltb_ge; lia).
  unfold Upload.after_checks, Upload.try_block, Upload.on_error, Upload.delete_status,
    Upload.say.
  destruct (10 * 1024 * 1024 <? Upload.file_size document);
    rewrite ?Hreply; upload_simpl;
    rewrite Htmp;
    (destruct (Upload.download_as_bytearray T) as [contents | | e] eqn:Hd;
     [exfalso; exact (Hdown contents eq_refl) | |]);
    rewrite ?Hdelete, ?Hreply;
    (eexists _, _; split; [reflexivity |]);
    upload_simpl;
    (repeat split; [apply last_snoc |]); eauto.
Qed.

Lemma handle_pdf_download_failure_witness :
  exists s' n,
    Upload.handle_pdf DemoBot.upload_slow 7 (DemoBot.document 20000000) DemoBot.session
    = (Ok tt, s') /\
    Upload.storage s' = <["upload0.pdf" := Garbage []]> Demo.storage /\
    Upload.user_data s'
    = {| Upload.ud_pdf_path := Some "one.pdf";
         Upload.ud_filename := Some "Scan.PDF";
         Upload.ud_file_size := Some 20000000 |} /\
    Upload.table s' = ∅ /\
    last (Upload.sent s') = Some (Upload.replied n) /\
    (n = Upload.download_timed_out \/ exists e, n = Upload.download_failed e).
Proof.
  apply (handle_pdf_download_failure DemoBot.upload_slow 7 (DemoBot.document 20000000)
           DemoBot.session "upload0.pdf").
  - reflexivity.
  - reflexivity.
  - reflexivity.
  - vm_compute. reflexivity.
  - cbn. lia.
  - reflexivity.
  - intros contents. discriminate.
Defined.

(** What a completed upload leaves. *)
Lemma handle_pdf_downloaded (T : Upload.Transport) (user_id : Z)
    (document : Upload.Document) (s : Upload.State) (name : string) (contents : Blob) :
  Upload.get_file T = Ok tt ->
  (forall n, Upload.reply_text T n = Ok tt) ->
  Upload.delete T = Ok tt ->
  endswith (Upload.lower T (Upload.file_name document)) ".pdf" = true ->
  0 <= Upload.file_size document <= 52428800 ->
  Upload.NamedTemporaryFile T (Upload.storage s) = Ok name ->
  Upload.download_as_bytearray T = Upload.downloaded contents ->
  exists s',
    Upload.handle_pdf T user_id document s = (Ok tt, s') /\
    Upload.storage s' = <[name := contents]> (Upload.storage s) /\
    Upload.user_data s'
    = {| Upload.ud_pdf_path := Some name;
         Upload.ud_filename := Some (Upload.file_name document);
         Upload.ud_file_size := Some (Upload.file_size document) |} /\
    Upload.table s' = snd (Settings.get_settings user_id (Upload.table s)).
Proof.
  intros Hget Hreply Hdelete Hname Hsize Htmp Hdown.
  destruct (handle_pdf_checked T user_id document s Hget Hname) as (mb & Hmb & ->); [lia |].
  replace (50 * 1024 * 1024 <? Upload.file_size document) with false
    by (symmetry; apply Z.ltb_ge; lia).
  unfold Upload.after_checks, Upload.try_block, Upload.delete_status,
    Upload.show_settings_menu, Upload.say.
  destruct (10 * 1024 * 1024 <? Upload.file_size document);
    rewrite ?Hreply; upload_simpl;
    rewrite Htmp, Hdown, ?Hdelete; upload_simpl;
    destruct (Settings.get_settings user_id (Upload.table s)) as [settings table'];
    upload_simpl; rewrite Hmb, Hreply;
    (eexists; split; [reflexivity |]);
    upload_simpl; rewrite insert_insert_eq; repeat split.
Qed.

(** X29. An upload followed by its processing leaves no file behind: when
    [handle_pdf] has downloaded a document into a fresh temporary file and
    [process_pdf_file] then runs on the user data it wrote, with transports
    that do not fail, both handlers return normally and the storage holds
    exactly the files it held before the upload. *)
Theorem upload_then_process_restores_storage (lib : Library) (U : Upload.Transport)
    (T : Bot.Transport) (user_id : Z) (document : Upload.Document) (s : Upload.State)
    (name : string) (contents : Blob) (ledger : list History.Entry)
    (chat : list Bot.ChatAction) (progress : Reporter.State) :
  Upload.get_file U = Ok tt ->
  (forall n, Upload.reply_text U n = Ok tt) ->
  Upload.delete U = Ok tt ->
  endswith (Upload.lower U (Upload.file_name document)) ".pdf" = true ->
  0 <= Upload.file_size document <= 52428800 ->
  Upload.NamedTemporaryFile U (Upload.storage s) = Ok name ->
  Upload.storage s !! name = None ->
  Upload.download_as_bytearray U = Upload.downloaded contents ->
  Bot.reliable T ->
  (forall b, Bot.plausible_size (Bot.getsize T b)) ->
  (<[name := contents]> (Upload.storage s))
    !! Bot.mkstemp T (<[name := contents]> (Upload.storage s)) = None ->
  exists s1 ud b',
    Upload.handle_pdf U user_id document s = (Ok tt, s1) /\
    Upload.for_processing (Upload.user_data s1) = Some ud /\
    Bot.process_pdf_file lib T user_id ud
      {| Bot.storage := Upload.storage s1; Bot.table := Upload.table s1;
         Bot.ledger := ledger; Bot.chat := chat; Bot.progress := progress |}
    = (Ok tt, b') /\
    forall p, Bot.storage b' !! p = Upload.storage s !! p.
Proof.
  intros Hget Hreply Hdelete Hname Hsize Htmp Hnew Hdown Hrel Hsizes Hfresh.
  destruct (handle_pdf_downloaded U user_id document s name contents
              Hget Hreply Hdelete Hname Hsize Htmp Hdown)
    as (s1 & Hup & Hstorage & Hud & Htable).
  set (ud := {| Bot.pdf_path := name; Bot.filename := Some (Upload.file_name document);
                Bot.file_size := Some (Upload.file_size document) |}).
  set (b := {| Bot.storage := Upload.storage s1; Bot.table := Upload.table s1;
               Bot.ledger := ledger; Bot.chat := chat; Bot.progress := progress |}).
  destruct (process_pdf_file_ok lib T user_id ud b Hrel Hsizes)
    as (success & n & w & b' & _ & Hrun & Hfiles & _).
  { unfold Bot.plausible_size, Bot.original_size_of, ud. cbn [Bot.file_size default from_option id]. lia. }
  { unfold Bot.output_path_of, b. cbn [Bot.storage]. rewrite Hstorage. exact Hfresh. }
  exists s1, ud, b'. split; [exact Hup |].
  split; [unfold Upload.for_processing; rewrite Hud; reflexivity |].
  split; [exact Hrun |].
  intros p. rewrite Hfiles. unfold ud, b. cbn [Bot.pdf_path Bot.storage].
  rewrite Hstorage. case_decide as Hp.
  - subst p. symmetry. exact Hnew.
  - apply lookup_insert_ne. exact Hp.
Qed.

Lemma upload_then_process_restores_storage_witness :
  exists s1 ud b',
    Upload.handle_pdf DemoBot.upload 7 (DemoBot.document 20000000) DemoBot.session
    = (Ok tt, s1) /\
    Upload.for_processing (Upload.user_data s1) = Some ud /\
    Bot.process_pdf_file Demo.lib DemoBot.transport 7 ud
      {| Bot.storage := Upload.storage s1; Bot.table := Upload.table s1;
         Bot.ledger := []; Bot.chat := []; Bot.progress := Reporter.initial |}
    = (Ok tt, b') /\
    forall p, Bot.storage b' !! p = Demo.storage !! p.
Proof.
  apply (upload_then_process_restores_storage Demo.lib DemoBot.upload DemoBot.transport 7
           (DemoBot.document 20000000) DemoBot.session "upload0.pdf"
           (PdfFile [Demo.a4; Demo.a4; Demo.a4]) [] [] Reporter.initial).
  - reflexivity.
  - reflexivity.
  - reflexivity.
  - vm_compute. reflexivity.
  - cbn. lia.
  - reflexivity.
  - vm_compute. reflexivity.
  - reflexivity.
  - repeat split.
  - intros [ps | raw]; unfold Bot.plausible_size; cbn; lia.
  - vm_compute. reflexivity.
Defined.

(** * From a processed file to the statistics *)

(** X30. A processed file shows in the statistics: after a successful
    [process_pdf_file] the statistics of the user, as [get_user_stats]
    computes them for [/stats] and [/start], count one file more and as many
    pages more as the upload has, and name a date of last processing. *)
Theorem process_pdf_file_counts_in_stats (lib : Library) (T : Bot.Transport)
    (sql_avg : list Z -> float) (sql_max : list string -> string) (user_id : Z)
    (ud : Bot.UserData) (s : Bot.State) (ps qs : list Page) (before : History.Stats) :
  Bot.reliable T ->
  (forall contents, Bot.plausible_size (Bot.getsize T contents)) ->
  Bot.plausible_size (Bot.original_size_of ud) ->
  Bot.storage s !! Bot.output_path_of T s = None ->
  Bot.storage s !! Bot.pdf_path ud = Some (PdfFile ps) ->
  all_stages lib (Bot.corruptor_of T (Bot.settings_of user_id s)) 0 ps = Ok qs ->
  doc_save lib qs (Bot.output_path_of T s) = Ok tt ->
  History.get_user_stats sql_avg sql_max user_id (Bot.ledger s) = Ok before ->
  exists s',
    Bot.process_pdf_file lib T user_id ud s = (Ok tt, s') /\
    forall after,
      History.get_user_stats sql_avg sql_max user_id (Bot.ledger s') = Ok after ->
      History.total_files after = History.total_files before + 1 /\
      History.total_pages after = History.total_pages before + Z.of_nat (length ps) /\
      is_Some (History.last_processed after).
Proof.
  intros Hrel Hsizes Horiginal Hfresh Hfile Hstages Hsave Hbefore.
  destruct (process_pdf_file_ok lib T user_id ud s Hrel Hsizes Horiginal Hfresh)
    as (success & n & w & s' & Hrun & Hres & _ & _ & _ & Hsucc).
  destruct (process_pdf_success lib (Bot.corruptor_of T (Bot.settings_of user_id s))
              (Bot.pdf_path ud) (Bot.output_path_of T s)
              (initial_world (<[Bot.output_path_of T s := Garbage []]> (Bot.storage s))
                 Reporter.initial) ps qs
              (caller_storage_lookup T ud s _ Hfresh Hfile) Hstages Hsave)
    as (w0 & Hrun0 & Hfiles & _).
  rewrite Hrun0 in Hrun. injection Hrun as <- <- <-.
  destruct (Hsucc (PdfFile qs) eq_refl) as (Hledger & _).
  { rewrite Hfiles. apply lookup_insert_eq. }
  exists s'. split; [exact Hres |].
  intros after Hafter. rewrite Hledger in Hafter.
  destruct (get_user_stats_fields _ _ _ _ _ Hbefore) as (Hf & Hp & _).
  destruct (get_user_stats_fields _ _ _ _ _ Hafter) as (Hf' & Hp' & Hl').
  rewrite rows_of_save, Z.eqb_refl in Hf', Hp', Hl'.
  rewrite length_app in Hf'. rewrite sum_pages_app in Hp'.
  cbn [length History.pages_count] in Hf', Hp'.
  split; [lia |]. split; [lia |].
  apply Hl'. intros Habs. apply app_eq_nil in Habs as [_ Habs]. discriminate Habs.
Qed.

Lemma process_pdf_file_counts_in_stats_witness :
  exists s',
    Bot.process_pdf_file Demo.lib DemoBot.transport 7 (DemoBot.user_data "three.pdf")
      DemoBot.state = (Ok tt, s') /\
    forall after,
      History.get_user_stats (fun _ => S754_finite false 4503599627370496 (-27))
        (fun _ => "2026-01-01 00:00:00") 7 (Bot.ledger s') = Ok after ->
      History.total_files after = 0 + 1 /\
      History.total_pages after = 0 + 3 /\
      is_Some (History.last_processed after).
Proof.
  apply (process_pdf_file_counts_in_stats Demo.lib DemoBot.transport
           (fun _ => S754_finite false 4503599627370496 (-27))
           (fun _ => "2026-01-01 00:00:00") 7
           (DemoBot.user_data "three.pdf") DemoBot.state
           [Demo.a4; Demo.a4; Demo.a4] [DemoBot.scanned; DemoBot.scanned; DemoBot.scanned]
           {| History.total_files := 0; History.total_pages := 0; History.avg_size := 0;
              History.last_processed := None |}).
  - repeat split.
  - intros [ps | raw]; unfold Bot.plausible_size; cbn; lia.
  - vm_compute. split; [discriminate | reflexivity].
  - vm_compute. reflexivity.
  - vm_compute. reflexivity.
  - vm_compute. reflexivity.
  - reflexivity.
  - reflexivity.
Defined.
